(** * Consensus aggregation and feedback weights of the exoplanet helpers

    A shallow embedding of

      - [llm-training/complete_scientific_formulas.py]
        ([CompleteScientificCalculator]: the feedback weight rule, the
        aggregation of predictions and explanations, and the physical
        formulas), and
      - [web-app/llm-backend/enhanced_api_server.py] (the [/api/feedback]
        handler [provide_feedback], the reports and the connection
        manager).

    Number model.  Python floats are read as exact numbers: every finite
    float is a rational, so the aggregation and feedback code is embedded
    over [Q] with exact arithmetic (no rounding, no overflow), and equality
    of results is rational equality [==].  The physical formulas need
    roots and [pi]; they are embedded over [R].  The one place where the
    aggregation code produces a NaN from finite inputs ([np.var] of an
    empty list) is modelled explicitly.  Bounds, strict inequalities and
    identities that the rounding of the floats can break are stated for
    exact arithmetic, and say so.  Module [F64] has the feedback rule
    and the weighted mean once more over binary64 floats, to run them
    on inputs where rounding decides.

    The module [federated_ai_system], which the server imports, is not
    among the sources: the handler takes it as a parameter (the class
    [Api.FederatedAISystem]), and module [Federated] gives the instance
    that the specification describes. *)

From Stdlib Require Import Floats.
From stdpp Require Import gmap strings.
From Stdlib Require Import QArith Qminmax Lqa Lia List ZArith DecimalString.
From Stdlib Require Import Reals Lra Sorted.
Import ListNotations.

#[local] Set Warnings "-inexact-float".

(** ** Python primitives over exact rationals *)

Module Py.

Local Open Scope Q_scope.

(** [a < b] as Python evaluates it on two floats. *)
Definition ltb (a b : Q) : bool := negb (Qle_bool b a).

(** The builtin [max(a, b)]: the first argument is kept unless the second
    is strictly greater. *)
Definition max (a b : Q) : Q := if ltb a b then b else a.

(** The builtin [min(a, b)]: the first argument is kept unless the second
    is strictly smaller. *)
Definition min (a b : Q) : Q := if ltb b a then b else a.

(** The builtin [sum(xs)]: a left-to-right accumulation starting at [0]. *)
Definition sum (xs : list Q) : Q := fold_left Qplus xs 0.

(** [zip(xs, ys)]: pairs up to the shorter list. *)
Fixpoint zip {A B : Type} (xs : list A) (ys : list B) : list (A * B) :=
  match xs, ys with
  | x :: xs', y :: ys' => (x, y) :: zip xs' ys'
  | _, _ => []
  end.

End Py.

(** ** Exceptions and fallible computations *)

Inductive exn : Type :=
| ValueError (msg : string)
| ZeroDivisionError
| IndexError.

Inductive outcome (E A : Type) : Type :=
| Ok (a : A)
| Raise (e : E).
Arguments Ok {E A} a.
Arguments Raise {E A} e.

(** What a call of the calculator gives: a value or a Python exception. *)
Abbreviation result := (outcome exn).

Definition bind {E A B : Type} (m : outcome E A) (k : A -> outcome E B)
    : outcome E B :=
  match m with
  | Ok a => k a
  | Raise e => Raise e
  end.

Notation "'let*' x ':=' m 'in' k" := (bind m (fun x => k))
  (at level 10, x name, m at level 100, k at level 200).

(** Float division [a / b]: Python raises [ZeroDivisionError] when the
    divisor is zero. *)
Definition py_div (a b : Q) : result Q :=
  if Qeq_bool b 0 then Raise ZeroDivisionError else Ok (a / b).

(** A list comprehension [[f(x) for x in xs]] whose body may raise: the
    elements are evaluated left to right and the first exception wins. *)
Fixpoint comprehension {A B : Type} (f : A -> result B) (xs : list A)
    : result (list B) :=
  match xs with
  | [] => Ok []
  | x :: xs' =>
      let* y := f x in
      let* ys := comprehension f xs' in
      Ok (y :: ys)
  end.

Local Open Scope Q_scope.

(** ** [feedback_based_knowledge_weight] *)

(** The dictionary the function returns.  Its entry
    [binary_cross_entropy_loss] is a logarithm, which is not a rational;
    no other entry is computed from it, and it is left out.  The
    logarithms are taken of [P] and [1 - P] with [P] clipped to
    [0.001, 0.999], so they are defined. *)
Record FeedbackWeight : Type := {
  original_weight : Q;
  updated_weight : Q;
  weight_change : Q;
  fw_prediction : Q;
  fw_human_feedback : bool;
  loss_gradient : Q;
  fw_learning_rate : Q
}.

Definition feedback_based_knowledge_weight
    (current_weight prediction : Q) (human_feedback : bool)
    (learning_rate : Q) : result FeedbackWeight :=
  let h := if human_feedback then 1.0 else 0.0 in
  let P := Py.max 0.001 (Py.min 0.999 prediction) in
  let* t1 := py_div (- h) P in
  let* t2 := py_div (1 - h) (1 - P) in
  let dL_dP := t1 + t2 in
  let weight_adjustment :=
    learning_rate * dL_dP * (if human_feedback then 0.01 else - 0.01) in
  let new_weight :=
    Py.max 0.1 (Py.min 2.0 (current_weight - weight_adjustment)) in
  Ok {| original_weight := current_weight;
        updated_weight := new_weight;
        weight_change := new_weight - current_weight;
        fw_prediction := prediction;
        fw_human_feedback := human_feedback;
        loss_gradient := dL_dP;
        fw_learning_rate := learning_rate |}.

(** The clipped prediction [P], by name. *)
Definition clipped (prediction : Q) : Q :=
  Py.max 0.001 (Py.min 0.999 prediction).

(** ** [explanation_aggregation] *)

Record WeightedExplanation : Type := {
  helper_id : string;
  explanation : string;
  weight : Q;
  contribution : Q
}.

Record ExplanationAggregation : Type := {
  aggregated_explanations : list WeightedExplanation;
  total_helpers : nat;
  weight_distribution : list Q;
  primary_explanation : string
}.

(** [enumerate(zip(explanations, normalized_weights))], building one
    entry per pair; [i] is the index of the first pair of [ps]. *)
Fixpoint weighted_entries (i : nat) (ps : list (string * Q))
    : list WeightedExplanation :=
  match ps with
  | [] => []
  | (e, w) :: ps' =>
      {| helper_id := "helper_" +:+ NilEmpty.string_of_uint (Nat.to_uint (i + 1));
         explanation := e;
         weight := w;
         contribution := w * 100 |} :: weighted_entries (S i) ps'
  end.

(** [list.sort(key=..., reverse=True)] is stable: entries with equal keys
    keep their order.  [insert_desc x l] puts [x], which preceded every
    entry of the sorted [l], after the entries with a strictly greater
    key only. *)
Fixpoint insert_desc (x : WeightedExplanation) (l : list WeightedExplanation)
    : list WeightedExplanation :=
  match l with
  | [] => [x]
  | y :: l' =>
      if Py.ltb (contribution x) (contribution y)
      then y :: insert_desc x l'
      else x :: l
  end.

Definition sort_by_contribution_desc (l : list WeightedExplanation)
    : list WeightedExplanation :=
  fold_right insert_desc [] l.

Definition explanation_aggregation (explanations : list string)
    (weights : list Q) : result ExplanationAggregation :=
  if negb (Nat.eqb (length explanations) (length weights))
  then Raise (ValueError "Number of explanations must match number of weights")
  else
    let total_weight := Py.sum weights in
    let* normalized_weights :=
      comprehension (fun w => py_div w total_weight) weights in
    let weighted_explanations :=
      sort_by_contribution_desc
        (weighted_entries 0 (Py.zip explanations normalized_weights)) in
    match weighted_explanations with
    | [] => Raise IndexError
    | first :: _ =>
        Ok {| aggregated_explanations := weighted_explanations;
              total_helpers := length explanations;
              weight_distribution := normalized_weights;
              primary_explanation := explanation first |}
    end.

(** ** [aggregate_prediction] *)

(** [np.mean]: the sum over the count; of an empty array it is NaN
    ([None]). *)
Definition np_mean (xs : list Q) : option Q :=
  match xs with
  | [] => None
  | _ => Some (Py.sum xs / inject_Z (Z.of_nat (length xs)))
  end.

(** [np.var]: the mean of the squared deviations from the mean
    (population variance, [ddof = 0]); NaN ([None]) for an empty array. *)
Definition np_var (xs : list Q) : option Q :=
  match np_mean xs with
  | None => None
  | Some m => np_mean (map (fun x => (x - m) * (x - m)) xs)
  end.

Record AggregatePrediction : Type := {
  aggregated_prediction : Q;
  individual_predictions : list Q;
  weights : list Q;
  prediction_variance : option Q;
  confidence : Q;
  total_weight : Q
}.

Definition aggregate_prediction (predictions weights : list Q)
    : result AggregatePrediction :=
  if negb (Nat.eqb (length predictions) (length weights))
  then Raise (ValueError "Number of predictions must match number of weights")
  else
    let weighted_sum :=
      Py.sum (map (fun pw => fst pw * snd pw) (Py.zip predictions weights)) in
    let total_weight := Py.sum weights in
    let* aggregated_prediction :=
      (if Py.ltb 0 total_weight then py_div weighted_sum total_weight
       else Ok 0.5) in
    let prediction_variance := np_var predictions in
    (* [min(1.0, nan)] keeps [1.0]: [nan < 1.0] is false *)
    let confidence :=
      1.0 - match prediction_variance with
            | Some v => Py.min 1.0 (2 * v)
            | None => 1.0
            end in
    Ok {| aggregated_prediction := aggregated_prediction;
          individual_predictions := predictions;
          weights := weights;
          prediction_variance := prediction_variance;
          confidence := confidence;
          total_weight := total_weight |}.

(** The confidence the function derives from the variance, by name. *)
Definition confidence_of (variance : option Q) : Q :=
  1.0 - match variance with
        | Some v => Py.min 1.0 (2 * v)
        | None => 1.0
        end.

(** ** The quantities of the specification

    Written from the formulas of the specification, to be compared with
    what the code computes. *)

Module Spec.

(** [clamp(x, lo, hi)]: [x] brought back into [[lo, hi]]. *)
Definition clamp (x lo hi : Q) : Q :=
  if Qlt_le_dec x lo then lo
  else if Qlt_le_dec hi x then hi
  else x.

(** [Σ xᵢ] *)
Fixpoint Sigma (xs : list Q) : Q :=
  match xs with
  | [] => 0
  | x :: xs' => x + Sigma xs'
  end.

(** [Σ wᵢ·pᵢ] *)
Fixpoint dot (ws ps : list Q) : Q :=
  match ws, ps with
  | w :: ws', p :: ps' => w * p + dot ws' ps'
  | _, _ => 0
  end.

(** The weighted mean [Σ(wᵢ·pᵢ) / Σ(wᵢ)]. *)
Definition weighted_mean (ps ws : list Q) : Q := dot ws ps / Sigma ws.

Definition count (xs : list Q) : Q := inject_Z (Z.of_nat (length xs)).

Definition mean (xs : list Q) : Q := Sigma xs / count xs.

(** The unweighted population variance [Σ (pᵢ - mean)² / n]. *)
Definition variance (xs : list Q) : Q :=
  Sigma (map (fun x => (x - mean xs) ^ 2) xs) / count xs.

(** The loss gradient [g = -h/P + (1-h)/(1-P)]. *)
Definition gradient (h P : Q) : Q := - h / P + (1 - h) / (1 - P).

(** The weight after one feedback event:
    [clamp(w - η·g·(0.01 if is_correct else -0.01), 0.1, 2.0)]. *)
Definition new_weight (w p : Q) (is_correct : bool) (eta : Q) : Q :=
  let h := if is_correct then 1.0 else 0.0 in
  let P := clamp p 0.001 0.999 in
  let g := gradient h P in
  clamp (w - eta * g * (if is_correct then 0.01 else - 0.01)) 0.1 2.0.

(** [min(pᵢ)] and [max(pᵢ)] of the non-empty list [p :: ps]. *)
Fixpoint minimum (p : Q) (ps : list Q) : Q :=
  match ps with
  | [] => p
  | q :: ps' => Qmin p (minimum q ps')
  end.

Fixpoint maximum (p : Q) (ps : list Q) : Q :=
  match ps with
  | [] => p
  | q :: ps' => Qmax p (maximum q ps')
  end.

End Spec.

(** ** The same arithmetic in binary64

    A Python [float] is an IEEE 754 binary64 number and every operation
    rounds to nearest, ties to even; the primitive floats are the same
    format with the same rounding.  The feedback rule and the weighted
    mean are written out again over them, operation by operation, to
    run them on given inputs with the rounding the interpreter performs. *)

Module F64.

Local Open Scope float_scope.

(** The builtins [max(a, b)] and [min(a, b)] on two floats. *)
Definition max (a b : float) : float := if PrimFloat.ltb a b then b else a.

Definition min (a b : float) : float := if PrimFloat.ltb b a then b else a.

(** Float division [a / b]: [ZeroDivisionError] when the divisor is
    [0.0] or [-0.0]. *)
Definition py_div (a b : float) : result float :=
  if PrimFloat.eqb b 0 then Raise ZeroDivisionError else Ok (a / b).

(** The builtin [sum(xs)]: from [0], left to right, each addition
    rounded.  (From CPython 3.12 on a float sum also carries a correction
    term; it is zero when the list has a single element.) *)
Definition sum (xs : list float) : float := fold_left PrimFloat.add xs 0.

(** The dictionary of [feedback_based_knowledge_weight], without the
    logarithmic loss, as over the rationals. *)
Record FeedbackWeight : Type := {
  original_weight : float;
  updated_weight : float;
  weight_change : float;
  fw_prediction : float;
  fw_human_feedback : bool;
  loss_gradient : float;
  fw_learning_rate : float
}.

Definition feedback_based_knowledge_weight
    (current_weight prediction : float) (human_feedback : bool)
    (learning_rate : float) : result FeedbackWeight :=
  let h := if human_feedback then 1.0 else 0.0 in
  let P := max 0.001 (min 0.999 prediction) in
  let* t1 := py_div (- h) P in
  let* t2 := py_div (1 - h) (1 - P) in
  let dL_dP := t1 + t2 in
  let weight_adjustment :=
    learning_rate * dL_dP * (if human_feedback then 0.01 else -0.01) in
  let new_weight :=
    max 0.1 (min 2.0 (current_weight - weight_adjustment)) in
  Ok {| original_weight := current_weight;
        updated_weight := new_weight;
        weight_change := new_weight - current_weight;
        fw_prediction := prediction;
        fw_human_feedback := human_feedback;
        loss_gradient := dL_dP;
        fw_learning_rate := learning_rate |}.

(** The entries of [aggregate_prediction] that come from the weighted
    mean; the variance and the confidence are NumPy's and are left out
    here. *)
Record AggregatePrediction : Type := {
  aggregated_prediction : float;
  total_weight : float
}.

Definition aggregate_prediction (predictions weights : list float)
    : result AggregatePrediction :=
  if negb (Nat.eqb (length predictions) (length weights))
  then Raise (ValueError "Number of predictions must match number of weights")
  else
    let weighted_sum :=
      sum (map (fun pw => fst pw * snd pw) (Py.zip predictions weights)) in
    let total_weight := sum weights in
    let* aggregated_prediction :=
      (if PrimFloat.ltb 0 total_weight then py_div weighted_sum total_weight
       else Ok 0.5) in
    Ok {| aggregated_prediction := aggregated_prediction;
          total_weight := total_weight |}.

End F64.

(** ** The feedback endpoint of [enhanced_api_server.py] *)

Module Api.

(** [FeedbackRequest] *)
Record FeedbackRequest : Type := {
  analysis_id : string;
  is_correct : bool;
  ground_truth : option bool;
  user_notes : option string
}.

(** The dictionary stored under ['feedback'].  A [datetime] is a count of
    microseconds. *)
Record Feedback : Type := {
  fb_is_correct : bool;
  fb_ground_truth : option bool;
  fb_user_notes : option string;
  fb_timestamp : Z
}.

(** A value of [self.analysis_history], as far as the handler looks at
    it: [request.get('star_id')], ['timestamp'], and the ['feedback'] key,
    absent until the handler sets it. *)
Record StoredAnalysis : Type := {
  request_star_id : option string;
  timestamp : Z;
  feedback : option Feedback
}.

(** An entry of [federated_system.aggregation_history], as far as the
    handler looks at it: [input_data.get('star_id')] and ['timestamp']. *)
Record AggregationEntry : Type := {
  input_star_id : option string;
  entry_timestamp : Z
}.

Record SystemStatus : Type := {
  system_accuracy : Q;
  total_feedback : nat
}.

Inductive Exception : Type :=
| HTTPException (status_code : nat) (detail : string)
| FederatedError (message : string).

(** What the handler uses of [FederatedAISystem], whose module
    [federated_ai_system] the server imports: the history list, and the
    two methods, which may raise; [provide_human_feedback] may also have
    changed the system when it raises. *)
Class FederatedAISystem (F : Type) : Type := {
  aggregation_history : F -> list AggregationEntry;
  provide_human_feedback :
    F -> nat -> bool -> option bool -> F * option Exception;
  get_system_status : F -> outcome Exception SystemStatus
}.

(** The JSON message handed to [connection_manager.broadcast]. *)
Record Broadcast : Type := {
  bc_type : string;
  bc_analysis_id : string;
  bc_system_accuracy : Q;
  bc_total_feedback : nat
}.

(** [EnhancedExoplanetAPI], as far as the handler uses it. *)
Record Server (F : Type) : Type := {
  federated_system : F;
  analysis_history : gmap string StoredAnalysis;
  broadcasts : list Broadcast
}.
Arguments federated_system {F} _.
Arguments analysis_history {F} _.
Arguments broadcasts {F} _.

Record FeedbackResponse : Type := {
  message : string;
  resp_analysis_id : string;
  updated_system_accuracy : Q;
  total_feedback_count : nat
}.

(** [abs((a - b).total_seconds()) < 60] *)
Definition within_a_minute (a b : Z) : bool :=
  (Z.abs (a - b) <? 60 * 1000000)%Z.

(** The search loop: the index of the first history entry with the stored
    analysis's star id and a timestamp less than a minute away; [i] is
    the index of the first entry of [entries]. *)
Fixpoint find_analysis_index (stored : StoredAnalysis) (i : nat)
    (entries : list AggregationEntry) : option nat :=
  match entries with
  | [] => None
  | analysis :: rest =>
      if bool_decide (input_star_id analysis = request_star_id stored)
         && within_a_minute (entry_timestamp analysis) (timestamp stored)
      then Some i
      else find_analysis_index stored (S i) rest
  end.

Section Handler.

Context {F : Type} `{FederatedAISystem F}.

(** The body of the [try] block: the server afterwards, and the response
    or the exception that left the block. *)
Definition feedback_body (self : Server F) (request : FeedbackRequest)
    (now : Z) : Server F * outcome Exception FeedbackResponse :=
  match analysis_history self !! analysis_id request with
  | None => (self, Raise (HTTPException 404 "Analysis not found"))
  | Some stored_analysis =>
      match find_analysis_index stored_analysis 0
              (aggregation_history (federated_system self)) with
      | None =>
          (self, Raise (HTTPException 404 "Analysis not found in federated system"))
      | Some analysis_index =>
          let (fed, raised) :=
            provide_human_feedback (federated_system self) analysis_index
              (is_correct request) (ground_truth request) in
          let self1 :=
            {| federated_system := fed;
               analysis_history := analysis_history self;
               broadcasts := broadcasts self |} in
          match raised with
          | Some e => (self1, Raise e)
          | None =>
              let stored_analysis' :=
                {| request_star_id := request_star_id stored_analysis;
                   timestamp := timestamp stored_analysis;
                   feedback :=
                     Some {| fb_is_correct := is_correct request;
                             fb_ground_truth := ground_truth request;
                             fb_user_notes := user_notes request;
                             fb_timestamp := now |} |} in
              let self2 :=
                {| federated_system := fed;
                   analysis_history :=
                     <[analysis_id request := stored_analysis']>
                       (analysis_history self);
                   broadcasts := broadcasts self |} in
              match get_system_status fed with
              | Raise e => (self2, Raise e)
              | Ok status =>
                  let self3 :=
                    {| federated_system := fed;
                       analysis_history := analysis_history self2;
                       broadcasts :=
                         broadcasts self ++
                         [{| bc_type := "feedback_received";
                             bc_analysis_id := analysis_id request;
                             bc_system_accuracy := system_accuracy status;
                             bc_total_feedback := total_feedback status |}] |} in
                  (self3,
                   Ok {| message := "Feedback received and system updated";
                         resp_analysis_id := analysis_id request;
                         updated_system_accuracy := system_accuracy status;
                         total_feedback_count := total_feedback status |})
              end
          end
      end
  end.

(** What the client gets when the handler fails: the only [except]
    clause turns every exception [e] of the body, the two 404s included,
    into [HTTPException(status_code=500, detail=str(e))]; [cause] is that
    [e]. *)
Inductive HandlerError : Type :=
| Http500 (cause : Exception).

(** [provide_feedback] *)
Definition provide_feedback (self : Server F) (request : FeedbackRequest)
    (now : Z) : Server F * outcome HandlerError FeedbackResponse :=
  match feedback_body self request now with
  | (self', Ok response) => (self', Ok response)
  | (self', Raise e) => (self', Raise (Http500 e))
  end.

End Handler.

End Api.

(** ** The federated system, from the specification *)

Module Federated.

(** Modelled from the spec: the specialty tag of a helper, of the module
    [federated_ai_system] that the server imports and that is not among
    the sources (section 3, Helper). *)
Inductive Specialty : Type :=
| transit
| radial_velocity
| imaging
| general.

(** Modelled from the spec: an entry [{predicted, correct, timestamp}] of
    a helper's performance history (section 3, Helper). *)
Record Performance : Type := {
  predicted : Q;
  correct : bool;
  performance_timestamp : Z
}.

(** Modelled from the spec: a Helper,
    [{id, specialty, reliability_weight, performance_history}]
    (section 3). *)
Record Helper : Type := {
  helper_ident : string;
  specialty : Specialty;
  reliability_weight : Q;
  performance_history : list Performance
}.

(** Modelled from the spec: a HelperResult,
    [{helper_id, prediction, explanation}] (section 3). *)
Record HelperResult : Type := {
  helper_id : string;
  prediction : Q;
  explanation : string
}.

(** Modelled from the spec: the optional [feedback] of an AnalysisRecord,
    [{is_correct, ground_truth, timestamp}] (section 3). *)
Record RecordedFeedback : Type := {
  is_correct : bool;
  ground_truth : option bool;
  feedback_timestamp : Z
}.

(** Modelled from the spec: the [aggregated] part of an AnalysisRecord
    (section 3). *)
Record Aggregated : Type := {
  aggregated_prediction : Q;
  confidence : Q;
  consensus_strength : Q;
  primary_explanation : string
}.

(** Modelled from the spec: an AnalysisRecord (section 3).  [input] is
    the candidate's feature mapping, in which the server looks up
    ['star_id']. *)
Record AnalysisRecord : Type := {
  record_ident : string;
  input : gmap string string;
  timestamp : Z;
  results : list HelperResult;
  helper_weights_snapshot : list (string * Q);
  aggregated : Aggregated;
  feedback : option RecordedFeedback
}.

(** Modelled from the spec: the state of the missing [FederatedAISystem]:
    the helpers of the registry, the analysis history (oldest first), the
    configured learning rate (section 4.4) and the clock the system reads
    for its timestamps. *)
Record System : Type := {
  helpers : list Helper;
  records : list AnalysisRecord;
  learning_rate : Q;
  clock : Z
}.

(** Modelled from the spec: steps 2 and 3 of [apply_feedback] (section
    4.4) for one helper: a helper that contributed a result to the record
    gets the weight of the gradient rule and one more entry in its
    performance history; any other helper is left as it is. *)
Definition update_helper (record : AnalysisRecord) (is_correct : bool)
    (eta : Q) (now : Z) (helper : Helper) : Helper :=
  match List.find
          (fun r => bool_decide (helper_id r = helper_ident helper))
          (results record) with
  | None => helper
  | Some r =>
      {| helper_ident := helper_ident helper;
         specialty := specialty helper;
         reliability_weight :=
           Spec.new_weight (reliability_weight helper) (prediction r)
             is_correct eta;
         performance_history :=
           performance_history helper ++
           [{| predicted := prediction r;
               correct := is_correct;
               performance_timestamp := now |}] |}
  end.

(** Modelled from the spec: [apply_feedback] (section 4.4), standing for
    the missing [FederatedAISystem.provide_human_feedback].  The server
    names the record by its position in the history.  The call fails with
    [UnknownAnalysisError] when there is no such record and with
    [FeedbackAlreadyAppliedError] when the record's feedback is already
    set, in both cases leaving the system as it is; otherwise it updates
    the helpers of the record and records the feedback. *)
Definition apply_feedback (system : System) (analysis_index : nat)
    (is_correct : bool) (ground_truth : option bool)
    : System * option Api.Exception :=
  match records system !! analysis_index with
  | None => (system, Some (Api.FederatedError "UnknownAnalysisError"))
  | Some record =>
      match feedback record with
      | Some _ =>
          (system, Some (Api.FederatedError "FeedbackAlreadyAppliedError"))
      | None =>
          ({| helpers :=
                map (update_helper record is_correct (learning_rate system)
                       (clock system))
                    (helpers system);
              records :=
                <[analysis_index :=
                    {| record_ident := record_ident record;
                       input := input record;
                       timestamp := timestamp record;
                       results := results record;
                       helper_weights_snapshot :=
                         helper_weights_snapshot record;
                       aggregated := aggregated record;
                       feedback :=
                         Some {| is_correct := is_correct;
                                 ground_truth := ground_truth;
                                 feedback_timestamp := clock system |} |}]>
                  (records system);
              learning_rate := learning_rate system;
              clock := clock system |},
           None)
      end
  end.

(** Modelled from the spec: whether a record carries a feedback, and
    whether it carries one that says correct (section 4.5). *)
Definition has_feedback (record : AnalysisRecord) : bool :=
  match feedback record with
  | Some _ => true
  | None => false
  end.

Definition judged_correct (record : AnalysisRecord) : bool :=
  match feedback record with
  | Some given => is_correct given
  | None => false
  end.

(** Modelled from the spec: the two entries of the status the server
    reads (section 4.5): [total_feedback] counts the records with a
    feedback, and [system_accuracy] is the share of them judged correct,
    reported as 0 when there is no feedback. *)
Definition get_status (system : System) : Api.SystemStatus :=
  let total := length (List.filter has_feedback (records system)) in
  let right := length (List.filter judged_correct (records system)) in
  {| Api.system_accuracy :=
       if Nat.eqb total 0 then 0
       else inject_Z (Z.of_nat right) / inject_Z (Z.of_nat total);
     Api.total_feedback := total |}.

(** Modelled from the spec: what the server reads of one entry of
    [aggregation_history]: the star id among the candidate's features and
    the timestamp of the record. *)
Definition history_entry (record : AnalysisRecord) : Api.AggregationEntry :=
  {| Api.input_star_id := input record !! "star_id"%string;
     Api.entry_timestamp := timestamp record |}.

(** Modelled from the spec: the missing [FederatedAISystem] as the
    server uses it. *)
#[global] Instance spec_system : Api.FederatedAISystem System := {|
  Api.aggregation_history system := map history_entry (records system);
  Api.provide_human_feedback := apply_feedback;
  Api.get_system_status system := Ok (get_status system)
|}.

(** A run of the server: two helpers; an analysis of Kepler-442 stored as
    [a-1] and one of Kepler-22 stored as [a-2], each a fraction of a
    second after the record of the federated system; [a-2] already has a
    feedback. *)
Definition kepler_442_record : AnalysisRecord :=
  {| record_ident := "r-1";
     input := {[ "star_id"%string := "Kepler-442"%string ]};
     timestamp := 5000000;
     results :=
       [{| helper_id := "A"; prediction := 0.9; explanation := "transit" |};
        {| helper_id := "B"; prediction := 0.4; explanation := "general" |}];
     helper_weights_snapshot := [("A"%string, 1.0); ("B"%string, 1.0)];
     aggregated :=
       {| aggregated_prediction := 0.65; confidence := 0.875;
          consensus_strength := 0.5; primary_explanation := "transit" |};
     feedback := None |}.

Definition kepler_22_record : AnalysisRecord :=
  {| record_ident := "r-2";
     input := {[ "star_id"%string := "Kepler-22"%string ]};
     timestamp := 7000000;
     results :=
       [{| helper_id := "A"; prediction := 0.2; explanation := "transit" |};
        {| helper_id := "B"; prediction := 0.3; explanation := "general" |}];
     helper_weights_snapshot := [("A"%string, 1.0); ("B"%string, 1.0)];
     aggregated :=
       {| aggregated_prediction := 0.25; confidence := 0.995;
          consensus_strength := 0.9; primary_explanation := "transit" |};
     feedback :=
       Some {| is_correct := false; ground_truth := Some false;
               feedback_timestamp := 8000000 |} |}.

Definition two_analyses : Api.Server System :=
  {| Api.federated_system :=
       {| helpers :=
            [{| helper_ident := "A"; specialty := transit;
                reliability_weight := 1.0; performance_history := [] |};
             {| helper_ident := "B"; specialty := general;
                reliability_weight := 1.0; performance_history := [] |}];
          records := [kepler_442_record; kepler_22_record];
          learning_rate := 0.1;
          clock := 9000000 |};
     Api.analysis_history :=
       <["a-2"%string :=
           {| Api.request_star_id := Some "Kepler-22"%string;
              Api.timestamp := 7000100;
              Api.feedback :=
                Some {| Api.fb_is_correct := false;
                        Api.fb_ground_truth := Some false;
                        Api.fb_user_notes := None;
                        Api.fb_timestamp := 8000000 |} |}]>
         {[ "a-1"%string :=
              {| Api.request_star_id := Some "Kepler-442"%string;
                 Api.timestamp := 5000250;
                 Api.feedback := None |} ]};
     Api.broadcasts := [] |}.

(** A feedback request confirming [a-1]. *)
Definition confirm_a1 : Api.FeedbackRequest :=
  {| Api.analysis_id := "a-1";
     Api.is_correct := true;
     Api.ground_truth := Some true;
     Api.user_notes := None |}.

End Federated.

(** ** [keplers_third_law], over the reals *)

Module Orbit.

Local Open Scope R_scope.

(** The entries of [CONSTANTS] the function reads. *)
Definition G : R := 6.67430e-11.
Definition AU : R := 1.495978707e11.
Definition M_sun : R := 1.989e30.
Definition M_earth : R := 5.972e24.

(** How a call can fail to give a real number: a Python exception, or a
    value that is not a real (the NaN of [np.sqrt] on a negative number,
    the complex power of a negative base). *)
Inductive failure : Type :=
| Raised (e : exn)
| NotReal.

Abbreviation partial := (outcome failure).

Definition float_div (a b : R) : partial R :=
  if Req_dec_T b 0 then Raise (Raised ZeroDivisionError) else Ok (a / b).

(** [x ** y] for a float base and a positive non-integer exponent. *)
Definition float_pow (x y : R) : partial R :=
  if Rlt_dec 0 x then Ok (Rpower x y)
  else if Req_dec_T x 0 then Ok 0
  else Raise NotReal.

Definition np_sqrt (x : R) : partial R :=
  if Rle_dec 0 x then Ok (sqrt x) else Raise NotReal.

Inductive calculation : Type :=
| period_to_distance
| distance_to_period.

Record Kepler : Type := {
  orbital_period_days : R;
  orbital_period_years : option R;
  orbital_distance_au : R;
  orbital_distance_m : R;
  stellar_mass_solar : R;
  planet_mass_earth : R;
  total_mass_kg : R;
  calculation_type : calculation
}.

Definition keplers_third_law (stellar_mass planet_mass : R)
    (orbital_period orbital_distance : option R) : partial Kepler :=
  let M_s := stellar_mass * M_sun in
  let M_p := if Req_dec_T planet_mass 0 then 0 else planet_mass * M_earth in
  let total_mass := M_s + M_p in
  match orbital_period, orbital_distance with
  | Some orbital_period, _ =>
      let P_sec := orbital_period * 24 * 3600 in
      let* q := float_div (G * total_mass * P_sec ^ 2) (4 * PI ^ 2) in
      let* third := float_div 1 3 in
      let* a_m := float_pow q third in
      let* a_au := float_div a_m AU in
      Ok {| orbital_period_days := orbital_period;
            orbital_period_years := None;
            orbital_distance_au := a_au;
            orbital_distance_m := a_m;
            stellar_mass_solar := stellar_mass;
            planet_mass_earth := planet_mass;
            total_mass_kg := total_mass;
            calculation_type := period_to_distance |}
  | None, Some orbital_distance =>
      let a_m := orbital_distance * AU in
      let* q := float_div (4 * PI ^ 2 * a_m ^ 3) (G * total_mass) in
      let* P_sec := np_sqrt q in
      let* P_days := float_div P_sec (24 * 3600) in
      let* P_years := float_div P_days 365.25 in
      Ok {| orbital_period_days := P_days;
            orbital_period_years := Some P_years;
            orbital_distance_au := orbital_distance;
            orbital_distance_m := a_m;
            stellar_mass_solar := stellar_mass;
            planet_mass_earth := planet_mass;
            total_mass_kg := total_mass;
            calculation_type := distance_to_period |}
  | None, None =>
      Raise (Raised (ValueError "Must provide either orbital_period or orbital_distance"))
  end.

End Orbit.

(** ** Named parts used by the further properties *)

(** The product of the gradient and the fixed step of
    [feedback_based_knowledge_weight], for either flag. *)
Definition signed_step (p : Q) (c : bool) : Q :=
  let h := if c then 1.0 else 0.0 in
  (- h / clipped p + (1 - h) / (1 - clipped p))
  * (if c then 0.01 else - 0.01).

(** The first entry of largest contribution, scanning from the left:
    what a stable descending sort puts in front. *)
Fixpoint first_largest (l : list WeightedExplanation)
    : option WeightedExplanation :=
  match l with
  | [] => None
  | x :: l' =>
      match first_largest l' with
      | None => Some x
      | Some y => if Py.ltb (contribution x) (contribution y)
                  then Some y else Some x
      end
  end.

(** [b] does not rank above [a]: the order of the sorted explanations. *)
Definition ranked (a b : WeightedExplanation) : Prop :=
  contribution b <= contribution a.

(** ** The other formulas of [CompleteScientificCalculator], over the reals *)

Module Physics.

Import Orbit.
Local Open Scope R_scope.

(** The further entries of [CONSTANTS]. *)
Definition c : R := 2.99792458e8.
Definition sigma : R := 5.670374419e-8.
Definition R_sun : R := 6.96e8.
Definition R_earth : R := 6.371e6.
Definition L_sun : R := 3.828e26.

(** Division whose dividend is a NumPy scalar: a zero divisor gives an
    infinity or a NaN (with a warning), not an exception. *)
Definition np_div (a b : R) : partial R :=
  if Req_dec_T b 0 then Raise NotReal else Ok (a / b).

(** [np.radians] *)
Definition np_radians (degrees : R) : R := degrees * (PI / 180).

(** *** [radial_velocity_doppler_shift] *)

Record DopplerShift : Type := {
  radial_velocity_ms : R;
  wavelength_shift_ratio : R;
  wavelength_shift_m : R;
  wavelength_shift_nm : R;
  rest_wavelength_nm : R;
  observed_wavelength_nm : R
}.

Definition radial_velocity_doppler_shift (radial_velocity rest_wavelength : R)
    : partial DopplerShift :=
  let* wavelength_shift_ratio := float_div radial_velocity c in
  let wavelength_shift := wavelength_shift_ratio * rest_wavelength in
  let observed_wavelength := rest_wavelength + wavelength_shift in
  Ok {| radial_velocity_ms := radial_velocity;
        wavelength_shift_ratio := wavelength_shift_ratio;
        wavelength_shift_m := wavelength_shift;
        wavelength_shift_nm := wavelength_shift * 1e9;
        rest_wavelength_nm := rest_wavelength * 1e9;
        observed_wavelength_nm := observed_wavelength * 1e9 |}.

(** *** [radial_velocity_amplitude_calculation] *)

Record RadialVelocityAmplitude : Type := {
  rv_amplitude_ms : R;
  rv_amplitude_cms : R;
  rv_planet_mass_earth : R;
  rv_stellar_mass_solar : R;
  rv_orbital_period_days : R;
  inclination_deg : R;
  rv_eccentricity : R
}.

Definition radial_velocity_amplitude_calculation
    (planet_mass stellar_mass orbital_period inclination eccentricity : R)
    : partial RadialVelocityAmplitude :=
  let M_p := planet_mass * M_earth in
  let M_s := stellar_mass * M_sun in
  let P := orbital_period * 24 * 3600 in
  let i_rad := np_radians inclination in
  let* third := float_div 1 3 in
  let* q := float_div (2 * PI * G) P in
  let* term1 := float_pow q third in
  let* two_thirds := float_div 2 3 in
  let* d := float_pow (M_s + M_p) two_thirds in
  let* term2 := np_div (M_p * sin i_rad) d in
  let* term3 :=
    (if Rlt_dec eccentricity 1
     then let* s := np_sqrt (1 - eccentricity ^ 2) in np_div 1 s
     else Ok 1) in
  let K := term1 * term2 * term3 in
  Ok {| rv_amplitude_ms := K;
        rv_amplitude_cms := K * 100;
        rv_planet_mass_earth := planet_mass;
        rv_stellar_mass_solar := stellar_mass;
        rv_orbital_period_days := orbital_period;
        inclination_deg := inclination;
        rv_eccentricity := eccentricity |}.

(** *** [transit_method_depth] *)

Record TransitDepth : Type := {
  transit_depth_fraction : R;
  transit_depth_ppm : R;
  transit_depth_percent : R;
  radius_ratio : R;
  planet_radius_earth : R;
  stellar_radius_solar : R
}.

Definition transit_method_depth (planet_radius stellar_radius : R)
    : partial TransitDepth :=
  let R_p := planet_radius * R_earth in
  let R_s := stellar_radius * R_sun in
  let* radius_ratio := float_div R_p R_s in
  let transit_depth := radius_ratio ^ 2 in
  Ok {| transit_depth_fraction := transit_depth;
        transit_depth_ppm := transit_depth * 1e6;
        transit_depth_percent := transit_depth * 100;
        radius_ratio := radius_ratio;
        planet_radius_earth := planet_radius;
        stellar_radius_solar := stellar_radius |}.

(** *** [stefan_boltzmann_law] *)

Record StellarLuminosity : Type := {
  stellar_luminosity_watts : R;
  stellar_luminosity_solar : R;
  sl_stellar_radius_solar : R;
  stellar_radius_m : R;
  stellar_temperature_k : R;
  surface_area_m2 : R;
  stefan_boltzmann_constant : R
}.

Definition stefan_boltzmann_law (stellar_radius stellar_temperature : R)
    : partial StellarLuminosity :=
  let R_s := stellar_radius * R_sun in
  let luminosity_watts :=
    4 * PI * R_s ^ 2 * sigma * stellar_temperature ^ 4 in
  let* luminosity_solar := float_div luminosity_watts L_sun in
  let surface_area := 4 * PI * R_s ^ 2 in
  Ok {| stellar_luminosity_watts := luminosity_watts;
        stellar_luminosity_solar := luminosity_solar;
        sl_stellar_radius_solar := stellar_radius;
        stellar_radius_m := R_s;
        stellar_temperature_k := stellar_temperature;
        surface_area_m2 := surface_area;
        stefan_boltzmann_constant := sigma |}.

(** *** [habitable_zone_calculation] *)

Record HabitableZone : Type := {
  conservative_inner_au : R;
  conservative_outer_au : R;
  optimistic_inner_au : R;
  optimistic_outer_au : R;
  habitable_zone_width_au : R;
  hz_stellar_luminosity_solar : R
}.

Definition habitable_zone_calculation (stellar_luminosity : R)
    : partial HabitableZone :=
  let* s1 := np_sqrt stellar_luminosity in
  let inner_hz := 0.95 * s1 in
  let* s2 := np_sqrt stellar_luminosity in
  let outer_hz := 1.37 * s2 in
  let* s3 := np_sqrt stellar_luminosity in
  let inner_optimistic := 0.75 * s3 in
  let* s4 := np_sqrt stellar_luminosity in
  let outer_optimistic := 1.77 * s4 in
  Ok {| conservative_inner_au := inner_hz;
        conservative_outer_au := outer_hz;
        optimistic_inner_au := inner_optimistic;
        optimistic_outer_au := outer_optimistic;
        habitable_zone_width_au := outer_hz - inner_hz;
        hz_stellar_luminosity_solar := stellar_luminosity |}.

(** *** [equilibrium_temperature] *)

Record EquilibriumTemperature : Type := {
  equilibrium_temperature_k : R;
  equilibrium_temperature_c : R;
  stellar_flux_w_m2 : R;
  et_orbital_distance_au : R;
  et_stellar_luminosity_solar : R;
  albedo : R
}.

Definition equilibrium_temperature
    (stellar_luminosity orbital_distance albedo : R)
    : partial EquilibriumTemperature :=
  let L_star := stellar_luminosity * L_sun in
  let* flux := float_div L_star (4 * PI * (orbital_distance * AU) ^ 2) in
  let* q := float_div (flux * (1 - albedo)) (4 * sigma) in
  let* quarter := float_div 1 4 in
  let* T_eq := float_pow q quarter in
  let T_eq_celsius := T_eq - 273.15 in
  Ok {| equilibrium_temperature_k := T_eq;
        equilibrium_temperature_c := T_eq_celsius;
        stellar_flux_w_m2 := flux;
        et_orbital_distance_au := orbital_distance;
        et_stellar_luminosity_solar := stellar_luminosity;
        albedo := albedo |}.

(** *** The transit step of [complete_system_analysis]

    The entry [results['transit_analysis']] the function computes, if
    any: from the planet radius when it and the stellar radius are given,
    else from the transit depth; an exception leaves the step for the
    [except] clause of the function.  [given x] is the value of a
    parameter that passes the truth test (not [None], not zero). *)
Definition given (x : option R) : option R :=
  match x with
  | None => None
  | Some v => if Req_dec_T v 0 then None else Some v
  end.

Definition transit_analysis_step
    (planet_radius transit_depth : option R) (stellar_radius : R)
    : partial (option TransitDepth) :=
  match given planet_radius, given (Some stellar_radius) with
  | Some planet_radius, Some stellar_radius =>
      let* t := transit_method_depth planet_radius stellar_radius in
      Ok (Some t)
  | _, _ =>
      match given transit_depth, given (Some stellar_radius) with
      | Some transit_depth, Some stellar_radius =>
          let* radius_ratio := np_sqrt transit_depth in
          let* k := float_div R_sun R_earth in
          let planet_radius_earth := radius_ratio * stellar_radius * k in
          let* t := transit_method_depth planet_radius_earth stellar_radius in
          Ok (Some t)
      | _, _ => Ok None
      end
  end.

End Physics.

(** ** The other parts of [enhanced_api_server.py] *)

Module Endpoints.

Import Api.
Local Open Scope Q_scope.

(** *** [_classify_candidate] *)

Definition _classify_candidate (prediction confidence : Q) : string :=
  if Py.ltb 0.8 prediction && Py.ltb 0.7 confidence
  then "Strong Exoplanet Candidate"
  else if Py.ltb 0.6 prediction && Py.ltb 0.5 confidence
  then "Likely Exoplanet"
  else if Py.ltb 0.4 prediction
  then "Possible Exoplanet - Requires Validation"
  else if Py.ltb 0.2 prediction
  then "Weak Signal - Likely False Positive"
  else "Not an Exoplanet".

(** The five labels from the weakest to the strongest, to compare
    classifications. *)
Definition classification_rank (label : string) : nat :=
  if String.eqb label "Strong Exoplanet Candidate" then 4
  else if String.eqb label "Likely Exoplanet" then 3
  else if String.eqb label "Possible Exoplanet - Requires Validation" then 2
  else if String.eqb label "Weak Signal - Likely False Positive" then 1
  else 0.

(** *** The analysis history as the reporting endpoints read it *)

(** The entries of [data['result']] the server reads. *)
Record ResultSummary : Type := {
  prediction : Q;
  confidence : Q;
  consensus_strength : Q
}.

(** A value of [self.analysis_history] with its result. *)
Record HistoryItem : Type := {
  stored : StoredAnalysis;
  result : ResultSummary
}.

(** [list(self.analysis_history.items())]: the analyses in the order in
    which they were stored. *)
Abbreviation history := (list (string * HistoryItem)).

(** The slice [xs[start:]]: a negative [start] counts from the end, and
    an index outside the list is brought back to its nearest end. *)
Definition slice_from {A : Type} (start : Z) (xs : list A) : list A :=
  let n := Z.of_nat (length xs) in
  let first := if (start <? 0)%Z then Z.max (start + n) 0 else Z.min start n in
  skipn (Z.to_nat first) xs.

(** *** [_get_classification_counts] *)

Definition _get_classification_counts (items : history) : gmap string nat :=
  fold_left
    (fun classifications analysis =>
       let pred := prediction (result analysis) in
       let conf := confidence (result analysis) in
       let classification := _classify_candidate pred conf in
       <[classification := (default 0 (classifications !! classification) + 1)%nat]>
         classifications)
    (map snd items) ∅.

(** *** [get_recent_analyses] *)

Record RecentAnalysis : Type := {
  ra_analysis_id : string;
  ra_star_id : option string;
  ra_prediction : Q;
  ra_confidence : Q;
  ra_timestamp : string;
  has_feedback : bool
}.

Section Reports.

(** [datetime.isoformat] *)
Variable isoformat : Z -> string.

Definition get_recent_analyses (limit : Z) (items : history)
    : list RecentAnalysis :=
  map (fun '(analysis_id, data) =>
         {| ra_analysis_id := analysis_id;
            ra_star_id := request_star_id (stored data);
            ra_prediction := prediction (result data);
            ra_confidence := confidence (result data);
            ra_timestamp := isoformat (timestamp (stored data));
            has_feedback :=
              match feedback (stored data) with
              | Some _ => true
              | None => false
              end |})
      (slice_from (- limit) items).

(** *** [_generate_system_overview] *)

Record SystemOverview : Type := {
  so_type : string;
  total_analyses : nat;
  predictions_values : list Q;
  predictions_bins : nat;
  confidence_values : list Q;
  confidence_bins : nat;
  consensus_values : list Q;
  consensus_timestamps : list string;
  classification_counts : gmap string nat
}.

Definition _generate_system_overview {Parameters : Type}
    (parameters : Parameters) (items : history) : SystemOverview :=
  let analyses := slice_from (-100) (map snd items) in
  {| so_type := "system_overview";
     total_analyses := length items;
     predictions_values := map (fun a => prediction (result a)) analyses;
     predictions_bins := 20;
     confidence_values := map (fun a => confidence (result a)) analyses;
     confidence_bins := 20;
     consensus_values := map (fun a => consensus_strength (result a)) analyses;
     consensus_timestamps :=
       map (fun a => isoformat (timestamp (stored a))) analyses;
     classification_counts := _get_classification_counts items |}.

End Reports.

(** *** [ConnectionManager] *)

Section ConnectionManager.

Context {WebSocket : Type} `{EqDecision WebSocket}.

(** [list.remove(x)] on a list that holds [x]: the first element equal
    to [x] goes. *)
Fixpoint list_remove (x : WebSocket) (l : list WebSocket) : list WebSocket :=
  match l with
  | [] => []
  | y :: l' => if decide (x = y) then l' else y :: list_remove x l'
  end.

(** [connect], once [websocket.accept()] has returned. *)
Definition connect (websocket : WebSocket) (active_connections : list WebSocket)
    : list WebSocket :=
  active_connections ++ [websocket].

Definition disconnect (websocket : WebSocket)
    (active_connections : list WebSocket) : list WebSocket :=
  if decide (websocket ∈ active_connections)
  then list_remove websocket active_connections
  else active_connections.

(** [broadcast]: the [for] loop walks [self.active_connections] by
    position while [disconnect] shortens that same list.  [i] is the
    position of the iterator, [sent] the connections that received the
    message so far; [send_text] succeeds on the connections [alive]
    accepts.  The loop is run with no other handler scheduled between two
    sends.  [fuel] bounds the number of iterations. *)
Fixpoint broadcast_loop (alive : WebSocket -> bool) (fuel i : nat)
    (active_connections sent : list WebSocket)
    : option (list WebSocket * list WebSocket) :=
  match fuel with
  | O => None
  | S fuel' =>
      match nth_error active_connections i with
      | None => Some (active_connections, sent)
      | Some connection =>
          if alive connection
          then broadcast_loop alive fuel' (S i) active_connections
                 (sent ++ [connection])
          else broadcast_loop alive fuel' (S i)
                 (disconnect connection active_connections) sent
      end
  end.

Definition broadcast (alive : WebSocket -> bool)
    (active_connections : list WebSocket)
    : option (list WebSocket * list WebSocket) :=
  broadcast_loop alive (S (length active_connections)) 0 active_connections [].

(** What a broadcast over distinct connections comes to, read from the
    head of the list: a connection that accepts the message keeps its
    place and receives it; one that fails is dropped, and the connection
    after it is passed over (it keeps its place and receives nothing).
    The result is the connections left and those that received the
    message. *)
Fixpoint broadcast_effect (alive : WebSocket -> bool) (l : list WebSocket)
    : list WebSocket * list WebSocket :=
  match l with
  | [] => ([], [])
  | x :: r =>
      if alive x
      then (x :: fst (broadcast_effect alive r),
            x :: snd (broadcast_effect alive r))
      else match r with
           | [] => ([], [])
           | y :: r' =>
               (y :: fst (broadcast_effect alive r'),
                snd (broadcast_effect alive r'))
           end
  end.

(** Every second element of a list, starting with the second. *)
Fixpoint every_second (l : list WebSocket) : list WebSocket :=
  match l with
  | _ :: y :: l' => y :: every_second l'
  | _ => []
  end.

End ConnectionManager.

End Endpoints.

(** The number of analyses of a history that [_classify_candidate] gives
    the label [label]. *)
Definition classified_as (label : string) (items : Endpoints.history) : nat :=
  length
    (List.filter
       (fun item =>
          String.eqb
            (Endpoints._classify_candidate
               (Endpoints.prediction (Endpoints.result (snd item)))
               (Endpoints.confidence (Endpoints.result (snd item))))
            label)
       items).

(** One iteration of the loop of [_get_classification_counts]. *)
Definition count_step (classifications : gmap string nat)
    (analysis : Endpoints.HistoryItem) : gmap string nat :=
  let classification :=
    Endpoints._classify_candidate
      (Endpoints.prediction (Endpoints.result analysis))
      (Endpoints.confidence (Endpoints.result analysis)) in
  <[classification := (default 0 (classifications !! classification) + 1)%nat]>
    classifications.

(** The test of the search loop of [provide_feedback], by name. *)
Definition entry_matches (stored : Api.StoredAnalysis)
    (analysis : Api.AggregationEntry) : bool :=
  bool_decide (Api.input_star_id analysis = Api.request_star_id stored)
  && Api.within_a_minute (Api.entry_timestamp analysis) (Api.timestamp stored).

(** * Proofs *)

(** ** The functions on the inputs of the demonstration scripts *)

(** Two helpers of weight 1.0 predicting 0.8 and 0.4: the aggregated
    prediction is 0.6 and the confidence [1 - 2·0.04 = 0.92]. *)
Example two_helpers_scenario :
  exists r,
    aggregate_prediction [0.8; 0.4]%Q [1.0; 1.0]%Q = Ok r /\
    (aggregated_prediction r == 0.6)%Q /\
    (confidence r == 0.92)%Q.
Proof.
  eexists. split; [vm_compute; reflexivity|]. split; reflexivity.
Qed.

(** [feedback_based_knowledge_weight(1.2, 0.85, True, 0.1)]: the gradient
    is [-1/0.85] and the weight grows by [0.1 · (1/0.85) · 0.01]. *)
Example demo_feedback_weight :
  exists r,
    feedback_based_knowledge_weight 1.2 0.85 true 0.1 = Ok r /\
    (loss_gradient r == - (100 # 85))%Q /\
    (weight_change r == 1 # 850)%Q.
Proof.
  eexists. split; [vm_compute; reflexivity|]. split; reflexivity.
Qed.

(** The four explanations of the demonstration, with weights 1.2, 1.0,
    0.9 and 1.1: the first one has the largest share and is the primary
    explanation; the ranking is helper 1, 4, 2, 3. *)
Example demo_primary_explanation :
  exists r,
    explanation_aggregation
      ["Strong transit signal with consistent depth";
       "Orbital mechanics support planetary hypothesis";
       "Stellar parameters indicate main-sequence host";
       "Statistical significance above 5-sigma threshold"]%string
      [1.2; 1.0; 0.9; 1.1]%Q = Ok r /\
    primary_explanation r = "Strong transit signal with consistent depth"%string /\
    map helper_id (aggregated_explanations r)
      = ["helper_1"; "helper_4"; "helper_2"; "helper_3"]%string.
Proof.
  eexists. split; [vm_compute; reflexivity|]. split; reflexivity.
Qed.

(** Equal weights keep the order of the helpers: the sort is stable. *)
Example equal_weights_keep_order :
  exists r,
    explanation_aggregation ["a"; "b"; "c"]%string [1.0; 1.2; 1.2]%Q = Ok r /\
    map helper_id (aggregated_explanations r)
      = ["helper_2"; "helper_3"; "helper_1"]%string.
Proof.
  eexists. split; [vm_compute; reflexivity|]. reflexivity.
Qed.

(** No helper at all: the prediction call still answers (0.5, confidence
    0), the explanation call fails on its first entry. *)
Example no_helpers :
  explanation_aggregation [] [] = Raise IndexError /\
  exists r,
    aggregate_prediction [] [] = Ok r /\
    aggregated_prediction r = 0.5%Q /\
    prediction_variance r = None /\
    (confidence r == 0)%Q.
Proof.
  split; [reflexivity|].
  eexists. split; [vm_compute; reflexivity|]. repeat split; reflexivity.
Qed.

(** ** Comparisons, [max] and [min] *)

Section PyFacts.

Local Open Scope Q_scope.

Lemma ltb_lt (a b : Q) : Py.ltb a b = true <-> a < b.
Proof.
  unfold Py.ltb. rewrite negb_true_iff.
  destruct (Qle_bool b a) eqn:E.
  - apply Qle_bool_iff in E. split; [discriminate | intros Hlt; exfalso; Lqa.lra].
  - split; [intros _ | reflexivity].
    apply Qnot_le_lt. intros Hle. apply Qle_bool_iff in Hle. congruence.
Qed.

Lemma ltb_ge (a b : Q) : Py.ltb a b = false <-> b <= a.
Proof.
  unfold Py.ltb. rewrite negb_false_iff. apply Qle_bool_iff.
Qed.

Lemma ltb_cases (a b : Q) :
  (Py.ltb a b = true /\ a < b) \/ (Py.ltb a b = false /\ b <= a).
Proof.
  destruct (Py.ltb a b) eqn:E; [left | right]; split; trivial.
  - now apply ltb_lt.
  - now apply ltb_ge.
Qed.

End PyFacts.

Ltac py_compare a b :=
  let E := fresh "E" in
  let C := fresh "C" in
  destruct (ltb_cases a b) as [[E C] | [E C]]; rewrite E.

Section Clamping.

Local Open Scope Q_scope.

(** The nested [max(lo, min(hi, x))] of the code is the specification's
    [clamp], up to the representation of the rational. *)
Lemma max_min_clamp (lo hi x x' : Q) :
  lo <= hi -> x == x' -> Py.max lo (Py.min hi x) == Spec.clamp x' lo hi.
Proof.
  intros Hlh Hx. unfold Py.max, Py.min, Spec.clamp.
  destruct (Qlt_le_dec x' lo), (Qlt_le_dec hi x');
    py_compare x hi; try (py_compare lo x); try (py_compare lo hi);
    Lqa.lra.
Qed.

Lemma max_min_bounds (lo hi x : Q) :
  lo <= hi -> lo <= Py.max lo (Py.min hi x) <= hi.
Proof.
  intros Hlh. unfold Py.max, Py.min.
  py_compare x hi; [py_compare lo x | py_compare lo hi]; Lqa.lra.
Qed.

Lemma py_div_ok (a b : Q) : ~ b == 0 -> py_div a b = Ok (a / b).
Proof.
  intros Hb. unfold py_div.
  destruct (Qeq_bool b 0) eqn:E; [|reflexivity].
  apply Qeq_bool_iff in E. contradiction.
Qed.

Lemma py_div_zero (a b : Q) : b == 0 -> py_div a b = Raise ZeroDivisionError.
Proof.
  intros Hb. unfold py_div. apply Qeq_bool_iff in Hb. now rewrite Hb.
Qed.

End Clamping.

(** ** The feedback weight rule *)

Section FeedbackWeightFacts.

Local Open Scope Q_scope.

Lemma clipped_bounds (p : Q) : 0.001 <= clipped p <= 0.999.
Proof. apply max_min_bounds. Lqa.lra. Qed.

(** Neither division of the gradient can raise, and the function returns
    the dictionary below. *)
Lemma feedback_weight_returns (w p : Q) (c : bool) (eta : Q) :
  let h := if c then 1.0 else 0.0 in
  let g := - h / clipped p + (1 - h) / (1 - clipped p) in
  let new_weight :=
    Py.max 0.1 (Py.min 2.0 (w - eta * g * (if c then 0.01 else - 0.01))) in
  feedback_based_knowledge_weight w p c eta =
  Ok {| original_weight := w;
        updated_weight := new_weight;
        weight_change := new_weight - w;
        fw_prediction := p;
        fw_human_feedback := c;
        loss_gradient := g;
        fw_learning_rate := eta |}.
Proof.
  intros h g new_weight.
  unfold feedback_based_knowledge_weight. fold (clipped p). fold h.
  pose proof (clipped_bounds p) as [Hlo Hhi].
  rewrite (py_div_ok (- h) (clipped p)) by Lqa.lra.
  rewrite (py_div_ok (1 - h) (1 - clipped p)) by Lqa.lra.
  reflexivity.
Qed.

End FeedbackWeightFacts.

(** C2.  For every current weight, recorded prediction, correctness flag
    and learning rate, the feedback rule returns, and the updated weight
    is [clamp(w - η·g·(0.01 if is_correct else -0.01), 0.1, 2.0)] with
    [g = -h/P + (1-h)/(1-P)], [h = 1.0 if is_correct else 0.0] and
    [P = clamp(p, 0.001, 0.999)]. *)
Theorem feedback_weight_formula (w p : Q) (is_correct : bool) (eta : Q) :
  exists r,
    feedback_based_knowledge_weight w p is_correct eta = Ok r /\
    (updated_weight r == Spec.new_weight w p is_correct eta)%Q /\
    (loss_gradient r ==
       Spec.gradient (if is_correct then 1.0 else 0.0)
                     (Spec.clamp p 0.001 0.999))%Q.
Proof.
  eexists. split; [apply feedback_weight_returns|]. cbn.
  assert (HP : (clipped p == Spec.clamp p 0.001 0.999)%Q).
  { apply max_min_clamp; [Lqa.lra | reflexivity]. }
  assert (Hg : (- (if is_correct then 1.0 else 0.0) / clipped p
                + (1 - (if is_correct then 1.0 else 0.0)) / (1 - clipped p)
                == Spec.gradient (if is_correct then 1.0 else 0.0)
                     (Spec.clamp p 0.001 0.999))%Q).
  { unfold Spec.gradient. rewrite HP. reflexivity. }
  split; [|exact Hg].
  unfold Spec.new_weight. apply max_min_clamp; [Lqa.lra|].
  unfold Spec.gradient in *. rewrite Hg. reflexivity.
Qed.

(** C4.  Whatever the current weight (inside [0.1, 2.0] or not), the
    prediction, the correctness flag and the learning rate, the feedback
    rule returns an updated weight within [0.1, 2.0]. *)
Theorem updated_weight_in_range (w p : Q) (is_correct : bool) (eta : Q) :
  exists r,
    feedback_based_knowledge_weight w p is_correct eta = Ok r /\
    (0.1 <= updated_weight r <= 2.0)%Q.
Proof.
  eexists. split; [apply feedback_weight_returns|]. cbn.
  apply max_min_bounds. Lqa.lra.
Qed.

(** C8, as the code has it.  After a correct feedback on a recorded
    prediction of 0.9, with a positive learning rate and a current weight
    in [0.1, 2.0]: the gradient is negative, the adjustment is not
    positive, and the updated weight is at least the current one (and at
    most 2.0). *)
Theorem correct_feedback_never_lowers_weight (w eta : Q) :
  (0 < eta)%Q -> (0.1 <= w <= 2.0)%Q ->
  exists r,
    feedback_based_knowledge_weight w 0.9 true eta = Ok r /\
    (loss_gradient r < 0)%Q /\
    (eta * loss_gradient r * 0.01 <= 0)%Q /\
    (w <= updated_weight r <= 2.0)%Q /\
    (0 <= weight_change r)%Q.
Proof.
  intros Heta [Hlo Hhi].
  eexists. split; [apply feedback_weight_returns|]. cbn.
  change (clipped 0.9) with 0.9%Q.
  remember (- (1.0) / 0.9 + (1 - 1.0) / (1 - 0.9))%Q as g eqn:Eg.
  assert (Hg : (g == - (10 # 9))%Q) by (subst g; reflexivity).
  clear Eg.
  split; [rewrite Hg; reflexivity|].
  split; [rewrite Hg; Lqa.lra|].
  assert (Hadj : (w - eta * g * 0.01 == w + eta * (1 # 90))%Q).
  { rewrite Hg. field. }
  unfold Py.max, Py.min.
  py_compare (w - eta * g * 0.01)%Q 2.0%Q.
  - py_compare 0.1%Q (w - eta * g * 0.01)%Q; repeat split; Lqa.lra.
  - py_compare 0.1%Q 2.0%Q; repeat split; Lqa.lra.
Qed.

Lemma correct_feedback_never_lowers_weight_witness :
  exists r,
    feedback_based_knowledge_weight 1.0 0.9 true 0.1 = Ok r /\
    (loss_gradient r < 0)%Q /\
    (0.1 * loss_gradient r * 0.01 <= 0)%Q /\
    (1.0 <= updated_weight r <= 2.0)%Q /\
    (0 <= weight_change r)%Q.
Proof.
  apply (correct_feedback_never_lowers_weight 1.0 0.1).
  - reflexivity.
  - split; discriminate.
Defined.

(** C8, as stated, fails on binary64 floats: with the current weight 1.0
    (below 2.0), the prediction 0.9, a correct feedback and the positive
    learning rate 1e-20, the adjustment is about -1.1e-22, the
    subtraction [1.0 - adjustment] rounds back to 1.0, and the updated
    weight is the current weight, not strictly greater.  With the
    smallest positive learning rate, 5e-324, the adjustment itself
    underflows to [-0.0], which is not negative. *)
Lemma tiny_learning_rate_is_absorbed :
  (exists r,
     F64.feedback_based_knowledge_weight 1.0 0.9 true 1e-20 = Ok r /\
     PrimFloat.ltb 0 1e-20 = true /\
     PrimFloat.ltb 1.0 2.0 = true /\
     F64.loss_gradient r = (-1.1111111111111112)%float /\
     F64.updated_weight r = 1.0%float /\
     PrimFloat.ltb 1.0 (F64.updated_weight r) = false)
  /\
  (exists r,
     F64.feedback_based_knowledge_weight 1.0 0.9 true 5e-324 = Ok r /\
     PrimFloat.ltb 0 5e-324 = true /\
     PrimFloat.ltb (5e-324 * F64.loss_gradient r * 0.01)%float 0 = false /\
     F64.updated_weight r = 1.0%float).
Proof.
  split; (eexists; split; [vm_compute; reflexivity|]; cbn;
          repeat split; reflexivity).
Qed.

(** In exact arithmetic no step is absorbed: after a correct feedback on
    a prediction of 0.9 the weight moves by [η/90] before clamping, and
    strictly increases when it is below 2.0. *)
Lemma correct_feedback_raises_weight (w eta : Q) :
  (0 < eta)%Q -> (0.1 <= w <= 2.0)%Q ->
  exists r,
    feedback_based_knowledge_weight w 0.9 true eta = Ok r /\
    (loss_gradient r == - (1 / 0.9))%Q /\
    (updated_weight r ==
       Spec.clamp (w - eta * loss_gradient r * 0.01) 0.1 2.0)%Q /\
    ((w < 2.0)%Q -> (w < updated_weight r)%Q).
Proof.
  intros Heta [Hlo Hhi].
  eexists. split; [apply feedback_weight_returns|]. cbn.
  change (clipped 0.9) with 0.9%Q.
  remember (- (1.0) / 0.9 + (1 - 1.0) / (1 - 0.9))%Q as g eqn:Eg.
  assert (Hg : (g == - (10 # 9))%Q) by (subst g; reflexivity).
  clear Eg.
  split; [rewrite Hg; reflexivity|].
  split; [apply max_min_clamp; [Lqa.lra | reflexivity]|].
  assert (Hadj : (w - eta * g * 0.01 == w + eta * (1 # 90))%Q).
  { rewrite Hg. field. }
  unfold Py.max, Py.min.
  py_compare (w - eta * g * 0.01)%Q 2.0%Q.
  - py_compare 0.1%Q (w - eta * g * 0.01)%Q; intros; Lqa.lra.
  - py_compare 0.1%Q 2.0%Q; intros; Lqa.lra.
Qed.

(** ** Sums *)

Section Sums.

Local Open Scope Q_scope.

Lemma fold_left_plus (xs : list Q) (a : Q) :
  fold_left Qplus xs a == a + Spec.Sigma xs.
Proof.
  revert a. induction xs as [|x xs IH]; intros a; simpl.
  - ring.
  - rewrite IH. ring.
Qed.

(** The left-to-right [sum] of the code is the specification's [Σ]. *)
Lemma sum_Sigma (xs : list Q) : Py.sum xs == Spec.Sigma xs.
Proof. unfold Py.sum. rewrite fold_left_plus. ring. Qed.

Lemma weighted_sum_dot (ps ws : list Q) :
  Py.sum (map (fun pw => fst pw * snd pw) (Py.zip ps ws)) == Spec.dot ws ps.
Proof.
  rewrite sum_Sigma. revert ws.
  induction ps as [|p ps IH]; intros [|w ws]; simpl; try reflexivity.
  rewrite IH. ring.
Qed.

Lemma Sigma_map_ext (f g : Q -> Q) (xs : list Q) :
  (forall x, f x == g x) -> Spec.Sigma (map f xs) == Spec.Sigma (map g xs).
Proof.
  intros Hfg. induction xs as [|x xs IH]; simpl; [reflexivity|].
  rewrite IH, Hfg. reflexivity.
Qed.

Lemma square_nonneg (y : Q) : 0 <= y * y.
Proof. Lqa.nra. Qed.

Lemma Sigma_squares_nonneg (m : Q) (xs : list Q) :
  0 <= Spec.Sigma (map (fun x => (x - m) * (x - m)) xs).
Proof.
  induction xs as [|x xs IH]; simpl; [Lqa.lra|].
  pose proof (square_nonneg (x - m)). Lqa.lra.
Qed.

Lemma Sigma_nonneg (ws : list Q) :
  (forall w, In w ws -> 0 <= w) -> 0 <= Spec.Sigma ws.
Proof.
  induction ws as [|w ws IH]; simpl; intros Hall; [Lqa.lra|].
  assert (0 <= w) by (apply Hall; now left).
  assert (0 <= Spec.Sigma ws) by (apply IH; intros; apply Hall; now right).
  Lqa.lra.
Qed.

Lemma Sigma_pos (ws : list Q) :
  (forall w, In w ws -> 0 <= w) -> (exists w, In w ws /\ 0 < w) ->
  0 < Spec.Sigma ws.
Proof.
  induction ws as [|w ws IH]; simpl; intros Hall [v [Hin Hv]]; [contradiction|].
  assert (0 <= w) by (apply Hall; now left).
  assert (0 <= Spec.Sigma ws) by (apply Sigma_nonneg; intros; apply Hall; now right).
  destruct Hin as [->|Hin]; [Lqa.lra|].
  assert (0 < Spec.Sigma ws).
  { apply IH; [intros; apply Hall; now right | now exists v]. }
  Lqa.lra.
Qed.

(** With non-negative weights, [Σ wᵢ·pᵢ] lies between [lo·Σwᵢ] and
    [hi·Σwᵢ] for any bounds [lo], [hi] of the predictions. *)
Lemma dot_between (lo hi : Q) (ws ps : list Q) :
  (forall w, In w ws -> 0 <= w) ->
  (forall p, In p ps -> lo <= p <= hi) ->
  length ws = length ps ->
  lo * Spec.Sigma ws <= Spec.dot ws ps <= hi * Spec.Sigma ws.
Proof.
  revert ps. induction ws as [|w ws IH]; intros [|p ps] Hw Hp Hlen;
    simpl in *; try discriminate; [Lqa.lra|].
  assert (0 <= w) by (apply Hw; now left).
  assert (lo <= p <= hi) as [? ?] by (apply Hp; now left).
  destruct (IH ps) as [? ?]; [intros; apply Hw; now right
                             |intros; apply Hp; now right | congruence |].
  split; Lqa.nra.
Qed.

Lemma minimum_le (p : Q) (ps : list Q) (x : Q) :
  In x (p :: ps) -> Spec.minimum p ps <= x.
Proof.
  revert p. induction ps as [|q ps IH]; intros p Hin; simpl.
  - destruct Hin as [->|[]]. apply Qle_refl.
  - destruct Hin as [->|Hin].
    + apply Q.le_min_l.
    + apply Qle_trans with (Spec.minimum q ps);
        [apply Q.le_min_r | apply IH; exact Hin].
Qed.

Lemma maximum_ge (p : Q) (ps : list Q) (x : Q) :
  In x (p :: ps) -> x <= Spec.maximum p ps.
Proof.
  revert p. induction ps as [|q ps IH]; intros p Hin; simpl.
  - destruct Hin as [->|[]]. apply Qle_refl.
  - destruct Hin as [->|Hin].
    + apply Q.le_max_l.
    + apply Qle_trans with (Spec.maximum q ps);
        [apply IH; exact Hin | apply Q.le_max_r].
Qed.

Lemma count_pos (x : Q) (xs : list Q) : 0 < Spec.count (x :: xs).
Proof.
  unfold Spec.count. change 0 with (inject_Z 0). rewrite <- Zlt_Qlt.
  simpl length. lia.
Qed.

End Sums.

(** ** [aggregate_prediction] *)

Section AggregatePredictionFacts.

Local Open Scope Q_scope.

(** With lists of the same length the function returns; the division is
    guarded by the test on the total weight. *)
Lemma aggregate_prediction_returns (ps ws : list Q) :
  length ps = length ws ->
  exists P,
    aggregate_prediction ps ws =
    Ok {| aggregated_prediction := P;
          individual_predictions := ps;
          weights := ws;
          prediction_variance := np_var ps;
          confidence := confidence_of (np_var ps);
          total_weight := Py.sum ws |} /\
    (0 < Spec.Sigma ws -> P == Spec.weighted_mean ps ws) /\
    (Spec.Sigma ws <= 0 -> P = 0.5).
Proof.
  intros Hlen. unfold aggregate_prediction.
  rewrite Hlen, Nat.eqb_refl. simpl negb. cbv iota.
  pose proof (sum_Sigma ws) as Hsum.
  destruct (ltb_cases 0 (Py.sum ws)) as [[E C] | [E C]]; rewrite E.
  - rewrite py_div_ok by Lqa.lra. cbn [bind].
    eexists. split; [reflexivity|]. split.
    + intros _. unfold Spec.weighted_mean.
      rewrite weighted_sum_dot, Hsum. reflexivity.
    + intros Hneg. exfalso. Lqa.lra.
  - cbn [bind]. eexists. split; [reflexivity|]. split.
    + intros Hpos. exfalso. Lqa.lra.
    + reflexivity.
Qed.

Lemma aggregate_prediction_mismatch (ps ws : list Q) :
  length ps <> length ws ->
  aggregate_prediction ps ws =
  Raise (ValueError "Number of predictions must match number of weights").
Proof.
  intros Hlen. unfold aggregate_prediction.
  apply Nat.eqb_neq in Hlen. now rewrite Hlen.
Qed.

(** [np.var] of a non-empty list is the population variance, and it is
    not negative. *)
Lemma np_var_variance (ps : list Q) :
  ps <> [] ->
  exists v, np_var ps = Some v /\ v == Spec.variance ps /\ 0 <= v.
Proof.
  intros Hne. destruct ps as [|p ps]; [contradiction|].
  unfold np_var. cbn [np_mean].
  set (m := Py.sum (p :: ps) / inject_Z (Z.of_nat (length (p :: ps)))).
  assert (Hm : m == Spec.mean (p :: ps)).
  { unfold m, Spec.mean, Spec.count. rewrite sum_Sigma. reflexivity. }
  cbn [map np_mean]. eexists. split; [reflexivity|].
  change ((p - m) * (p - m) :: map (fun x => (x - m) * (x - m)) ps)
    with (map (fun x => (x - m) * (x - m)) (p :: ps)).
  rewrite length_map. fold (Spec.count (p :: ps)).
  pose proof (count_pos p ps) as Hn.
  rewrite sum_Sigma. split.
  - unfold Spec.variance.
    rewrite (Sigma_map_ext (fun x => (x - m) * (x - m))
               (fun x => (x - Spec.mean (p :: ps)) ^ 2)); [reflexivity|].
    intros x. rewrite Hm. simpl. reflexivity.
  - apply Qle_shift_div_l; [exact Hn|].
    pose proof (Sigma_squares_nonneg m (p :: ps)). Lqa.lra.
Qed.

Lemma confidence_clamp (v V : Q) :
  v == V -> 0 <= v ->
  confidence_of (Some v) == Spec.clamp (1 - 2 * V) 0 1.
Proof.
  intros HvV Hv. unfold confidence_of, Py.min, Spec.clamp.
  destruct (Qlt_le_dec (1 - 2 * V) 0), (Qlt_le_dec 1 (1 - 2 * V));
    py_compare (2 * v) 1.0; Lqa.lra.
Qed.

End AggregatePredictionFacts.

(** C1, as the code has it.  For a non-empty list of predictions and
    weights of the same length, the aggregation returns; the aggregated
    prediction is the weighted mean [Σ(wᵢ·pᵢ)/Σ(wᵢ)] when [Σwᵢ] is
    positive, and the neutral 0.5 when [Σwᵢ] is zero or negative. *)
Theorem aggregated_prediction_weighted_mean (ps ws : list Q) :
  ps <> [] -> length ps = length ws ->
  exists r,
    aggregate_prediction ps ws = Ok r /\
    ((0 < Spec.Sigma ws)%Q ->
       (aggregated_prediction r == Spec.weighted_mean ps ws)%Q) /\
    ((Spec.Sigma ws <= 0)%Q -> (aggregated_prediction r == 0.5)%Q).
Proof.
  intros _ Hlen.
  destruct (aggregate_prediction_returns ps ws Hlen) as [P [Hr [Hpos Hneg]]].
  eexists. split; [exact Hr|]. cbn. split; [exact Hpos|].
  intros Hle. rewrite (Hneg Hle). reflexivity.
Qed.

Lemma aggregated_prediction_weighted_mean_witness :
  exists r,
    aggregate_prediction [0.8; 0.4]%Q [1.0; 1.0]%Q = Ok r /\
    ((0 < Spec.Sigma [1.0; 1.0])%Q ->
       (aggregated_prediction r == Spec.weighted_mean [0.8; 0.4] [1.0; 1.0])%Q) /\
    ((Spec.Sigma [1.0; 1.0] <= 0)%Q -> (aggregated_prediction r == 0.5)%Q).
Proof.
  apply (aggregated_prediction_weighted_mean [0.8; 0.4]%Q [1.0; 1.0]%Q).
  - discriminate.
  - reflexivity.
Defined.

(** C1, as stated, fails for a negative total weight: with the single
    prediction 1 and the single weight -1, [Σwᵢ = -1] is not zero and the
    weighted mean is 1, but the aggregation answers 0.5. *)
Lemma weighted_mean_negative_total :
  let ps := [1%Q] in
  let ws := [(-1)%Q] in
  ps <> [] /\ length ps = length ws /\
  ~ (Spec.Sigma ws == 0)%Q /\
  exists r,
    aggregate_prediction ps ws = Ok r /\
    (aggregated_prediction r == 0.5)%Q /\
    (Spec.weighted_mean ps ws == 1)%Q /\
    ~ (aggregated_prediction r == Spec.weighted_mean ps ws)%Q.
Proof.
  cbv zeta. split; [discriminate|]. split; [reflexivity|].
  split; [intros H; discriminate H|].
  eexists. split; [vm_compute; reflexivity|]. cbn.
  split; [reflexivity|]. split; [reflexivity|].
  intros H; discriminate H.
Qed.

(** C3.  For a non-empty list of predictions, the confidence of the
    aggregation is [clamp(1 - 2·variance(pᵢ), 0, 1)] with the unweighted
    population variance. *)
Theorem confidence_from_variance (ps ws : list Q) :
  ps <> [] -> length ps = length ws ->
  exists r,
    aggregate_prediction ps ws = Ok r /\
    (confidence r == Spec.clamp (1 - 2 * Spec.variance ps) 0 1)%Q.
Proof.
  intros Hne Hlen.
  destruct (aggregate_prediction_returns ps ws Hlen) as [P [Hr _]].
  destruct (np_var_variance ps Hne) as [v [Hv [HvV Hpos]]].
  eexists. split; [exact Hr|]. cbn. rewrite Hv.
  now apply confidence_clamp.
Qed.

Lemma confidence_from_variance_witness :
  exists r,
    aggregate_prediction [0.8; 0.4]%Q [1.0; 1.0]%Q = Ok r /\
    (confidence r == Spec.clamp (1 - 2 * Spec.variance [0.8; 0.4]) 0 1)%Q.
Proof.
  apply (confidence_from_variance [0.8; 0.4]%Q [1.0; 1.0]%Q).
  - discriminate.
  - reflexivity.
Defined.

(** C9.  For a fixed non-empty list of predictions, two aggregations with
    any two weight vectors of matching length return the same confidence
    (and the same variance): the weights do not flow into it. *)
Theorem confidence_independent_of_weights (ps ws1 ws2 : list Q) :
  ps <> [] -> length ps = length ws1 -> length ps = length ws2 ->
  exists r1 r2,
    aggregate_prediction ps ws1 = Ok r1 /\
    aggregate_prediction ps ws2 = Ok r2 /\
    confidence r1 = confidence r2 /\
    prediction_variance r1 = prediction_variance r2.
Proof.
  intros _ Hlen1 Hlen2.
  destruct (aggregate_prediction_returns ps ws1 Hlen1) as [P1 [Hr1 _]].
  destruct (aggregate_prediction_returns ps ws2 Hlen2) as [P2 [Hr2 _]].
  do 2 eexists. split; [exact Hr1|]. split; [exact Hr2|].
  split; reflexivity.
Qed.

Lemma confidence_independent_of_weights_witness :
  exists r1 r2,
    aggregate_prediction [0.8; 0.4]%Q [1.0; 1.0]%Q = Ok r1 /\
    aggregate_prediction [0.8; 0.4]%Q [0.1; 2.0]%Q = Ok r2 /\
    confidence r1 = confidence r2 /\
    prediction_variance r1 = prediction_variance r2.
Proof.
  apply (confidence_independent_of_weights [0.8; 0.4]%Q [1.0; 1.0]%Q [0.1; 2.0]%Q).
  - discriminate.
  - reflexivity.
  - reflexivity.
Defined.

(** C6, as the code has it.  In exact arithmetic, when no weight is
    negative and at least one is positive, the aggregated prediction
    lies within [[min(pᵢ), max(pᵢ)]]. *)
Theorem aggregated_prediction_between (p : Q) (ps ws : list Q) :
  length (p :: ps) = length ws ->
  (forall w, In w ws -> (0 <= w)%Q) ->
  (exists w, In w ws /\ (0 < w)%Q) ->
  exists r,
    aggregate_prediction (p :: ps) ws = Ok r /\
    (Spec.minimum p ps <= aggregated_prediction r <= Spec.maximum p ps)%Q.
Proof.
  intros Hlen Hnonneg Hpos.
  destruct (aggregate_prediction_returns (p :: ps) ws Hlen) as [P [Hr [HP _]]].
  pose proof (Sigma_pos ws Hnonneg Hpos) as HS.
  eexists. split; [exact Hr|]. cbn. rewrite (HP HS).
  destruct (dot_between (Spec.minimum p ps) (Spec.maximum p ps) ws (p :: ps))
    as [Hlo Hhi]; [exact Hnonneg | | now symmetry |].
  { intros x Hx. split; [now apply minimum_le | now apply maximum_ge]. }
  unfold Spec.weighted_mean. split.
  - apply Qle_shift_div_l; [exact HS | exact Hlo].
  - apply Qle_shift_div_r; [exact HS | exact Hhi].
Qed.

Lemma aggregated_prediction_between_witness :
  exists r,
    aggregate_prediction [0.8; 0.4]%Q [1.0; 1.0]%Q = Ok r /\
    (Spec.minimum 0.8 [0.4] <= aggregated_prediction r
       <= Spec.maximum 0.8 [0.4])%Q.
Proof.
  apply (aggregated_prediction_between 0.8%Q [0.4]%Q [1.0; 1.0]%Q).
  - reflexivity.
  - intros w [<- | [<- | []]]; discriminate.
  - exists 1.0%Q. split; [now left | reflexivity].
Defined.

(** C6, as stated, fails in two ways.  A negative weight beside a
    positive one: predictions 0 and 1 with weights 2 and -1 aggregate to
    -1, below the smallest prediction (the floats of this run are
    exact).  And rounding: in binary64 the single prediction 0.76 with
    the weight 1.45 aggregates to [0.76 * 1.45 / 1.45], which is
    0.7599999999999999, below the only prediction. *)
Lemma aggregated_prediction_escapes_range :
  (let ps := [0%Q; 1%Q] in
   let ws := [2%Q; (-1)%Q] in
   length ps = length ws /\
   (exists w, In w ws /\ (0 < w)%Q) /\
   exists r,
     aggregate_prediction ps ws = Ok r /\
     (aggregated_prediction r == -1)%Q /\
     ~ (Spec.minimum 0 [1%Q] <= aggregated_prediction r
          <= Spec.maximum 0 [1%Q])%Q)
  /\
  (exists r,
     F64.aggregate_prediction [0.76%float] [1.45%float] = Ok r /\
     PrimFloat.ltb 0 1.45 = true /\
     F64.aggregated_prediction r = 0.7599999999999999%float /\
     PrimFloat.ltb (F64.aggregated_prediction r) 0.76 = true).
Proof.
  split.
  - cbv zeta. split; [reflexivity|].
    split; [exists 2%Q; split; [now left | reflexivity]|].
    eexists. split; [vm_compute; reflexivity|]. cbn.
    split; [reflexivity|].
    intros [Hlo _]. vm_compute in Hlo. apply Hlo. reflexivity.
  - eexists. split; [vm_compute; reflexivity|]. cbn.
    repeat split; reflexivity.
Qed.

(** Why the laws of the aggregation and of the feedback step are stated
    for exact arithmetic: on binary64 floats three predictions of 0.1
    with unit weights aggregate to 0.10000000000000002; multiplying the
    weights 1.0 and 0.5 by 3 moves the aggregate of 0.8 and 0.4 from
    0.6666666666666666 to 0.6666666666666667; and one correct feedback
    at the learning rate 0.003 on a prediction of 0.0005 reports a weight
    change of 0.030000000000000027, above ten times the rate. *)
Example rounding_breaks_exact_laws :
  (exists r,
     F64.aggregate_prediction [0.1; 0.1; 0.1]%float [1.0; 1.0; 1.0]%float
       = Ok r /\
     F64.aggregated_prediction r = 0.10000000000000002%float)
  /\
  (exists r r',
     F64.aggregate_prediction [0.8; 0.4]%float [1.0; 0.5]%float = Ok r /\
     F64.aggregate_prediction [0.8; 0.4]%float [3 * 1.0; 3 * 0.5]%float
       = Ok r' /\
     F64.aggregated_prediction r = 0.6666666666666666%float /\
     F64.aggregated_prediction r' = 0.6666666666666667%float)
  /\
  (exists r,
     F64.feedback_based_knowledge_weight 1.0 0.0005 true 0.003 = Ok r /\
     F64.weight_change r = 0.030000000000000027%float /\
     PrimFloat.ltb (10 * 0.003)%float (F64.weight_change r) = true).
Proof.
  split; [|split].
  - eexists. split; vm_compute; reflexivity.
  - do 2 eexists. repeat split; vm_compute; reflexivity.
  - eexists. repeat split; vm_compute; reflexivity.
Qed.

(** ** [explanation_aggregation] *)

Section ExplanationAggregationFacts.

Local Open Scope Q_scope.

Lemma normalize_zero_total (ws : list Q) (total : Q) :
  ws <> [] -> total == 0 ->
  comprehension (fun w => py_div w total) ws = Raise ZeroDivisionError.
Proof.
  intros Hne Hz. destruct ws as [|w ws]; [contradiction|].
  cbn [comprehension]. now rewrite py_div_zero.
Qed.

Lemma normalize_nonzero_total (ws : list Q) (total : Q) :
  ~ total == 0 ->
  comprehension (fun w => py_div w total) ws =
  Ok (map (fun w => w / total) ws).
Proof.
  intros Hnz. induction ws as [|w ws IH]; [reflexivity|].
  cbn [comprehension map]. rewrite py_div_ok by exact Hnz.
  cbn [bind]. rewrite IH. reflexivity.
Qed.

Lemma insert_desc_nonempty (x : WeightedExplanation)
    (l : list WeightedExplanation) : insert_desc x l <> [].
Proof.
  destruct l as [|y l]; cbn [insert_desc]; [discriminate|].
  destruct (Py.ltb _ _); discriminate.
Qed.

Lemma sorted_entries_nonempty (i : nat) (e : string) (w : Q)
    (ps : list (string * Q)) :
  sort_by_contribution_desc (weighted_entries i ((e, w) :: ps)) <> [].
Proof.
  cbn [weighted_entries sort_by_contribution_desc fold_right].
  apply insert_desc_nonempty.
Qed.

(** A zero total weight makes the normalisation divide by zero: the call
    raises instead of returning. *)
Lemma explanation_aggregation_zero_total (es : list string) (ws : list Q) :
  length es = length ws -> ws <> [] -> Py.sum ws == 0 ->
  explanation_aggregation es ws = Raise ZeroDivisionError.
Proof.
  intros Hlen Hne Hz. unfold explanation_aggregation.
  rewrite Hlen, Nat.eqb_refl. cbn [negb].
  rewrite normalize_zero_total by assumption. reflexivity.
Qed.

(** With a non-zero total weight and at least one helper the call
    returns, and the normalised weights are [wᵢ/Σwⱼ]. *)
Lemma explanation_aggregation_returns (es : list string) (ws : list Q) :
  length es = length ws -> ws <> [] -> ~ Py.sum ws == 0 ->
  exists r,
    explanation_aggregation es ws = Ok r /\
    weight_distribution r = map (fun w => w / Py.sum ws) ws /\
    total_helpers r = length es.
Proof.
  intros Hlen Hne Hnz. unfold explanation_aggregation.
  rewrite Hlen, Nat.eqb_refl. cbn [negb].
  rewrite normalize_nonzero_total by assumption. cbn [bind].
  destruct ws as [|w ws]; [contradiction|].
  destruct es as [|e es]; [discriminate|].
  cbn [map Py.zip].
  pose proof (sorted_entries_nonempty 0 e (w / Py.sum (w :: ws))
                (Py.zip es (map (fun w0 => w0 / Py.sum (w :: ws)) ws))) as Hs.
  destruct (sort_by_contribution_desc _) as [|first rest]; [contradiction|].
  eexists. split; [reflexivity|]. split; reflexivity.
Qed.

End ExplanationAggregationFacts.

(** C7, where the code departs from it.  With two helpers whose weights
    sum to zero (both zero, or one the opposite of the other),
    [explanation_aggregation] raises [ZeroDivisionError], while
    [aggregate_prediction] on the same weights returns its neutral 0.5. *)
Theorem explanation_aggregation_degenerate_weights :
  explanation_aggregation ["transit"; "general"]%string [0.0; 0.0]%Q
    = Raise ZeroDivisionError /\
  explanation_aggregation ["transit"; "general"]%string [1.0; - (1.0)]%Q
    = Raise ZeroDivisionError /\
  exists r,
    aggregate_prediction [0.8; 0.4]%Q [0.0; 0.0]%Q = Ok r /\
    aggregated_prediction r = 0.5%Q.
Proof.
  split; [|split].
  - apply explanation_aggregation_zero_total;
      [reflexivity | discriminate | reflexivity].
  - apply explanation_aggregation_zero_total;
      [reflexivity | discriminate | reflexivity].
  - eexists. split; [vm_compute; reflexivity | reflexivity].
Qed.

(** ** The feedback endpoint *)

Section FeedbackEndpointFacts.

Import Api.

Context {F : Type} `{FederatedAISystem F}.

(** The search looks at the star id and the timestamp of the stored
    analysis only. *)
Lemma find_analysis_index_feedback (stored : StoredAnalysis)
    (fb : option Feedback) (i : nat) (entries : list AggregationEntry) :
  find_analysis_index
    {| request_star_id := request_star_id stored;
       timestamp := timestamp stored;
       feedback := fb |} i entries
  = find_analysis_index stored i entries.
Proof.
  revert i. induction entries as [|a entries IH]; intros i; [reflexivity|].
  cbn [find_analysis_index request_star_id timestamp].
  destruct (_ && _); [reflexivity | apply IH].
Qed.

(** The handler fails with an HTTP 500 or answers; there is no other
    outcome, whatever the federated system does. *)
Lemma provide_feedback_outcomes (self : Server F) (request : FeedbackRequest)
    (now : Z) :
  (exists cause, snd (provide_feedback self request now) = Raise (Http500 cause)) \/
  (exists response, snd (provide_feedback self request now) = Ok response).
Proof.
  unfold provide_feedback.
  destruct (feedback_body self request now) as [self' [response | e]]; cbn.
  - right. now exists response.
  - left. now exists e.
Qed.

(** When the analysis is known, a history entry matches and the federated
    system accepts, the handler stores the feedback and answers. *)
Lemma provide_feedback_accepted (self : Server F) (request : FeedbackRequest)
    (now : Z) (stored : StoredAnalysis) (i : nat) (fed : F)
    (status : SystemStatus) :
  analysis_history self !! analysis_id request = Some stored ->
  find_analysis_index stored 0 (aggregation_history (federated_system self))
    = Some i ->
  provide_human_feedback (federated_system self) i (is_correct request)
    (ground_truth request) = (fed, None) ->
  get_system_status fed = Ok status ->
  provide_feedback self request now =
  ({| federated_system := fed;
      analysis_history :=
        <[analysis_id request :=
            {| request_star_id := request_star_id stored;
               timestamp := timestamp stored;
               feedback :=
                 Some {| fb_is_correct := is_correct request;
                         fb_ground_truth := ground_truth request;
                         fb_user_notes := user_notes request;
                         fb_timestamp := now |} |}]>
          (analysis_history self);
      broadcasts :=
        broadcasts self ++
        [{| bc_type := "feedback_received";
            bc_analysis_id := analysis_id request;
            bc_system_accuracy := system_accuracy status;
            bc_total_feedback := total_feedback status |}] |},
   Ok {| message := "Feedback received and system updated";
         resp_analysis_id := analysis_id request;
         updated_system_accuracy := system_accuracy status;
         total_feedback_count := total_feedback status |}).
Proof.
  intros Hstored Hfind Hfed Hstatus.
  unfold provide_feedback, feedback_body.
  rewrite Hstored, Hfind, Hfed, Hstatus. reflexivity.
Qed.

(** The answer of the handler does not depend on the ['feedback'] entry
    of the stored analysis: replacing it by anything, absent or set,
    leaves the response unchanged. *)
Lemma provide_feedback_ignores_feedback (self : Server F)
    (request : FeedbackRequest) (now : Z) (stored : StoredAnalysis)
    (fb : option Feedback) :
  analysis_history self !! analysis_id request = Some stored ->
  snd (provide_feedback
         {| federated_system := federated_system self;
            analysis_history :=
              <[analysis_id request :=
                  {| request_star_id := request_star_id stored;
                     timestamp := timestamp stored;
                     feedback := fb |}]> (analysis_history self);
            broadcasts := broadcasts self |} request now)
  = snd (provide_feedback self request now).
Proof.
  intros Hstored. unfold provide_feedback, feedback_body.
  cbn [analysis_history federated_system broadcasts].
  rewrite lookup_insert_eq, Hstored, find_analysis_index_feedback.
  destruct (find_analysis_index _ _ _) as [i|]; [|reflexivity].
  destruct (provide_human_feedback _ _ _ _) as [fed [e|]]; [reflexivity|].
  destruct (get_system_status fed); reflexivity.
Qed.

End FeedbackEndpointFacts.

(** When the handler answers, the analysis was known, an entry of the
    history matched, and both calls into the federated system went
    through; the server afterwards holds the system that
    [provide_human_feedback] left and the feedback on the analysis. *)
Lemma provide_feedback_answered {F : Type} `{Api.FederatedAISystem F}
    (self self' : Api.Server F) (request : Api.FeedbackRequest) (now : Z)
    (response : Api.FeedbackResponse) :
  Api.provide_feedback self request now = (self', Ok response) ->
  exists stored i status,
    Api.analysis_history self !! Api.analysis_id request = Some stored /\
    Api.find_analysis_index stored 0
      (Api.aggregation_history (Api.federated_system self)) = Some i /\
    Api.provide_human_feedback (Api.federated_system self) i
      (Api.is_correct request) (Api.ground_truth request)
      = (Api.federated_system self', None) /\
    Api.get_system_status (Api.federated_system self') = Ok status /\
    Api.analysis_history self' =
      <[Api.analysis_id request :=
          {| Api.request_star_id := Api.request_star_id stored;
             Api.timestamp := Api.timestamp stored;
             Api.feedback :=
               Some {| Api.fb_is_correct := Api.is_correct request;
                       Api.fb_ground_truth := Api.ground_truth request;
                       Api.fb_user_notes := Api.user_notes request;
                       Api.fb_timestamp := now |} |}]>
        (Api.analysis_history self).
Proof.
  unfold Api.provide_feedback, Api.feedback_body.
  destruct (Api.analysis_history self !! Api.analysis_id request)
    as [stored|]; [|discriminate].
  destruct (Api.find_analysis_index _ _ _) as [i|] eqn:Hfind; [|discriminate].
  destruct (Api.provide_human_feedback _ _ _ _) as [fed [e|]] eqn:Hfed;
    [discriminate|].
  destruct (Api.get_system_status fed) as [status|e] eqn:Hstatus;
    [|discriminate].
  intros [= <- _]. exists stored, i, status. cbn.
  repeat split; assumption.
Qed.

Section SingleShot.

Import Federated.

(** A feedback changes no star id and no timestamp of the history. *)
Lemma apply_feedback_history (system system' : System) (i : nat)
    (c : bool) (g : option bool) (e : option Api.Exception) :
  apply_feedback system i c g = (system', e) ->
  map history_entry (records system') = map history_entry (records system).
Proof.
  unfold apply_feedback.
  destruct (records system !! i) as [record|] eqn:Hrecord;
    [|now intros [= <- _]].
  destruct (feedback record); [now intros [= <- _]|].
  intros [= <- _]. cbn [records].
  change (map history_entry) with (fmap (M:=list) history_entry).
  rewrite list_fmap_insert. apply list_insert_id.
  rewrite list_lookup_fmap, Hrecord. reflexivity.
Qed.

(** The single-shot rule of the federated system: once a feedback has
    been accepted for a record, any further feedback for that record is
    refused with [FeedbackAlreadyAppliedError] and changes nothing. *)
Lemma apply_feedback_again (system system' : System) (i : nat)
    (c c' : bool) (g g' : option bool) :
  apply_feedback system i c g = (system', None) ->
  apply_feedback system' i c' g'
  = (system', Some (Api.FederatedError "FeedbackAlreadyAppliedError")).
Proof.
  unfold apply_feedback at 1.
  destruct (records system !! i) as [record|] eqn:Hrecord; [|discriminate].
  destruct (feedback record); [discriminate|].
  intros [= <-]. unfold apply_feedback. cbn [records].
  rewrite list_lookup_insert_eq by (eapply lookup_lt_Some; exact Hrecord).
  reflexivity.
Qed.

End SingleShot.

(** After a submission that succeeded, the same request fails: the
    search finds the same record again, whose feedback is now set. *)
Lemma second_submission_refused (self self1 : Api.Server Federated.System)
    (request : Api.FeedbackRequest) (now1 now2 : Z)
    (response1 : Api.FeedbackResponse) :
  Api.provide_feedback self request now1 = (self1, Ok response1) ->
  Api.provide_feedback self1 request now2
  = (self1,
     Raise (Api.Http500 (Api.FederatedError "FeedbackAlreadyAppliedError"))).
Proof.
  intros Hfirst.
  destruct (provide_feedback_answered self self1 request now1 response1 Hfirst)
    as (stored & i & status & Hstored & Hfind & Hfed & _ & Hhistory).
  cbn [Api.provide_human_feedback Api.aggregation_history
       Federated.spec_system] in Hfed, Hfind.
  unfold Api.provide_feedback, Api.feedback_body.
  rewrite Hhistory, lookup_insert_eq, find_analysis_index_feedback.
  cbn [Api.provide_human_feedback Api.aggregation_history
       Federated.spec_system].
  rewrite (apply_feedback_history _ _ _ _ _ _ Hfed), Hfind.
  rewrite (apply_feedback_again _ _ _ _ (Api.is_correct request)
             _ (Api.ground_truth request) Hfed).
  rewrite <- Hhistory. destruct self1; reflexivity.
Qed.

(** A submission for a record whose feedback is already set is refused
    and leaves the server as it was. *)
Lemma submission_on_judged_record (self : Api.Server Federated.System)
    (request : Api.FeedbackRequest) (now : Z)
    (stored : Api.StoredAnalysis) (i : nat)
    (record : Federated.AnalysisRecord) (given : Federated.RecordedFeedback) :
  Api.analysis_history self !! Api.analysis_id request = Some stored ->
  Api.find_analysis_index stored 0
    (Api.aggregation_history (Api.federated_system self)) = Some i ->
  Federated.records (Api.federated_system self) !! i = Some record ->
  Federated.feedback record = Some given ->
  Api.provide_feedback self request now
  = (self,
     Raise (Api.Http500 (Api.FederatedError "FeedbackAlreadyAppliedError"))).
Proof.
  intros Hstored Hfind Hrecord Hgiven.
  unfold Api.provide_feedback, Api.feedback_body.
  rewrite Hstored, Hfind.
  cbn [Api.provide_human_feedback Federated.spec_system].
  unfold Federated.apply_feedback. rewrite Hrecord, Hgiven.
  destruct self; reflexivity.
Qed.



(** The run in numbers: the first feedback on [a-1] is answered with two
    feedbacks on record, half of them correct, and raises the weight of
    helper A from 1 to [1 + 0.1 * 0.01 / 0.9]; the second is refused, and
    so is a feedback on [a-2], whose record already has one. *)
Example confirm_a1_twice :
  let first :=
    Api.provide_feedback Federated.two_analyses Federated.confirm_a1
      9000000%Z in
  snd first
  = Ok {| Api.message := "Feedback received and system updated";
          Api.resp_analysis_id := "a-1";
          Api.updated_system_accuracy := 1 / 2;
          Api.total_feedback_count := 2 |} /\
  (map Federated.reliability_weight
     (Federated.helpers (Api.federated_system (fst first)))
   = [Spec.new_weight 1.0 0.9 true 0.1; Spec.new_weight 1.0 0.4 true 0.1]) /\
  (Spec.new_weight 1.0 0.9 true 0.1 == 1 + 0.1 * 0.01 / 0.9)%Q /\
  snd (Api.provide_feedback (fst first) Federated.confirm_a1 9500000%Z)
  = Raise (Api.Http500 (Api.FederatedError "FeedbackAlreadyAppliedError")) /\
  snd (Api.provide_feedback Federated.two_analyses
         {| Api.analysis_id := "a-2"; Api.is_correct := true;
            Api.ground_truth := None; Api.user_notes := None |} 9000000%Z)
  = Raise (Api.Http500 (Api.FederatedError "FeedbackAlreadyAppliedError")).
Proof.
  cbv zeta. split; [vm_compute; reflexivity|].
  split; [vm_compute; reflexivity|].
  split; [reflexivity|]. split; vm_compute; reflexivity.
Qed.

(** ** Kepler's third law *)

Section KeplerFacts.

Import Orbit.
Local Open Scope R_scope.

Lemma G_pos : 0 < G.
Proof. unfold G. Lra.lra. Qed.

Lemma AU_pos : 0 < AU.
Proof. unfold AU. Lra.lra. Qed.

Lemma M_sun_pos : 0 < M_sun.
Proof. unfold M_sun. Lra.lra. Qed.

Lemma M_earth_pos : 0 < M_earth.
Proof. unfold M_earth. Lra.lra. Qed.

Lemma four_pi_squared_pos : 0 < 4 * PI ^ 2.
Proof. pose proof PI_RGT_0. Lra.nra. Qed.

Lemma float_div_ok (a b : R) : b <> 0 -> float_div a b = Ok (a / b).
Proof.
  intros Hb. unfold float_div. destruct (Req_dec_T b 0); [contradiction | reflexivity].
Qed.

Lemma np_sqrt_ok (x : R) : 0 <= x -> np_sqrt x = Ok (sqrt x).
Proof.
  intros Hx. unfold np_sqrt. destruct (Rle_dec 0 x); [reflexivity | contradiction].
Qed.

Lemma float_pow_pos (x y : R) : 0 < x -> float_pow x y = Ok (Rpower x y).
Proof.
  intros Hx. unfold float_pow. destruct (Rlt_dec 0 x); [reflexivity | contradiction].
Qed.

(** The cube root undoes the cube on positive reals. *)
Lemma cube_root_cube (x : R) : 0 < x -> Rpower (x ^ 3) (1 / 3) = x.
Proof.
  intros Hx. rewrite <- (Rpower_pow 3 x Hx), Rpower_mult.
  replace (INR 3 * (1 / 3)) with 1 by (simpl; Lra.lra).
  now apply Rpower_1.
Qed.

Lemma total_mass_pos (stellar_mass planet_mass : R) :
  0 < stellar_mass -> 0 < planet_mass ->
  0 < stellar_mass * M_sun + planet_mass * M_earth.
Proof.
  intros Hs Hp. pose proof M_sun_pos. pose proof M_earth_pos. Lra.nra.
Qed.

(** The period computed from a distance. *)
Lemma distance_to_period_returns (stellar_mass planet_mass a : R) :
  0 < stellar_mass -> 0 < planet_mass -> 0 < a ->
  let total_mass := stellar_mass * M_sun + planet_mass * M_earth in
  let P_sec := sqrt (4 * PI ^ 2 * (a * AU) ^ 3 / (G * total_mass)) in
  keplers_third_law stellar_mass planet_mass None (Some a) =
  Ok {| orbital_period_days := P_sec / (24 * 3600);
        orbital_period_years := Some (P_sec / (24 * 3600) / 365.25);
        orbital_distance_au := a;
        orbital_distance_m := a * AU;
        stellar_mass_solar := stellar_mass;
        planet_mass_earth := planet_mass;
        total_mass_kg := total_mass;
        calculation_type := distance_to_period |}.
Proof.
  intros Hs Hp Ha total_mass P_sec.
  pose proof (total_mass_pos _ _ Hs Hp) as Hm.
  pose proof G_pos. pose proof AU_pos. pose proof four_pi_squared_pos.
  unfold keplers_third_law.
  destruct (Req_dec_T planet_mass 0) as [Hz|_]; [Lra.lra|].
  fold total_mass.
  rewrite float_div_ok by (unfold total_mass; Lra.nra). cbn [bind].
  rewrite np_sqrt_ok.
  2:{ apply Rlt_le, Rdiv_lt_0_compat; [|unfold total_mass; Lra.nra].
      apply Rmult_lt_0_compat; [assumption|].
      apply pow_lt. Lra.nra. }
  cbn [bind]. rewrite float_div_ok by Lra.lra. cbn [bind].
  rewrite float_div_ok by Lra.lra. reflexivity.
Qed.

(** The distance computed from a positive period. *)
Lemma period_to_distance_returns (stellar_mass planet_mass P : R) :
  0 < stellar_mass -> 0 < planet_mass -> 0 < P ->
  let total_mass := stellar_mass * M_sun + planet_mass * M_earth in
  let a_m :=
    Rpower (G * total_mass * (P * 24 * 3600) ^ 2 / (4 * PI ^ 2)) (1 / 3) in
  keplers_third_law stellar_mass planet_mass (Some P) None =
  Ok {| orbital_period_days := P;
        orbital_period_years := None;
        orbital_distance_au := a_m / AU;
        orbital_distance_m := a_m;
        stellar_mass_solar := stellar_mass;
        planet_mass_earth := planet_mass;
        total_mass_kg := total_mass;
        calculation_type := period_to_distance |}.
Proof.
  intros Hs Hp HP total_mass a_m.
  pose proof (total_mass_pos _ _ Hs Hp) as Hm.
  pose proof G_pos. pose proof AU_pos. pose proof four_pi_squared_pos.
  unfold keplers_third_law.
  destruct (Req_dec_T planet_mass 0) as [Hz|_]; [Lra.lra|].
  fold total_mass.
  rewrite float_div_ok by Lra.lra. cbn [bind].
  rewrite float_div_ok by Lra.lra. cbn [bind].
  rewrite float_pow_pos.
  2:{ apply Rdiv_lt_0_compat; [|assumption].
      apply Rmult_lt_0_compat; [unfold total_mass; Lra.nra|].
      apply pow_lt. Lra.lra. }
  cbn [bind]. rewrite float_div_ok by Lra.lra. reflexivity.
Qed.

End KeplerFacts.

(** C10.  For positive stellar mass, planet mass and orbital distance
    [a] (in AU), the period that [keplers_third_law] computes from [a],
    given back to [keplers_third_law] with the same masses, returns the
    distance [a], in exact real arithmetic. *)
Theorem kepler_round_trip (stellar_mass planet_mass a : R) :
  (0 < stellar_mass)%R -> (0 < planet_mass)%R -> (0 < a)%R ->
  exists there back,
    Orbit.keplers_third_law stellar_mass planet_mass None (Some a) = Ok there /\
    Orbit.calculation_type there = Orbit.distance_to_period /\
    Orbit.keplers_third_law stellar_mass planet_mass
      (Some (Orbit.orbital_period_days there)) None = Ok back /\
    Orbit.calculation_type back = Orbit.period_to_distance /\
    Orbit.orbital_distance_au back = a.
Proof.
  intros Hs Hp Ha.
  pose proof (total_mass_pos _ _ Hs Hp) as Hm.
  pose proof G_pos as HG. pose proof AU_pos as HAU.
  pose proof four_pi_squared_pos as Hpi.
  set (total_mass := (stellar_mass * Orbit.M_sun + planet_mass * Orbit.M_earth)%R) in *.
  set (q := (4 * PI ^ 2 * (a * Orbit.AU) ^ 3 / (Orbit.G * total_mass))%R).
  assert (Hq : (0 < q)%R).
  { unfold q. apply Rdiv_lt_0_compat; [|Lra.nra].
    apply Rmult_lt_0_compat; [assumption|]. apply pow_lt. Lra.nra. }
  assert (HP : (0 < sqrt q / (24 * 3600))%R).
  { apply Rdiv_lt_0_compat; [now apply sqrt_lt_R0 | Lra.lra]. }
  do 2 eexists.
  split; [apply distance_to_period_returns; assumption|].
  split; [reflexivity|]. cbn [Orbit.orbital_period_days].
  split; [apply period_to_distance_returns; assumption|].
  split; [reflexivity|]. cbn [Orbit.orbital_distance_au].
  fold total_mass. fold q.
  replace (Orbit.G * total_mass * (sqrt q / (24 * 3600) * 24 * 3600) ^ 2
           / (4 * PI ^ 2))%R with ((a * Orbit.AU) ^ 3)%R.
  - rewrite cube_root_cube by Lra.nra. field. Lra.lra.
  - replace (sqrt q / (24 * 3600) * 24 * 3600)%R with (sqrt q) by (field; Lra.lra).
    rewrite pow2_sqrt by Lra.lra. unfold q. field.
    pose proof PI_RGT_0. repeat split; Lra.lra.
Qed.

Lemma kepler_round_trip_witness :
  exists there back,
    Orbit.keplers_third_law 1 1 None (Some 1%R) = Ok there /\
    Orbit.calculation_type there = Orbit.distance_to_period /\
    Orbit.keplers_third_law 1 1
      (Some (Orbit.orbital_period_days there)) None = Ok back /\
    Orbit.calculation_type back = Orbit.period_to_distance /\
    Orbit.orbital_distance_au back = 1%R.
Proof.
  apply (kepler_round_trip 1 1 1); exact Rlt_0_1.
Defined.

(** * Further properties of the calculator *)

(** ** The feedback weight rule: direction and size of the step *)

Section FeedbackStep.

Local Open Scope Q_scope.

Lemma inverse_between (x : Q) :
  0.001 <= x <= 0.999 -> 1 <= / x <= 1000.
Proof.
  intros [Hlo Hhi]. split.
  - apply Qle_shift_inv_l; Lqa.lra.
  - apply Qle_shift_inv_r; Lqa.lra.
Qed.

Lemma inverse_antitone (x y : Q) : 0 < x -> x <= y -> / y <= / x.
Proof.
  intros Hx Hxy. destruct (Qle_lt_or_eq _ _ Hxy) as [Hlt|Heq].
  - apply Qlt_le_weak.
    assert (Hy : 0 < y) by Lqa.lra.
    apply (proj1 (Qinv_lt_contravar x y Hx Hy)). exact Hlt.
  - rewrite Heq. apply Qle_refl.
Qed.

(** The signed step is [-0.01/P] after a correct feedback and
    [-0.01/(1-P)] after an incorrect one. *)
Lemma signed_step_value (p : Q) (c : bool) :
  signed_step p c ==
  - (0.01 * / (if c then clipped p else 1 - clipped p)).
Proof.
  unfold signed_step, Qdiv. destruct c.
  - setoid_replace (1 - 1.0) with 0 using relation Qeq by reflexivity.
    setoid_replace (- (1.0)) with (- (1)) using relation Qeq by reflexivity. ring.
  - setoid_replace (1 - 0.0) with 1 using relation Qeq by reflexivity.
    setoid_replace (- (0.0)) with 0 using relation Qeq by reflexivity. ring.
Qed.

Lemma signed_step_between (p : Q) (c : bool) :
  - (10) <= signed_step p c <= - 0.01.
Proof.
  rewrite signed_step_value.
  pose proof (clipped_bounds p) as [Hlo Hhi].
  assert (Hb : 1 <= / (if c then clipped p else 1 - clipped p) <= 1000).
  { apply inverse_between. destruct c; split; Lqa.lra. }
  destruct Hb. split; Lqa.lra.
Qed.

Lemma updated_weight_step (w p : Q) (c : bool) (eta : Q) :
  exists r,
    feedback_based_knowledge_weight w p c eta = Ok r /\
    updated_weight r == Py.max 0.1 (Py.min 2.0 (w - eta * signed_step p c)) /\
    weight_change r == updated_weight r - w.
Proof.
  eexists. split; [apply feedback_weight_returns|]. cbn.
  split; [|reflexivity].
  apply Qeq_trans with
    (Spec.clamp (w - eta * signed_step p c) 0.1 2.0).
  - apply max_min_clamp; [Lqa.lra|]. unfold signed_step. ring.
  - symmetry. apply max_min_clamp; [Lqa.lra | reflexivity].
Qed.

Lemma clamp_monotone (lo hi x y : Q) :
  lo <= hi -> x <= y ->
  Py.max lo (Py.min hi x) <= Py.max lo (Py.min hi y).
Proof.
  intros Hlh Hxy.
  rewrite (max_min_clamp lo hi x x Hlh (Qeq_refl x)).
  rewrite (max_min_clamp lo hi y y Hlh (Qeq_refl y)).
  unfold Spec.clamp.
  destruct (Qlt_le_dec x lo), (Qlt_le_dec y lo),
    (Qlt_le_dec hi x), (Qlt_le_dec hi y); Lqa.lra.
Qed.

Lemma clipped_monotone (p1 p2 : Q) : p1 <= p2 -> clipped p1 <= clipped p2.
Proof. intros Hp. apply clamp_monotone; [Lqa.lra | exact Hp]. Qed.

End FeedbackStep.

(** X1.  A feedback never lowers a weight that lies in [0.1, 2.0],
    whether the prediction was judged correct or not and whatever the
    learning rate, as long as it is not negative: the updated weight is
    at least the current one and at most 2.0, and the reported change is
    not negative. *)
Theorem feedback_never_lowers_weight (w p : Q) (c : bool) (eta : Q) :
  (0 <= eta)%Q -> (0.1 <= w <= 2.0)%Q ->
  exists r,
    feedback_based_knowledge_weight w p c eta = Ok r /\
    (w <= updated_weight r <= 2.0)%Q /\
    (0 <= weight_change r)%Q.
Proof.
  intros Heta [Hlo Hhi].
  destruct (updated_weight_step w p c eta) as [r [Hr [Hu Hc]]].
  exists r. split; [exact Hr|]. rewrite Hc, Hu.
  pose proof (signed_step_between p c) as [Hs1 Hs2].
  assert (Hgrow : (w <= w - eta * signed_step p c)%Q) by Lqa.nra.
  unfold Py.max, Py.min.
  py_compare (w - eta * signed_step p c)%Q 2.0%Q.
  - py_compare 0.1%Q (w - eta * signed_step p c)%Q; repeat split; Lqa.lra.
  - py_compare 0.1%Q 2.0%Q; repeat split; Lqa.lra.
Qed.

Lemma feedback_never_lowers_weight_witness :
  exists r,
    feedback_based_knowledge_weight 1.0 0.3 false 0.1 = Ok r /\
    (1.0 <= updated_weight r <= 2.0)%Q /\
    (0 <= weight_change r)%Q.
Proof.
  apply (feedback_never_lowers_weight 1.0 0.3 false 0.1).
  - discriminate.
  - split; discriminate.
Defined.

(** X2.  In exact arithmetic, one feedback moves a weight of [0.1, 2.0]
    by at most ten times the learning rate, and never downwards, for any
    non-negative learning rate; with a zero learning rate the weight is
    unchanged. *)
Theorem weight_change_bounded (w p : Q) (c : bool) (eta : Q) :
  (0 <= eta)%Q -> (0.1 <= w <= 2.0)%Q ->
  exists r,
    feedback_based_knowledge_weight w p c eta = Ok r /\
    (0 <= weight_change r <= 10 * eta)%Q.
Proof.
  intros Heta [Hlo Hhi].
  destruct (updated_weight_step w p c eta) as [r [Hr [Hu Hc]]].
  exists r. split; [exact Hr|]. rewrite Hc, Hu.
  pose proof (signed_step_between p c) as [Hs1 Hs2].
  assert (Hup : (w - eta * signed_step p c <= w + 10 * eta)%Q) by Lqa.nra.
  assert (Hdn : (w <= w - eta * signed_step p c)%Q) by Lqa.nra.
  unfold Py.max, Py.min.
  py_compare (w - eta * signed_step p c)%Q 2.0%Q.
  - py_compare 0.1%Q (w - eta * signed_step p c)%Q; split; Lqa.lra.
  - py_compare 0.1%Q 2.0%Q; split; Lqa.lra.
Qed.

Lemma weight_change_bounded_witness :
  exists r,
    feedback_based_knowledge_weight 1.0 0.3 true 0.1 = Ok r /\
    (0 <= weight_change r <= 10 * 0.1)%Q.
Proof.
  apply (weight_change_bounded 1.0 0.3 true 0.1).
  - discriminate.
  - split; discriminate.
Defined.

(** X3.  The boost depends on the recorded prediction: after a correct
    feedback a higher prediction earns a smaller (or equal) new weight,
    after an incorrect feedback a higher prediction earns a larger (or
    equal) one. *)
Theorem boost_depends_on_prediction (w p1 p2 eta : Q) :
  (0 <= eta)%Q -> (p1 <= p2)%Q ->
  exists c1 c2 i1 i2,
    feedback_based_knowledge_weight w p1 true eta = Ok c1 /\
    feedback_based_knowledge_weight w p2 true eta = Ok c2 /\
    feedback_based_knowledge_weight w p1 false eta = Ok i1 /\
    feedback_based_knowledge_weight w p2 false eta = Ok i2 /\
    (updated_weight c2 <= updated_weight c1)%Q /\
    (updated_weight i1 <= updated_weight i2)%Q.
Proof.
  intros Heta Hp.
  destruct (updated_weight_step w p1 true eta) as [c1 [Hc1 [Uc1 _]]].
  destruct (updated_weight_step w p2 true eta) as [c2 [Hc2 [Uc2 _]]].
  destruct (updated_weight_step w p1 false eta) as [i1 [Hi1 [Ui1 _]]].
  destruct (updated_weight_step w p2 false eta) as [i2 [Hi2 [Ui2 _]]].
  exists c1, c2, i1, i2. repeat (split; [assumption|]).
  pose proof (clipped_bounds p1) as [L1 H1].
  pose proof (clipped_bounds p2) as [L2 H2].
  pose proof (clipped_monotone p1 p2 Hp) as Hm.
  rewrite Uc1, Uc2, Ui1, Ui2. split.
  - apply clamp_monotone; [Lqa.lra|].
    rewrite !signed_step_value.
    assert (/ clipped p2 <= / clipped p1)%Q
      by (apply inverse_antitone; Lqa.lra).
    Lqa.nra.
  - apply clamp_monotone; [Lqa.lra|].
    rewrite !signed_step_value.
    assert (/ (1 - clipped p1) <= / (1 - clipped p2))%Q
      by (apply inverse_antitone; Lqa.lra).
    Lqa.nra.
Qed.

Lemma boost_depends_on_prediction_witness :
  exists c1 c2 i1 i2,
    feedback_based_knowledge_weight 1.0 0.3 true 0.1 = Ok c1 /\
    feedback_based_knowledge_weight 1.0 0.9 true 0.1 = Ok c2 /\
    feedback_based_knowledge_weight 1.0 0.3 false 0.1 = Ok i1 /\
    feedback_based_knowledge_weight 1.0 0.9 false 0.1 = Ok i2 /\
    (updated_weight c2 <= updated_weight c1)%Q /\
    (updated_weight i1 <= updated_weight i2)%Q.
Proof.
  apply (boost_depends_on_prediction 1.0 0.3 0.9 0.1); discriminate.
Defined.

(** ** [aggregate_prediction]: agreement, bounds, scaling *)

Section AggregationLaws.

Local Open Scope Q_scope.

Lemma Sigma_scaled (k : Q) (ws : list Q) :
  Spec.Sigma (map (Qmult k) ws) == k * Spec.Sigma ws.
Proof.
  induction ws as [|w ws IH]; simpl; [ring|]. rewrite IH. ring.
Qed.

Lemma dot_scaled (k : Q) (ws ps : list Q) :
  Spec.dot (map (Qmult k) ws) ps == k * Spec.dot ws ps.
Proof.
  revert ps. induction ws as [|w ws IH]; intros [|p ps]; simpl; try ring.
  rewrite IH. ring.
Qed.

Lemma dot_constant (v : Q) (ws ps : list Q) :
  Forall (fun p => p == v) ps -> length ps = length ws ->
  Spec.dot ws ps == v * Spec.Sigma ws.
Proof.
  intros Hall. revert ws.
  induction Hall as [|p ps Hp Hall IH]; intros [|w ws] Hlen;
    simpl in *; try discriminate; [ring|].
  rewrite IH by congruence. rewrite Hp. ring.
Qed.

Lemma Sigma_constant (v : Q) (ps : list Q) :
  Forall (fun p => p == v) ps -> Spec.Sigma ps == v * Spec.count ps.
Proof.
  intros Hall. unfold Spec.count.
  induction Hall as [|p ps Hp Hall IH]; [simpl; ring|].
  cbn [Spec.Sigma length]. rewrite IH, Hp.
  rewrite Nat2Z.inj_succ. unfold Z.succ. rewrite inject_Z_plus. ring.
Qed.

Lemma Sigma_zero_terms (f : Q -> Q) (ps : list Q) :
  Forall (fun p => f p == 0) ps -> Spec.Sigma (map f ps) == 0.
Proof.
  intros Hall. induction Hall as [|p ps Hp Hall IH]; simpl; [reflexivity|].
  rewrite IH, Hp. ring.
Qed.

(** Identical predictions have no variance. *)
Lemma variance_constant (v p : Q) (ps : list Q) :
  Forall (fun x => x == v) (p :: ps) -> Spec.variance (p :: ps) == 0.
Proof.
  intros Hall. pose proof (count_pos p ps) as Hn.
  assert (Hmean : Spec.mean (p :: ps) == v).
  { unfold Spec.mean. rewrite (Sigma_constant v) by exact Hall.
    field. Lqa.lra. }
  unfold Spec.variance. rewrite Sigma_zero_terms.
  - field. Lqa.lra.
  - eapply Forall_impl; [|exact Hall]. cbv beta. intros x Hx.
    rewrite Hmean, Hx. simpl. ring.
Qed.

Lemma confidence_of_bounds (variance : option Q) :
  match variance with Some v => 0 <= v | None => True end ->
  0 <= confidence_of variance <= 1.
Proof.
  unfold confidence_of, Py.min. destruct variance as [v|]; intros Hv.
  - py_compare (2 * v) 1.0; split; Lqa.lra.
  - split; discriminate.
Qed.

End AggregationLaws.

(** X4.  In exact arithmetic, when all helpers predict the same value
    and the total weight is positive (whatever the signs of the single
    weights), the aggregated prediction is that value and the confidence
    is 1. *)
Theorem unanimous_predictions (v : Q) (ps ws : list Q) :
  Forall (fun p => (p == v)%Q) ps -> length ps = length ws ->
  (0 < Spec.Sigma ws)%Q ->
  exists r,
    aggregate_prediction ps ws = Ok r /\
    (aggregated_prediction r == v)%Q /\
    (confidence r == 1)%Q.
Proof.
  intros Hall Hlen Hpos.
  destruct (aggregate_prediction_returns ps ws Hlen) as [P [Hr [HP _]]].
  exists {| aggregated_prediction := P;
            individual_predictions := ps;
            weights := ws;
            prediction_variance := np_var ps;
            confidence := confidence_of (np_var ps);
            total_weight := Py.sum ws |}.
  split; [exact Hr|]. cbn. split.
  - rewrite (HP Hpos). unfold Spec.weighted_mean.
    rewrite (dot_constant v) by assumption. field. Lqa.lra.
  - destruct ps as [|p ps].
    { destruct ws; [|discriminate]. simpl in Hpos. Lqa.lra. }
    destruct (np_var_variance (p :: ps)) as [x [Hx [HxV Hx0]]]; [discriminate|].
    rewrite Hx, (confidence_clamp x (Spec.variance (p :: ps)) HxV Hx0).
    pose proof (variance_constant v p ps Hall) as HV.
    unfold Spec.clamp.
    destruct (Qlt_le_dec _ _); [Lqa.lra|].
    destruct (Qlt_le_dec _ _); Lqa.lra.
Qed.

Lemma unanimous_predictions_witness :
  exists r,
    aggregate_prediction [0.7; 0.7]%Q [2; -1]%Q = Ok r /\
    (aggregated_prediction r == 0.7)%Q /\
    (confidence r == 1)%Q.
Proof.
  apply (unanimous_predictions 0.7%Q [0.7; 0.7]%Q [2; -1]%Q).
  - repeat constructor.
  - reflexivity.
  - reflexivity.
Defined.

(** X5.  Whenever the aggregation returns, for any predictions and
    weights (empty lists included), its confidence lies in [0, 1]. *)
Theorem confidence_in_unit_interval (ps ws : list Q) (r : AggregatePrediction) :
  aggregate_prediction ps ws = Ok r ->
  (0 <= confidence r <= 1)%Q.
Proof.
  intros Hr.
  destruct (Nat.eq_dec (length ps) (length ws)) as [Hlen|Hlen].
  - destruct (aggregate_prediction_returns ps ws Hlen) as [P [Hr' _]].
    rewrite Hr' in Hr. injection Hr as <-. cbn.
    apply confidence_of_bounds.
    destruct ps as [|p ps]; [exact I|].
    destruct (np_var_variance (p :: ps)) as [x [Hx [_ Hx0]]]; [discriminate|].
    rewrite Hx. exact Hx0.
  - rewrite (aggregate_prediction_mismatch ps ws Hlen) in Hr. discriminate.
Qed.

Lemma confidence_in_unit_interval_witness :
  (0 <= confidence
          {| aggregated_prediction := 0.5;
             individual_predictions := [0; 1]%Q;
             weights := [0; 0]%Q;
             prediction_variance := Some (8 # 32)%Q;
             confidence := 160 # 320;
             total_weight := 0 |} <= 1)%Q.
Proof.
  apply (confidence_in_unit_interval [0; 1]%Q [0; 0]%Q).
  vm_compute. reflexivity.
Defined.

(** X6.  In exact arithmetic, multiplying every weight by the same
    positive factor changes neither the aggregated prediction nor the
    confidence. *)
Theorem aggregation_scale_invariant (k : Q) (ps ws : list Q) :
  (0 < k)%Q -> length ps = length ws ->
  exists r r',
    aggregate_prediction ps ws = Ok r /\
    aggregate_prediction ps (map (Qmult k) ws) = Ok r' /\
    (aggregated_prediction r' == aggregated_prediction r)%Q /\
    confidence r' = confidence r.
Proof.
  intros Hk Hlen.
  assert (Hlen' : length ps = length (map (Qmult k) ws))
    by now rewrite length_map.
  destruct (aggregate_prediction_returns ps ws Hlen) as [P [Hr [HP HN]]].
  destruct (aggregate_prediction_returns ps _ Hlen') as [P' [Hr' [HP' HN']]].
  do 2 eexists. split; [exact Hr|]. split; [exact Hr'|]. cbn.
  split; [|reflexivity].
  pose proof (Sigma_scaled k ws) as HS.
  destruct (Qlt_le_dec 0 (Spec.Sigma ws)) as [Hpos|Hneg].
  - rewrite HP by exact Hpos.
    rewrite HP' by (rewrite HS; Lqa.nra).
    unfold Spec.weighted_mean. rewrite HS, dot_scaled. field.
    split; Lqa.lra.
  - rewrite HN by exact Hneg.
    rewrite HN' by (rewrite HS; Lqa.nra). reflexivity.
Qed.

Lemma aggregation_scale_invariant_witness :
  exists r r',
    aggregate_prediction [0.8; 0.4]%Q [1.0; 0.5]%Q = Ok r /\
    aggregate_prediction [0.8; 0.4]%Q (map (Qmult 3) [1.0; 0.5]%Q) = Ok r' /\
    (aggregated_prediction r' == aggregated_prediction r)%Q /\
    confidence r' = confidence r.
Proof.
  apply (aggregation_scale_invariant 3 [0.8; 0.4]%Q [1.0; 0.5]%Q);
    reflexivity.
Defined.

(** ** [explanation_aggregation]: outcomes, shares and ranking *)

Section ExplanationRanking.

Local Open Scope Q_scope.

Lemma explanation_aggregation_mismatch (es : list string) (ws : list Q) :
  length es <> length ws ->
  explanation_aggregation es ws =
  Raise (ValueError "Number of explanations must match number of weights").
Proof.
  intros Hlen. unfold explanation_aggregation.
  apply Nat.eqb_neq in Hlen. now rewrite Hlen.
Qed.

Lemma explanation_aggregation_empty :
  explanation_aggregation [] [] = Raise IndexError.
Proof. reflexivity. Qed.

(** What a successful call was given, and what it returns. *)
Lemma explanation_aggregation_ok (es : list string) (ws : list Q)
    (r : ExplanationAggregation) :
  explanation_aggregation es ws = Ok r ->
  length es = length ws /\ ws <> [] /\ ~ Py.sum ws == 0 /\
  weight_distribution r = map (fun w => w / Py.sum ws) ws /\
  total_helpers r = length es /\
  aggregated_explanations r =
    sort_by_contribution_desc
      (weighted_entries 0 (Py.zip es (weight_distribution r))) /\
  primary_explanation r =
    match aggregated_explanations r with
    | first :: _ => explanation first
    | [] => ""%string
    end.
Proof.
  intros Hr.
  destruct (Nat.eq_dec (length es) (length ws)) as [Hlen|Hlen].
  2:{ rewrite explanation_aggregation_mismatch in Hr by exact Hlen.
      discriminate. }
  destruct ws as [|w ws].
  { destruct es; [|discriminate]. discriminate Hr. }
  destruct (Qeq_dec (Py.sum (w :: ws)) 0) as [Hz|Hnz].
  { rewrite explanation_aggregation_zero_total in Hr;
      [discriminate | exact Hlen | discriminate | exact Hz]. }
  split; [exact Hlen|]. split; [discriminate|]. split; [exact Hnz|].
  revert Hr. unfold explanation_aggregation.
  rewrite Hlen, Nat.eqb_refl. cbn [negb].
  rewrite normalize_nonzero_total by exact Hnz. cbn [bind].
  destruct (sort_by_contribution_desc _) as [|first rest] eqn:Es;
    [discriminate|].
  intros Hr. injection Hr as <-.
  cbn [weight_distribution total_helpers aggregated_explanations
       primary_explanation].
  repeat split; try reflexivity. symmetry. exact Es.
Qed.

Lemma Sigma_normalized (ws : list Q) (total : Q) :
  Spec.Sigma (map (fun w => w / total) ws) == Spec.Sigma ws / total.
Proof.
  induction ws as [|w ws IH]; simpl.
  - unfold Qdiv. ring.
  - rewrite IH. unfold Qdiv. ring.
Qed.

Lemma insert_desc_permutation (x : WeightedExplanation)
    (l : list WeightedExplanation) :
  Permutation (insert_desc x l) (x :: l).
Proof.
  induction l as [|y l IH]; cbn [insert_desc]; [reflexivity|].
  destruct (Py.ltb _ _); [|reflexivity].
  rewrite IH. apply perm_swap.
Qed.

Lemma sort_permutation (l : list WeightedExplanation) :
  Permutation (sort_by_contribution_desc l) l.
Proof.
  induction l as [|x l IH]; [reflexivity|].
  cbn [sort_by_contribution_desc fold_right].
  fold (sort_by_contribution_desc l).
  rewrite insert_desc_permutation. now apply perm_skip.
Qed.

Lemma insert_desc_sorted (x : WeightedExplanation)
    (l : list WeightedExplanation) :
  StronglySorted ranked l -> StronglySorted ranked (insert_desc x l).
Proof.
  induction 1 as [|y l Hs IH Hy]; cbn [insert_desc].
  - repeat constructor.
  - destruct (ltb_cases (contribution x) (contribution y)) as [[E C]|[E C]];
      rewrite E.
    + constructor; [exact IH|].
      rewrite (insert_desc_permutation x l).
      constructor; [unfold ranked; Lqa.lra | exact Hy].
    + constructor; [now constructor|].
      constructor; [exact C|].
      eapply Forall_impl; [|exact Hy]. unfold ranked. intros z Hz. Lqa.lra.
Qed.

Lemma sort_sorted (l : list WeightedExplanation) :
  StronglySorted ranked (sort_by_contribution_desc l).
Proof.
  induction l as [|x l IH]; [constructor|].
  cbn [sort_by_contribution_desc fold_right]. now apply insert_desc_sorted.
Qed.

Lemma Sigma_contributions_permutation (l l' : list WeightedExplanation) :
  Permutation l l' ->
  Spec.Sigma (map contribution l) == Spec.Sigma (map contribution l').
Proof.
  induction 1 as [|x l l' _ IH|x y l|l l' l'' _ IH1 _ IH2]; simpl.
  - reflexivity.
  - now rewrite IH.
  - ring.
  - now rewrite IH1.
Qed.

Lemma entries_contributions (i : nat) (es : list string) (nws : list Q) :
  length es = length nws ->
  Spec.Sigma (map contribution (weighted_entries i (Py.zip es nws)))
  == Spec.Sigma nws * 100.
Proof.
  revert i nws. induction es as [|e es IH]; intros i [|w nws] Hlen;
    simpl in *; try discriminate; [ring|].
  rewrite IH by congruence. ring.
Qed.

End ExplanationRanking.

Section PrimaryExplanation.

Local Open Scope Q_scope.

Lemma insert_desc_head (x : WeightedExplanation)
    (l : list WeightedExplanation) :
  hd_error (insert_desc x l) =
  match hd_error l with
  | None => Some x
  | Some y => if Py.ltb (contribution x) (contribution y)
              then Some y else Some x
  end.
Proof.
  destruct l as [|y l]; cbn [insert_desc hd_error]; [reflexivity|].
  destruct (Py.ltb _ _); reflexivity.
Qed.

(** The stable descending sort puts the first entry of largest
    contribution in front. *)
Lemma sorted_head_first_largest (l : list WeightedExplanation) :
  hd_error (sort_by_contribution_desc l) = first_largest l.
Proof.
  induction l as [|x l IH]; [reflexivity|].
  cbn [sort_by_contribution_desc fold_right first_largest].
  fold (sort_by_contribution_desc l).
  rewrite insert_desc_head, IH. reflexivity.
Qed.

Lemma first_largest_nth (l : list WeightedExplanation)
    (y : WeightedExplanation) :
  first_largest l = Some y -> exists j, nth_error l j = Some y.
Proof.
  revert y. induction l as [|x l IH]; intros y; cbn [first_largest];
    [discriminate|].
  destruct (first_largest l) as [z|].
  - destruct (Py.ltb _ _); intros [= <-].
    + destruct (IH z eq_refl) as [j Hj]. now exists (S j).
    + now exists 0%nat.
  - intros [= <-]. now exists 0%nat.
Qed.

Lemma first_largest_at (l : list WeightedExplanation) (k : nat)
    (x : WeightedExplanation) :
  nth_error l k = Some x ->
  (forall j y, nth_error l j = Some y ->
     contribution y <= contribution x /\
     ((j < k)%nat -> contribution y < contribution x)) ->
  first_largest l = Some x.
Proof.
  revert k. induction l as [|z l IH]; intros k Hk Hmax;
    [destruct k; discriminate|].
  cbn [first_largest]. destruct k as [|k].
  - injection Hk as ->.
    destruct (first_largest l) as [y|] eqn:Ey; [|reflexivity].
    destruct (first_largest_nth l y Ey) as [j Hj].
    destruct (Hmax (S j) y Hj) as [Hle _].
    apply ltb_ge in Hle. now rewrite Hle.
  - cbn [nth_error] in Hk.
    rewrite (IH k Hk).
    + destruct (Hmax 0%nat z eq_refl) as [_ Hlt].
      assert (Hz : contribution z < contribution x) by (apply Hlt; lia).
      apply ltb_lt in Hz. now rewrite Hz.
    + intros j y Hj. destruct (Hmax (S j) y Hj) as [Hle Hlt].
      split; [exact Hle | intros; apply Hlt; lia].
Qed.

Lemma entries_nth (i : nat) (es : list string) (nws : list Q) (j : nat)
    (x : WeightedExplanation) :
  nth_error (weighted_entries i (Py.zip es nws)) j = Some x ->
  exists e w,
    nth_error es j = Some e /\ nth_error nws j = Some w /\
    explanation x = e /\ weight x = w /\ contribution x = w * 100.
Proof.
  revert i nws j. induction es as [|e es IH]; intros i [|w nws] j;
    cbn [Py.zip weighted_entries]; try (destruct j; discriminate).
  destruct j as [|j]; cbn [nth_error].
  - intros [= <-]. exists e, w. repeat split; reflexivity.
  - apply IH.
Qed.

Lemma entries_nth_some (i : nat) (es : list string) (nws : list Q)
    (j : nat) (e : string) (w : Q) :
  nth_error es j = Some e -> nth_error nws j = Some w ->
  exists x,
    nth_error (weighted_entries i (Py.zip es nws)) j = Some x /\
    explanation x = e /\ contribution x = w * 100.
Proof.
  revert i nws j. induction es as [|e' es IH]; intros i [|w' nws] j;
    try (destruct j; discriminate).
  destruct j as [|j]; cbn [nth_error Py.zip weighted_entries].
  - intros [= <-] [= <-]. eexists. split; [reflexivity|].
    split; reflexivity.
  - apply IH.
Qed.

End PrimaryExplanation.

(** X7.  [explanation_aggregation] returns exactly when it is given as
    many explanations as weights, at least one, and a total weight that
    is not zero; otherwise it raises [ValueError] (lengths differ),
    [IndexError] (no helper) or [ZeroDivisionError] (zero total). *)
Theorem explanation_aggregation_outcomes (es : list string) (ws : list Q) :
  (length es <> length ws ->
     explanation_aggregation es ws =
     Raise (ValueError "Number of explanations must match number of weights"))
  /\ (es = [] -> ws = [] -> explanation_aggregation es ws = Raise IndexError)
  /\ (length es = length ws -> ws <> [] -> (Spec.Sigma ws == 0)%Q ->
        explanation_aggregation es ws = Raise ZeroDivisionError)
  /\ (length es = length ws -> ws <> [] -> ~ (Spec.Sigma ws == 0)%Q ->
        exists r, explanation_aggregation es ws = Ok r).
Proof.
  pose proof (sum_Sigma ws) as HS.
  split; [apply explanation_aggregation_mismatch|].
  split; [intros -> ->; reflexivity|].
  split.
  - intros Hlen Hne Hz. apply explanation_aggregation_zero_total;
      [assumption | assumption | now rewrite HS].
  - intros Hlen Hne Hnz.
    destruct (explanation_aggregation_returns es ws Hlen Hne) as [r [Hr _]].
    + now rewrite HS.
    + now exists r.
Qed.

(** X8.  When [explanation_aggregation] returns, there is one ranked
    explanation per helper and, in exact arithmetic, the normalised
    weights it reports sum to 1 and the contributions of the ranked
    explanations sum to 100 (percent). *)
Theorem explanation_shares_sum (es : list string) (ws : list Q)
    (r : ExplanationAggregation) :
  explanation_aggregation es ws = Ok r ->
  (Spec.Sigma (weight_distribution r) == 1)%Q /\
  (Spec.Sigma (map contribution (aggregated_explanations r)) == 100)%Q /\
  length (aggregated_explanations r) = length es /\
  total_helpers r = length es.
Proof.
  intros Hr.
  destruct (explanation_aggregation_ok es ws r Hr)
    as (Hlen & Hne & Hnz & Hd & Ht & Ha & _).
  assert (H1 : (Spec.Sigma (weight_distribution r) == 1)%Q).
  { rewrite Hd, Sigma_normalized, <- sum_Sigma. field. exact Hnz. }
  assert (Hlen' : length es = length (weight_distribution r)).
  { rewrite Hd, length_map. exact Hlen. }
  split; [exact H1|]. split; [|split; [|exact Ht]].
  - rewrite Ha, (Sigma_contributions_permutation _ _ (sort_permutation _)).
    rewrite entries_contributions by exact Hlen'. rewrite H1. reflexivity.
  - rewrite Ha, (Permutation_length (sort_permutation _)).
    clear - Hlen'. generalize 0%nat.
    revert Hlen'. generalize (weight_distribution r) as nws.
    induction es as [|e es IH]; intros [|w nws] Hlen i;
      simpl in *; try discriminate; [reflexivity|].
    f_equal. apply IH. congruence.
Qed.

Lemma explanation_shares_sum_witness :
  let r :=
    {| aggregated_explanations :=
         [{| helper_id := "helper_2"; explanation := "b";
             weight := 30 / 40; contribution := 30 / 40 * 100 |};
          {| helper_id := "helper_1"; explanation := "a";
             weight := 10 / 40; contribution := 10 / 40 * 100 |}];
       total_helpers := 2;
       weight_distribution := [10 / 40; 30 / 40]%Q;
       primary_explanation := "b" |} in
  (Spec.Sigma (weight_distribution r) == 1)%Q /\
  (Spec.Sigma (map contribution (aggregated_explanations r)) == 100)%Q /\
  length (aggregated_explanations r) = length ["a"; "b"]%string /\
  total_helpers r = length ["a"; "b"]%string.
Proof.
  apply (explanation_shares_sum ["a"; "b"]%string [10; 30]%Q).
  vm_compute. reflexivity.
Defined.

(** X9.  When [explanation_aggregation] returns, the ranked explanations
    are the helpers' entries rearranged, in descending order of
    contribution, and the primary explanation is the one ranked first. *)
Theorem explanations_ranked (es : list string) (ws : list Q)
    (r : ExplanationAggregation) :
  explanation_aggregation es ws = Ok r ->
  Permutation (aggregated_explanations r)
    (weighted_entries 0 (Py.zip es (weight_distribution r))) /\
  StronglySorted ranked (aggregated_explanations r) /\
  exists first rest,
    aggregated_explanations r = first :: rest /\
    primary_explanation r = explanation first /\
    Forall (ranked first) rest.
Proof.
  intros Hr.
  destruct (explanation_aggregation_ok es ws r Hr)
    as (Hlen & Hne & Hnz & Hd & Ht & Ha & Hp).
  assert (Hs : StronglySorted ranked (aggregated_explanations r))
    by (rewrite Ha; apply sort_sorted).
  split; [rewrite Ha at 1; apply sort_permutation|].
  split; [exact Hs|].
  destruct (aggregated_explanations r) as [|first rest] eqn:E.
  - exfalso. destruct ws as [|w ws]; [now apply Hne|].
    destruct es as [|e es]; [discriminate|].
    rewrite Hd in Ha. cbn [map Py.zip] in Ha.
    symmetry in Ha. revert Ha. apply sorted_entries_nonempty.
  - exists first, rest. split; [reflexivity|]. split; [exact Hp|].
    now inversion Hs.
Qed.

Lemma explanations_ranked_witness :
  let r :=
    {| aggregated_explanations :=
         [{| helper_id := "helper_2"; explanation := "b";
             weight := 30 / 40; contribution := 30 / 40 * 100 |};
          {| helper_id := "helper_1"; explanation := "a";
             weight := 10 / 40; contribution := 10 / 40 * 100 |}];
       total_helpers := 2;
       weight_distribution := [10 / 40; 30 / 40]%Q;
       primary_explanation := "b" |} in
  Permutation (aggregated_explanations r)
    (weighted_entries 0 (Py.zip ["a"; "b"]%string (weight_distribution r))) /\
  StronglySorted ranked (aggregated_explanations r) /\
  exists first rest,
    aggregated_explanations r = first :: rest /\
    primary_explanation r = explanation first /\
    Forall (ranked first) rest.
Proof.
  apply (explanations_ranked ["a"; "b"]%string [10; 30]%Q).
  vm_compute. reflexivity.
Defined.

(** X10.  In exact arithmetic, where a larger weight has a larger
    share, and with a positive total weight, the primary explanation is
    the explanation of the heaviest helper, and among equally heavy
    helpers that of the one listed first. *)
Theorem primary_is_first_heaviest (es : list string) (ws : list Q)
    (k : nat) (e : string) (w : Q) :
  length es = length ws -> (0 < Spec.Sigma ws)%Q ->
  nth_error es k = Some e -> nth_error ws k = Some w ->
  (forall j wj, nth_error ws j = Some wj ->
     (wj <= w)%Q /\ ((j < k)%nat -> (wj < w)%Q)) ->
  exists r,
    explanation_aggregation es ws = Ok r /\ primary_explanation r = e.
Proof.
  intros Hlen Hpos He Hw Hmax.
  pose proof (sum_Sigma ws) as HS.
  assert (Hne : ws <> []) by (intros ->; destruct k; discriminate).
  assert (Hnz : ~ (Py.sum ws == 0)%Q) by (rewrite HS; Lqa.lra).
  destruct (explanation_aggregation_returns es ws Hlen Hne Hnz) as [r [Hr _]].
  exists r. split; [exact Hr|].
  destruct (explanation_aggregation_ok es ws r Hr)
    as (_ & _ & _ & Hd & _ & Ha & Hp).
  assert (HT : (0 < Py.sum ws)%Q) by (rewrite HS; exact Hpos).
  remember (Py.sum ws) as T eqn:ET. clear ET HS Hnz.
  assert (HiT : (0 < / T)%Q) by now apply Qinv_lt_0_compat.
  assert (Hnw : nth_error (weight_distribution r) k = Some (w / T)%Q).
  { rewrite Hd, nth_error_map, Hw. reflexivity. }
  destruct (entries_nth_some 0 es (weight_distribution r) k e (w / T)%Q He Hnw)
    as [x [Hx [Hxe Hxc]]].
  assert (Hfirst :
    first_largest (weighted_entries 0 (Py.zip es (weight_distribution r)))
    = Some x).
  { apply (first_largest_at _ k x Hx). intros j y Hy.
    destruct (entries_nth _ _ _ _ _ Hy) as (e' & w' & _ & Hw' & _ & _ & Hyc).
    rewrite Hd, nth_error_map in Hw'.
    destruct (nth_error ws j) as [wj|] eqn:Ej; [|discriminate].
    cbn in Hw'. injection Hw' as <-.
    destruct (Hmax j wj Ej) as [Hle Hlt].
    rewrite Hyc, Hxc. unfold Qdiv. split.
    - Lqa.nra.
    - intros Hjk. specialize (Hlt Hjk). Lqa.nra. }
  rewrite <- sorted_head_first_largest, <- Ha in Hfirst.
  rewrite Hp. destruct (aggregated_explanations r) as [|first rest];
    [discriminate|].
  cbn in Hfirst. injection Hfirst as ->. exact Hxe.
Qed.

Lemma primary_is_first_heaviest_witness :
  exists r,
    explanation_aggregation ["a"; "b"; "c"]%string [1.0; 1.2; 1.2]%Q = Ok r /\
    primary_explanation r = "b"%string.
Proof.
  apply (primary_is_first_heaviest ["a"; "b"; "c"]%string [1.0; 1.2; 1.2]%Q
           1%nat "b"%string 1.2%Q).
  - reflexivity.
  - reflexivity.
  - reflexivity.
  - reflexivity.
  - intros [|[|[|j]]] wj Hj; cbn in Hj;
      try (destruct j; discriminate);
      injection Hj as <-; split; try discriminate; try reflexivity; lia.
Defined.

(** ** Kepler's third law: the other direction, the law itself, the edges *)

Section KeplerLaws.

Import Orbit.
Local Open Scope R_scope.

(** In exact arithmetic the test on the planet mass changes nothing. *)
Lemma planet_mass_term (planet_mass : R) :
  (if Req_dec_T planet_mass 0 then 0 else planet_mass * M_earth)
  = planet_mass * M_earth.
Proof.
  destruct (Req_dec_T planet_mass 0) as [->|_]; [ring | reflexivity].
Qed.

Lemma system_mass_pos (stellar_mass planet_mass : R) :
  0 < stellar_mass -> 0 <= planet_mass ->
  0 < stellar_mass * M_sun + planet_mass * M_earth.
Proof.
  intros Hs Hp. pose proof M_sun_pos. pose proof M_earth_pos. Lra.nra.
Qed.

Lemma distance_to_period_value (stellar_mass planet_mass a : R) :
  0 < stellar_mass * M_sun + planet_mass * M_earth -> 0 < a ->
  let total_mass := stellar_mass * M_sun + planet_mass * M_earth in
  let P_sec := sqrt (4 * PI ^ 2 * (a * AU) ^ 3 / (G * total_mass)) in
  keplers_third_law stellar_mass planet_mass None (Some a) =
  Ok {| orbital_period_days := P_sec / (24 * 3600);
        orbital_period_years := Some (P_sec / (24 * 3600) / 365.25);
        orbital_distance_au := a;
        orbital_distance_m := a * AU;
        stellar_mass_solar := stellar_mass;
        planet_mass_earth := planet_mass;
        total_mass_kg := total_mass;
        calculation_type := distance_to_period |}.
Proof.
  intros Hm Ha total_mass P_sec.
  pose proof G_pos. pose proof AU_pos. pose proof four_pi_squared_pos.
  unfold keplers_third_law. rewrite planet_mass_term. fold total_mass.
  rewrite float_div_ok by (unfold total_mass; Lra.nra). cbn [bind].
  rewrite np_sqrt_ok.
  2:{ apply Rlt_le, Rdiv_lt_0_compat; [|unfold total_mass; Lra.nra].
      apply Rmult_lt_0_compat; [assumption|].
      apply pow_lt. Lra.nra. }
  cbn [bind]. rewrite float_div_ok by Lra.lra. cbn [bind].
  rewrite float_div_ok by Lra.lra. reflexivity.
Qed.

Lemma period_to_distance_value (stellar_mass planet_mass P : R) :
  0 < stellar_mass * M_sun + planet_mass * M_earth -> P <> 0 ->
  let total_mass := stellar_mass * M_sun + planet_mass * M_earth in
  let a_m :=
    Rpower (G * total_mass * (P * 24 * 3600) ^ 2 / (4 * PI ^ 2)) (1 / 3) in
  keplers_third_law stellar_mass planet_mass (Some P) None =
  Ok {| orbital_period_days := P;
        orbital_period_years := None;
        orbital_distance_au := a_m / AU;
        orbital_distance_m := a_m;
        stellar_mass_solar := stellar_mass;
        planet_mass_earth := planet_mass;
        total_mass_kg := total_mass;
        calculation_type := period_to_distance |}.
Proof.
  intros Hm HP total_mass a_m.
  pose proof G_pos. pose proof AU_pos. pose proof four_pi_squared_pos.
  unfold keplers_third_law. rewrite planet_mass_term. fold total_mass.
  rewrite float_div_ok by Lra.lra. cbn [bind].
  rewrite float_div_ok by Lra.lra. cbn [bind].
  rewrite float_pow_pos.
  2:{ apply Rdiv_lt_0_compat; [|assumption].
      apply Rmult_lt_0_compat; [unfold total_mass; Lra.nra|].
      destruct (Rdichotomy _ _ HP); simpl; Lra.nra. }
  cbn [bind]. rewrite float_div_ok by Lra.lra. reflexivity.
Qed.

Lemma cube_of_cube_root (x : R) : 0 < x -> Rpower x (1 / 3) ^ 3 = x.
Proof.
  intros Hx. rewrite <- Rpower_pow by apply exp_pos.
  rewrite Rpower_mult.
  replace (1 / 3 * INR 3) with 1 by (simpl; Lra.lra).
  now apply Rpower_1.
Qed.

End KeplerLaws.

(** X11.  The other round trip of Kepler's third law: for a positive
    stellar mass, a planet mass that is zero (the default) or positive,
    and a positive period, the distance computed from the period, given
    back with the same masses, returns the period. *)
Theorem kepler_period_round_trip (stellar_mass planet_mass P : R) :
  (0 < stellar_mass)%R -> (0 <= planet_mass)%R -> (0 < P)%R ->
  exists there back,
    Orbit.keplers_third_law stellar_mass planet_mass (Some P) None = Ok there /\
    Orbit.keplers_third_law stellar_mass planet_mass None
      (Some (Orbit.orbital_distance_au there)) = Ok back /\
    Orbit.orbital_period_days back = P.
Proof.
  intros Hs Hp HP.
  pose proof (system_mass_pos _ _ Hs Hp) as Hm.
  pose proof G_pos as HG. pose proof AU_pos as HAU.
  pose proof four_pi_squared_pos as Hpi.
  set (total_mass := (stellar_mass * Orbit.M_sun + planet_mass * Orbit.M_earth)%R) in *.
  set (q := (Orbit.G * total_mass * (P * 24 * 3600) ^ 2 / (4 * PI ^ 2))%R).
  assert (Hq : (0 < q)%R).
  { unfold q. apply Rdiv_lt_0_compat; [|assumption].
    apply Rmult_lt_0_compat; [Lra.nra|]. apply pow_lt. Lra.lra. }
  assert (Ha : (0 < Rpower q (1 / 3) / Orbit.AU)%R).
  { apply Rdiv_lt_0_compat; [apply exp_pos | assumption]. }
  do 2 eexists.
  split; [apply period_to_distance_value; [assumption | Lra.lra]|].
  cbn [Orbit.orbital_distance_au]. fold total_mass. fold q.
  split; [apply distance_to_period_value; assumption|].
  cbn [Orbit.orbital_period_days]. fold total_mass.
  replace (Rpower q (1 / 3) / Orbit.AU * Orbit.AU)%R with (Rpower q (1 / 3))
    by (field; Lra.lra).
  rewrite cube_of_cube_root by exact Hq.
  replace (4 * PI ^ 2 * q / (Orbit.G * total_mass))%R
    with ((P * 24 * 3600) ^ 2)%R.
  - rewrite <- Rsqr_pow2, sqrt_Rsqr by Lra.lra. field.
  - unfold q. field. pose proof PI_RGT_0. repeat split; Lra.lra.
Qed.

Lemma kepler_period_round_trip_witness :
  exists there back,
    Orbit.keplers_third_law 1 0 (Some 365.25%R) None = Ok there /\
    Orbit.keplers_third_law 1 0 None
      (Some (Orbit.orbital_distance_au there)) = Ok back /\
    Orbit.orbital_period_days back = 365.25%R.
Proof.
  apply (kepler_period_round_trip 1 0 365.25); Lra.lra.
Defined.

(** X12.  In exact real arithmetic, what [keplers_third_law] returns
    satisfies Kepler's third law, [P² · G · (M* + Mp) = 4π² · a³] with
    the period in seconds and the distance in metres, in either
    direction, and its two distances agree
    ([metres = AU · 1.495978707e11]). *)
Theorem kepler_law_holds (stellar_mass planet_mass x : R)
    (period_given : bool) :
  (0 < stellar_mass)%R -> (0 <= planet_mass)%R -> (0 < x)%R ->
  exists r,
    Orbit.keplers_third_law stellar_mass planet_mass
      (if period_given then Some x else None)
      (if period_given then None else Some x) = Ok r /\
    ((Orbit.orbital_period_days r * 24 * 3600) ^ 2
       * Orbit.G * Orbit.total_mass_kg r
     = 4 * PI ^ 2 * Orbit.orbital_distance_m r ^ 3)%R /\
    Orbit.orbital_distance_m r = (Orbit.orbital_distance_au r * Orbit.AU)%R /\
    Orbit.total_mass_kg r
      = (stellar_mass * Orbit.M_sun + planet_mass * Orbit.M_earth)%R.
Proof.
  intros Hs Hp Hx.
  pose proof (system_mass_pos _ _ Hs Hp) as Hm.
  pose proof G_pos as HG. pose proof AU_pos as HAU.
  pose proof four_pi_squared_pos as Hpi.
  set (total_mass := (stellar_mass * Orbit.M_sun + planet_mass * Orbit.M_earth)%R) in *.
  destruct period_given; eexists.
  - split; [apply period_to_distance_value; [assumption | Lra.lra]|].
    cbn [Orbit.orbital_period_days Orbit.total_mass_kg
         Orbit.orbital_distance_m Orbit.orbital_distance_au].
    fold total_mass.
    split; [|split; [field; Lra.lra | reflexivity]].
    rewrite cube_of_cube_root.
    + field. pose proof PI_RGT_0. Lra.lra.
    + apply Rdiv_lt_0_compat; [|assumption].
      apply Rmult_lt_0_compat; [Lra.nra|]. apply pow_lt. Lra.lra.
  - split; [apply distance_to_period_value; assumption|].
    cbn [Orbit.orbital_period_days Orbit.total_mass_kg
         Orbit.orbital_distance_m Orbit.orbital_distance_au].
    fold total_mass.
    split; [|split; reflexivity].
    set (q := (4 * PI ^ 2 * (x * Orbit.AU) ^ 3 / (Orbit.G * total_mass))%R).
    assert (Hq : (0 <= q)%R).
    { unfold q. apply Rlt_le, Rdiv_lt_0_compat; [|Lra.nra].
      apply Rmult_lt_0_compat; [assumption|]. apply pow_lt. Lra.nra. }
    replace (sqrt q / (24 * 3600) * 24 * 3600)%R with (sqrt q)
      by (field; Lra.lra).
    rewrite pow2_sqrt by exact Hq. unfold q. field. Lra.lra.
Qed.

Lemma kepler_law_holds_witness :
  exists r,
    Orbit.keplers_third_law 1 0 None (Some 1%R) = Ok r /\
    ((Orbit.orbital_period_days r * 24 * 3600) ^ 2
       * Orbit.G * Orbit.total_mass_kg r
     = 4 * PI ^ 2 * Orbit.orbital_distance_m r ^ 3)%R /\
    Orbit.orbital_distance_m r = (Orbit.orbital_distance_au r * Orbit.AU)%R /\
    Orbit.total_mass_kg r = (1 * Orbit.M_sun + 0 * Orbit.M_earth)%R.
Proof.
  apply (kepler_law_holds 1 0 1 false); Lra.lra.
Defined.

(** The edges of [keplers_third_law]: without a period and without
    a distance it raises [ValueError]; for a system without mass a
    distance makes it divide by zero, while a period gives the distance
    0. *)
Lemma kepler_edges (x : R) :
  (forall stellar_mass planet_mass,
     Orbit.keplers_third_law stellar_mass planet_mass None None =
     Raise (Orbit.Raised
              (ValueError "Must provide either orbital_period or orbital_distance")))
  /\ Orbit.keplers_third_law 0 0 None (Some x)
      = Raise (Orbit.Raised ZeroDivisionError)
  /\ exists r,
      Orbit.keplers_third_law 0 0 (Some x) None = Ok r /\
      Orbit.orbital_distance_au r = 0%R /\ Orbit.orbital_distance_m r = 0%R.
Proof.
  pose proof four_pi_squared_pos as Hpi. pose proof AU_pos as HAU.
  split; [reflexivity|]. split.
  - unfold Orbit.keplers_third_law. rewrite planet_mass_term.
    unfold Orbit.float_div at 1.
    destruct (Req_dec_T _ 0) as [_|Hn]; [reflexivity|].
    exfalso. apply Hn. ring.
  - unfold Orbit.keplers_third_law. rewrite planet_mass_term.
    rewrite float_div_ok by Lra.lra. cbn [bind].
    rewrite float_div_ok by Lra.lra. cbn [bind].
    replace (Orbit.G * (0 * Orbit.M_sun + 0 * Orbit.M_earth)
             * (x * 24 * 3600) ^ 2 / (4 * PI ^ 2))%R with 0%R
      by (field; pose proof PI_RGT_0; Lra.lra).
    unfold Orbit.float_pow.
    destruct (Rlt_dec 0 0) as [Hlt|_]; [Lra.lra|].
    destruct (Req_dec_T 0 0) as [_|Hn]; [|contradiction].
    cbn [bind]. rewrite float_div_ok by Lra.lra.
    eexists. split; [reflexivity|]. cbn. split; [field; Lra.lra | reflexivity].
Qed.


(** ** The other formulas *)

Section PhysicsFacts.

Import Orbit Physics.
Local Open Scope R_scope.

Lemma c_pos : 0 < c.
Proof. unfold c. Lra.lra. Qed.

Lemma sigma_pos : 0 < sigma.
Proof. unfold sigma. Lra.lra. Qed.

Lemma R_sun_pos : 0 < R_sun.
Proof. unfold R_sun. Lra.lra. Qed.

Lemma R_earth_pos : 0 < R_earth.
Proof. unfold R_earth. Lra.lra. Qed.

Lemma L_sun_pos : 0 < L_sun.
Proof. unfold L_sun. Lra.lra. Qed.

Lemma np_div_ok (a b : R) : b <> 0 -> np_div a b = Ok (a / b).
Proof.
  intros Hb. unfold np_div. destruct (Req_dec_T b 0); [contradiction | reflexivity].
Qed.

Lemma float_div_zero (a : R) : float_div a 0 = Raise (Raised ZeroDivisionError).
Proof.
  unfold float_div. destruct (Req_dec_T 0 0); [reflexivity | contradiction].
Qed.

Lemma np_sqrt_negative (x : R) : x < 0 -> np_sqrt x = Raise NotReal.
Proof.
  intros Hx. unfold np_sqrt. destruct (Rle_dec 0 x); [Lra.lra | reflexivity].
Qed.

Lemma transit_method_depth_value (planet_radius stellar_radius : R) :
  stellar_radius <> 0 ->
  let ratio := planet_radius * R_earth / (stellar_radius * R_sun) in
  transit_method_depth planet_radius stellar_radius =
  Ok {| transit_depth_fraction := ratio ^ 2;
        transit_depth_ppm := ratio ^ 2 * 1e6;
        transit_depth_percent := ratio ^ 2 * 100;
        radius_ratio := ratio;
        planet_radius_earth := planet_radius;
        stellar_radius_solar := stellar_radius |}.
Proof.
  intros Hs ratio. pose proof R_sun_pos. unfold transit_method_depth.
  rewrite float_div_ok; [reflexivity|].
  intros Hz. apply Rmult_integral in Hz. destruct Hz; [contradiction | Lra.lra].
Qed.

Lemma given_nonzero (v : R) : v <> 0 -> given (Some v) = Some v.
Proof.
  intros Hv. unfold given. destruct (Req_dec_T v 0); [contradiction | reflexivity].
Qed.

Lemma given_zero : given (Some 0) = None.
Proof.
  unfold given. destruct (Req_dec_T 0 0); [reflexivity | contradiction].
Qed.

End PhysicsFacts.

(** [transit_method_depth] divides by the stellar radius: it raises
    [ZeroDivisionError] exactly when the stellar radius is zero;
    otherwise it returns a depth that is never negative and is the
    square of the radius ratio it reports. *)
Lemma transit_depth_outcome (planet_radius stellar_radius : R) :
  (stellar_radius = 0%R ->
     Physics.transit_method_depth planet_radius stellar_radius
     = Raise (Orbit.Raised ZeroDivisionError))
  /\ (stellar_radius <> 0%R ->
      exists r,
        Physics.transit_method_depth planet_radius stellar_radius = Ok r /\
        (0 <= Physics.transit_depth_fraction r)%R /\
        Physics.transit_depth_fraction r = (Physics.radius_ratio r ^ 2)%R /\
        (Physics.radius_ratio r * (stellar_radius * Physics.R_sun)
         = planet_radius * Physics.R_earth)%R).
Proof.
  split.
  - intros ->. unfold Physics.transit_method_depth.
    replace (0 * Physics.R_sun)%R with 0%R by ring.
    now rewrite float_div_zero.
  - intros Hs. eexists.
    split; [apply transit_method_depth_value; exact Hs|]. cbn.
    split; [apply pow2_ge_0|]. split; [reflexivity|].
    pose proof R_sun_pos. field. Lra.lra.
Qed.

(** X13.  In exact real arithmetic, the transit depth depends on the
    ratio of the radii only: scaling both radii by the same non-zero
    factor leaves it unchanged, and scaling the planet radius alone by
    [k] multiplies it by [k²]. *)
Theorem transit_depth_scaling (planet_radius stellar_radius k : R) :
  stellar_radius <> 0%R -> k <> 0%R ->
  exists r both planet_only,
    Physics.transit_method_depth planet_radius stellar_radius = Ok r /\
    Physics.transit_method_depth (k * planet_radius) (k * stellar_radius)
      = Ok both /\
    Physics.transit_method_depth (k * planet_radius) stellar_radius
      = Ok planet_only /\
    Physics.transit_depth_fraction both = Physics.transit_depth_fraction r /\
    Physics.transit_depth_fraction planet_only
      = (k ^ 2 * Physics.transit_depth_fraction r)%R.
Proof.
  intros Hs Hk. pose proof R_sun_pos.
  assert (Hks : (k * stellar_radius)%R <> 0%R).
  { intros Hz. apply Rmult_integral in Hz. now destruct Hz. }
  do 3 eexists.
  split; [apply transit_method_depth_value; exact Hs|].
  split; [apply transit_method_depth_value; exact Hks|].
  split; [apply transit_method_depth_value; exact Hs|]. cbn.
  split; field; repeat split; Lra.lra.
Qed.

Lemma transit_depth_scaling_witness :
  exists r both planet_only,
    Physics.transit_method_depth 1 1 = Ok r /\
    Physics.transit_method_depth (2 * 1) (2 * 1) = Ok both /\
    Physics.transit_method_depth (2 * 1) 1 = Ok planet_only /\
    Physics.transit_depth_fraction both = Physics.transit_depth_fraction r /\
    Physics.transit_depth_fraction planet_only
      = (2 ^ 2 * Physics.transit_depth_fraction r)%R.
Proof.
  apply (transit_depth_scaling 1 1 2); Lra.lra.
Defined.

(** X14.  In exact real arithmetic, in [complete_system_analysis], when
    no planet radius is given but a positive transit depth and a stellar
    radius are, the planet radius inferred from the depth reproduces that
    depth: the transit analysis reports the depth it was given. *)
Theorem transit_depth_round_trip (depth stellar_radius : R) :
  (0 < depth)%R -> stellar_radius <> 0%R ->
  exists t,
    Physics.transit_analysis_step None (Some depth) stellar_radius
      = Ok (Some t) /\
    Physics.transit_depth_fraction t = depth /\
    Physics.planet_radius_earth t
      = (sqrt depth * stellar_radius * (Physics.R_sun / Physics.R_earth))%R.
Proof.
  intros Hd Hs. pose proof R_sun_pos. pose proof R_earth_pos.
  unfold Physics.transit_analysis_step.
  rewrite !given_nonzero by Lra.lra. cbn [Physics.given].
  rewrite np_sqrt_ok by Lra.lra. cbn [bind].
  rewrite float_div_ok by Lra.lra. cbn [bind].
  rewrite transit_method_depth_value by exact Hs. cbn [bind].
  eexists. split; [reflexivity|]. cbn. split; [|reflexivity].
  replace (sqrt depth * stellar_radius * (Physics.R_sun / Physics.R_earth)
           * Physics.R_earth / (stellar_radius * Physics.R_sun))%R
    with (sqrt depth) by (field; repeat split; Lra.lra).
  replace (sqrt depth * (sqrt depth * 1))%R with (sqrt depth * sqrt depth)%R
    by ring.
  apply sqrt_sqrt. Lra.lra.
Qed.

Lemma transit_depth_round_trip_witness :
  exists t,
    Physics.transit_analysis_step None (Some 1%R) 1 = Ok (Some t) /\
    Physics.transit_depth_fraction t = 1%R /\
    Physics.planet_radius_earth t
      = (sqrt 1 * 1 * (Physics.R_sun / Physics.R_earth))%R.
Proof.
  apply (transit_depth_round_trip 1 1); Lra.lra.
Defined.

Section StarAndOrbitFacts.

Import Orbit Physics.
Local Open Scope R_scope.

Lemma stefan_boltzmann_value (stellar_radius stellar_temperature : R) :
  let R_s := stellar_radius * R_sun in
  let watts := 4 * PI * R_s ^ 2 * sigma * stellar_temperature ^ 4 in
  stefan_boltzmann_law stellar_radius stellar_temperature =
  Ok {| stellar_luminosity_watts := watts;
        stellar_luminosity_solar := watts / L_sun;
        sl_stellar_radius_solar := stellar_radius;
        stellar_radius_m := R_s;
        stellar_temperature_k := stellar_temperature;
        surface_area_m2 := 4 * PI * R_s ^ 2;
        stefan_boltzmann_constant := sigma |}.
Proof.
  intros R_s watts. pose proof L_sun_pos. unfold stefan_boltzmann_law.
  rewrite float_div_ok by Lra.lra. reflexivity.
Qed.

Lemma habitable_zone_value (L : R) :
  0 <= L ->
  habitable_zone_calculation L =
  Ok {| conservative_inner_au := 0.95 * sqrt L;
        conservative_outer_au := 1.37 * sqrt L;
        optimistic_inner_au := 0.75 * sqrt L;
        optimistic_outer_au := 1.77 * sqrt L;
        habitable_zone_width_au := 1.37 * sqrt L - 0.95 * sqrt L;
        hz_stellar_luminosity_solar := L |}.
Proof.
  intros HL. unfold habitable_zone_calculation.
  rewrite np_sqrt_ok by exact HL. reflexivity.
Qed.

(** The quantity whose fourth root is the equilibrium temperature. *)
Lemma equilibrium_temperature_value (L a A : R) :
  0 < L -> a <> 0 -> A < 1 ->
  let flux := L * L_sun / (4 * PI * (a * AU) ^ 2) in
  let T := Rpower (flux * (1 - A) / (4 * sigma)) (1 / 4) in
  equilibrium_temperature L a A =
  Ok {| equilibrium_temperature_k := T;
        equilibrium_temperature_c := T - 273.15;
        stellar_flux_w_m2 := flux;
        et_orbital_distance_au := a;
        et_stellar_luminosity_solar := L;
        albedo := A |} /\
  0 < flux.
Proof.
  intros HL Ha HA flux T.
  pose proof L_sun_pos. pose proof AU_pos. pose proof sigma_pos.
  pose proof PI_RGT_0 as Hpi.
  assert (Hsq : 0 < (a * AU) ^ 2).
  { assert (a * AU <> 0) by (intros Hz; apply Rmult_integral in Hz;
                              destruct Hz; [contradiction | Lra.lra]).
    assert (0 < (a * AU) * (a * AU)) by
      (destruct (Rdichotomy _ _ H2); Lra.nra).
    simpl. Lra.lra. }
  assert (Hden : 0 < 4 * PI * (a * AU) ^ 2) by Lra.nra.
  assert (Hflux : 0 < flux).
  { unfold flux. apply Rdiv_lt_0_compat; [Lra.nra | exact Hden]. }
  split; [|exact Hflux].
  unfold equilibrium_temperature.
  rewrite float_div_ok by Lra.lra. cbn [bind]. fold flux.
  rewrite float_div_ok by Lra.lra. cbn [bind].
  rewrite float_div_ok by Lra.lra. cbn [bind].
  rewrite float_pow_pos; [reflexivity|].
  apply Rdiv_lt_0_compat; [Lra.nra | Lra.lra].
Qed.

Lemma square_lt (x y : R) : 0 < x -> x < y -> x ^ 2 < y ^ 2.
Proof. intros Hx Hxy. simpl. Lra.nra. Qed.

End StarAndOrbitFacts.

(** X15.  In exact real arithmetic, the Stefan-Boltzmann luminosity
    scales with the square of the stellar radius and the fourth power of
    the temperature, is the reported surface area times [σ·T⁴], and in
    solar units times [L_sun] gives the watts back. *)
Theorem stefan_boltzmann_scaling (stellar_radius stellar_temperature k : R) :
  exists r wider hotter,
    Physics.stefan_boltzmann_law stellar_radius stellar_temperature = Ok r /\
    Physics.stefan_boltzmann_law (k * stellar_radius) stellar_temperature
      = Ok wider /\
    Physics.stefan_boltzmann_law stellar_radius (k * stellar_temperature)
      = Ok hotter /\
    Physics.stellar_luminosity_watts wider
      = (k ^ 2 * Physics.stellar_luminosity_watts r)%R /\
    Physics.stellar_luminosity_watts hotter
      = (k ^ 4 * Physics.stellar_luminosity_watts r)%R /\
    Physics.stellar_luminosity_watts r
      = (Physics.surface_area_m2 r * Physics.sigma * stellar_temperature ^ 4)%R /\
    (Physics.stellar_luminosity_solar r * Physics.L_sun
     = Physics.stellar_luminosity_watts r)%R.
Proof.
  pose proof L_sun_pos.
  do 3 eexists. repeat (split; [apply stefan_boltzmann_value|]). cbn.
  repeat split; try ring. field. Lra.lra.
Qed.

(** X16.  For a luminosity that is not negative, the habitable zone is
    well formed: the optimistic zone contains the conservative one, so a
    distance inside the conservative zone is inside the optimistic
    zone. *)
Theorem habitable_zones_nested (L : R) :
  (0 <= L)%R ->
  exists hz,
    Physics.habitable_zone_calculation L = Ok hz /\
    (Physics.optimistic_inner_au hz <= Physics.conservative_inner_au hz)%R /\
    (Physics.conservative_inner_au hz <= Physics.conservative_outer_au hz)%R /\
    (Physics.conservative_outer_au hz <= Physics.optimistic_outer_au hz)%R /\
    (forall d : R,
       (Physics.conservative_inner_au hz <= d
          <= Physics.conservative_outer_au hz)%R ->
       (Physics.optimistic_inner_au hz <= d
          <= Physics.optimistic_outer_au hz)%R).
Proof.
  intros HL. pose proof (sqrt_pos L) as Hs.
  eexists. split; [apply habitable_zone_value; exact HL|]. cbn.
  repeat split; Lra.lra.
Qed.

Lemma habitable_zones_nested_witness :
  exists hz,
    Physics.habitable_zone_calculation 1 = Ok hz /\
    (Physics.optimistic_inner_au hz <= Physics.conservative_inner_au hz)%R /\
    (Physics.conservative_inner_au hz <= Physics.conservative_outer_au hz)%R /\
    (Physics.conservative_outer_au hz <= Physics.optimistic_outer_au hz)%R /\
    (forall d : R,
       (Physics.conservative_inner_au hz <= d
          <= Physics.conservative_outer_au hz)%R ->
       (Physics.optimistic_inner_au hz <= d
          <= Physics.optimistic_outer_au hz)%R).
Proof.
  apply (habitable_zones_nested 1). Lra.lra.
Defined.

(** A negative luminosity has no habitable zone: the square root is not
    a real number (NumPy answers NaN). *)
Lemma habitable_zone_negative_luminosity (L : R) :
  (L < 0)%R ->
  Physics.habitable_zone_calculation L = Raise Orbit.NotReal.
Proof.
  intros HL. unfold Physics.habitable_zone_calculation.
  now rewrite np_sqrt_negative.
Qed.

(** X17.  In exact real arithmetic, for a positive luminosity and an
    albedo below 1, a planet farther from its star is colder and
    receives less flux: the equilibrium temperature and the flux
    strictly decrease with the orbital distance. *)
Theorem farther_is_colder (L albedo near far : R) :
  (0 < L)%R -> (albedo < 1)%R -> (0 < near < far)%R ->
  exists tn tf,
    Physics.equilibrium_temperature L near albedo = Ok tn /\
    Physics.equilibrium_temperature L far albedo = Ok tf /\
    (Physics.stellar_flux_w_m2 tf < Physics.stellar_flux_w_m2 tn)%R /\
    (Physics.equilibrium_temperature_k tf
       < Physics.equilibrium_temperature_k tn)%R /\
    (0 < Physics.equilibrium_temperature_k tf)%R.
Proof.
  intros HL HA [Hn Hnf].
  pose proof L_sun_pos. pose proof AU_pos. pose proof sigma_pos.
  pose proof PI_RGT_0 as Hpi.
  destruct (equilibrium_temperature_value L near albedo) as [En Fn];
    [Lra.lra | Lra.lra | Lra.lra |].
  destruct (equilibrium_temperature_value L far albedo) as [Ef Ff];
    [Lra.lra | Lra.lra | Lra.lra |].
  do 2 eexists. split; [exact En|]. split; [exact Ef|]. cbn.
  assert (Hflux :
    (L * Physics.L_sun / (4 * PI * (far * Orbit.AU) ^ 2)
     < L * Physics.L_sun / (4 * PI * (near * Orbit.AU) ^ 2))%R).
  { unfold Rdiv. apply Rmult_lt_compat_l; [Lra.nra|].
    apply Rinv_lt_contravar.
    - apply Rmult_lt_0_compat; apply Rmult_lt_0_compat;
        try Lra.lra; apply pow_lt; Lra.nra.
    - apply Rmult_lt_compat_l; [Lra.lra|].
      apply square_lt; Lra.nra. }
  split; [exact Hflux|]. split; [|apply exp_pos].
  apply Rlt_Rpower_l; [Lra.lra|]. split.
  - apply Rdiv_lt_0_compat; [|Lra.lra].
    apply Rmult_lt_0_compat; [exact Ff | Lra.lra].
  - unfold Rdiv. apply Rmult_lt_compat_r;
      [apply Rinv_0_lt_compat; Lra.lra|].
    apply Rmult_lt_compat_r; [Lra.lra | exact Hflux].
Qed.

Lemma farther_is_colder_witness :
  exists tn tf,
    Physics.equilibrium_temperature 1 1 0.3 = Ok tn /\
    Physics.equilibrium_temperature 1 2 0.3 = Ok tf /\
    (Physics.stellar_flux_w_m2 tf < Physics.stellar_flux_w_m2 tn)%R /\
    (Physics.equilibrium_temperature_k tf
       < Physics.equilibrium_temperature_k tn)%R /\
    (0 < Physics.equilibrium_temperature_k tf)%R.
Proof.
  apply (farther_is_colder 1 0.3 1 2); Lra.lra.
Defined.

(** X18.  The direction of the Doppler shift, for a positive rest
    wavelength: a star that recedes (radial velocity not negative) is
    never seen at a shorter wavelength than the rest wavelength, a star
    that approaches never at a longer one, and a star at rest is seen at
    the rest wavelength, with no shift. *)
Theorem doppler_shift_direction (radial_velocity rest_wavelength : R) :
  (0 < rest_wavelength)%R ->
  exists r,
    Physics.radial_velocity_doppler_shift radial_velocity rest_wavelength
      = Ok r /\
    ((0 <= radial_velocity)%R ->
       (0 <= Physics.wavelength_shift_ratio r)%R /\
       (0 <= Physics.wavelength_shift_nm r)%R /\
       (Physics.rest_wavelength_nm r <= Physics.observed_wavelength_nm r)%R) /\
    ((radial_velocity <= 0)%R ->
       (Physics.wavelength_shift_ratio r <= 0)%R /\
       (Physics.wavelength_shift_nm r <= 0)%R /\
       (Physics.observed_wavelength_nm r <= Physics.rest_wavelength_nm r)%R) /\
    (radial_velocity = 0%R ->
       Physics.wavelength_shift_nm r = 0%R /\
       Physics.observed_wavelength_nm r = Physics.rest_wavelength_nm r).
Proof.
  intros Hrest. pose proof c_pos as Hc.
  unfold Physics.radial_velocity_doppler_shift.
  rewrite float_div_ok by Lra.lra. cbn [bind].
  eexists. split; [reflexivity|].
  cbn [Physics.rest_wavelength_nm Physics.observed_wavelength_nm
       Physics.wavelength_shift_ratio Physics.wavelength_shift_nm].
  assert (Hic : (0 < / Physics.c)%R) by now apply Rinv_0_lt_compat.
  unfold Rdiv.
  set (q := (radial_velocity * / Physics.c)%R).
  split; [|split].
  - intros Hv. assert (Hq : (0 <= q)%R) by (unfold q; Lra.nra).
    assert (Hs : (0 <= q * rest_wavelength)%R) by Lra.nra.
    repeat split; Lra.lra.
  - intros Hv. assert (Hq : (q <= 0)%R) by (unfold q; Lra.nra).
    assert (Hs : (q * rest_wavelength <= 0)%R) by Lra.nra.
    repeat split; Lra.lra.
  - intros Hv. assert (Hq : q = 0%R) by (unfold q; rewrite Hv; ring).
    rewrite Hq. split; ring.
Qed.

Lemma doppler_shift_direction_witness :
  exists r,
    Physics.radial_velocity_doppler_shift 10 550e-9 = Ok r /\
    ((0 <= 10)%R ->
       (0 <= Physics.wavelength_shift_ratio r)%R /\
       (0 <= Physics.wavelength_shift_nm r)%R /\
       (Physics.rest_wavelength_nm r <= Physics.observed_wavelength_nm r)%R) /\
    ((10 <= 0)%R ->
       (Physics.wavelength_shift_ratio r <= 0)%R /\
       (Physics.wavelength_shift_nm r <= 0)%R /\
       (Physics.observed_wavelength_nm r <= Physics.rest_wavelength_nm r)%R) /\
    (10%R = 0%R ->
       Physics.wavelength_shift_nm r = 0%R /\
       Physics.observed_wavelength_nm r = Physics.rest_wavelength_nm r).
Proof.
  apply (doppler_shift_direction 10 550e-9). Lra.lra.
Defined.

Section RadialVelocityFacts.

Import Orbit Physics.
Local Open Scope R_scope.

Lemma rv_amplitude_value
    (planet_mass stellar_mass orbital_period inclination e : R) :
  0 < stellar_mass -> 0 <= planet_mass -> 0 < orbital_period ->
  -1 < e < 1 ->
  let M_p := planet_mass * M_earth in
  let M_s := stellar_mass * M_sun in
  let P := orbital_period * 24 * 3600 in
  let K :=
    Rpower (2 * PI * G / P) (1 / 3)
    * (M_p * sin (np_radians inclination) / Rpower (M_s + M_p) (2 / 3))
    * (1 / sqrt (1 - e ^ 2)) in
  radial_velocity_amplitude_calculation planet_mass stellar_mass
    orbital_period inclination e =
  Ok {| rv_amplitude_ms := K;
        rv_amplitude_cms := K * 100;
        rv_planet_mass_earth := planet_mass;
        rv_stellar_mass_solar := stellar_mass;
        rv_orbital_period_days := orbital_period;
        inclination_deg := inclination;
        rv_eccentricity := e |}.
Proof.
  intros Hs Hp HP [He1 He2] M_p M_s P K.
  pose proof G_pos. pose proof PI_RGT_0 as Hpi.
  pose proof M_sun_pos. pose proof M_earth_pos.
  assert (HM : 0 < M_s + M_p) by (unfold M_s, M_p; Lra.nra).
  assert (Hec : 0 < 1 - e ^ 2) by (simpl; Lra.nra).
  unfold radial_velocity_amplitude_calculation.
  fold M_p. fold M_s. fold P.
  rewrite float_div_ok by Lra.lra. cbn [bind].
  rewrite float_div_ok by (unfold P; Lra.lra). cbn [bind].
  rewrite float_pow_pos.
  2:{ apply Rdiv_lt_0_compat; [Lra.nra | unfold P; Lra.lra]. }
  cbn [bind]. rewrite float_div_ok by Lra.lra. cbn [bind].
  rewrite float_pow_pos by exact HM. cbn [bind].
  rewrite np_div_ok by (apply Rgt_not_eq, exp_pos). cbn [bind].
  destruct (Rlt_dec e 1) as [_|Hn]; [|contradiction].
  rewrite np_sqrt_ok by Lra.lra. cbn [bind].
  rewrite np_div_ok by (apply Rgt_not_eq, sqrt_lt_R0; exact Hec).
  reflexivity.
Qed.

End RadialVelocityFacts.

(** X19.  In exact real arithmetic, for a positive stellar mass and
    period, a planet mass that is not negative and an eccentricity
    strictly between -1 and 1, the radial-velocity amplitude at
    inclination [i] (degrees) is the edge-on amplitude (90 degrees)
    times [sin i]; a face-on orbit (0 degrees) has no amplitude, and the
    edge-on amplitude of a planet of positive mass is positive. *)
Theorem rv_amplitude_inclination
    (planet_mass stellar_mass orbital_period inclination e : R) :
  (0 < stellar_mass)%R -> (0 <= planet_mass)%R -> (0 < orbital_period)%R ->
  (-1 < e < 1)%R ->
  exists r edge_on face_on,
    Physics.radial_velocity_amplitude_calculation planet_mass stellar_mass
      orbital_period inclination e = Ok r /\
    Physics.radial_velocity_amplitude_calculation planet_mass stellar_mass
      orbital_period 90 e = Ok edge_on /\
    Physics.radial_velocity_amplitude_calculation planet_mass stellar_mass
      orbital_period 0 e = Ok face_on /\
    Physics.rv_amplitude_ms r
      = (sin (inclination * (PI / 180)) * Physics.rv_amplitude_ms edge_on)%R /\
    Physics.rv_amplitude_ms face_on = 0%R /\
    ((0 < planet_mass)%R -> (0 < Physics.rv_amplitude_ms edge_on)%R).
Proof.
  intros Hs Hp HP He.
  do 3 eexists.
  split; [apply rv_amplitude_value; assumption|].
  split; [apply rv_amplitude_value; assumption|].
  split; [apply rv_amplitude_value; assumption|].
  cbn [Physics.rv_amplitude_ms]. unfold Physics.np_radians.
  replace (90 * (PI / 180))%R with (PI / 2)%R by field.
  replace (0 * (PI / 180))%R with 0%R by field.
  rewrite sin_PI2, sin_0.
  assert (Hec : (0 < 1 - e ^ 2)%R) by (simpl; Lra.nra).
  pose proof (sqrt_lt_R0 _ Hec) as Hsq.
  pose proof (exp_pos (2 / 3 * ln (stellar_mass * Orbit.M_sun
                                    + planet_mass * Orbit.M_earth))) as Hpow.
  fold (Rpower (stellar_mass * Orbit.M_sun + planet_mass * Orbit.M_earth) (2 / 3))
    in Hpow.
  split; [field; split; Lra.lra|].
  split; [field; split; Lra.lra|].
  intros Hpm. pose proof M_earth_pos.
  apply Rmult_lt_0_compat; [apply Rmult_lt_0_compat|].
  - apply exp_pos.
  - apply Rdiv_lt_0_compat; [Lra.nra | exact Hpow].
  - apply Rdiv_lt_0_compat; [Lra.lra | exact Hsq].
Qed.

Lemma rv_amplitude_inclination_witness :
  exists r edge_on face_on,
    Physics.radial_velocity_amplitude_calculation 1 1 1 30 0 = Ok r /\
    Physics.radial_velocity_amplitude_calculation 1 1 1 90 0 = Ok edge_on /\
    Physics.radial_velocity_amplitude_calculation 1 1 1 0 0 = Ok face_on /\
    Physics.rv_amplitude_ms r
      = (sin (30 * (PI / 180)) * Physics.rv_amplitude_ms edge_on)%R /\
    Physics.rv_amplitude_ms face_on = 0%R /\
    ((0 < 1)%R -> (0 < Physics.rv_amplitude_ms edge_on)%R).
Proof.
  apply (rv_amplitude_inclination 1 1 1 30 0); Lra.lra.
Defined.

(** * Further properties of the server *)

(** ** Classification *)

Section ClassificationFacts.

Import Endpoints.
Local Open Scope Q_scope.

(** The rank of the classification, read off the thresholds. *)
Lemma classification_rank_thresholds (p c : Q) :
  (0.8 < p /\ 0.7 < c /\ classification_rank (_classify_candidate p c) = 4%nat)
  \/ (~ (0.8 < p /\ 0.7 < c) /\ 0.6 < p /\ 0.5 < c
      /\ classification_rank (_classify_candidate p c) = 3%nat)
  \/ (~ (0.6 < p /\ 0.5 < c) /\ ~ (0.8 < p /\ 0.7 < c) /\ 0.4 < p
      /\ classification_rank (_classify_candidate p c) = 2%nat)
  \/ (p <= 0.4 /\ 0.2 < p
      /\ classification_rank (_classify_candidate p c) = 1%nat)
  \/ (p <= 0.2 /\ classification_rank (_classify_candidate p c) = 0%nat).
Proof.
  unfold _classify_candidate.
  destruct (ltb_cases 0.8 p) as [[E1 C1]|[E1 C1]];
  destruct (ltb_cases 0.7 c) as [[E2 C2]|[E2 C2]];
  destruct (ltb_cases 0.6 p) as [[E3 C3]|[E3 C3]];
  destruct (ltb_cases 0.5 c) as [[E4 C4]|[E4 C4]];
  destruct (ltb_cases 0.4 p) as [[E5 C5]|[E5 C5]];
  destruct (ltb_cases 0.2 p) as [[E6 C6]|[E6 C6]];
  rewrite ?E1, ?E2, ?E3, ?E4, ?E5, ?E6; cbn [andb];
  try (exfalso; Lqa.lra);
  first
    [ left; repeat split; (assumption || reflexivity)
    | right; left; repeat split;
        first [assumption | reflexivity | intros [? ?]; Lqa.lra]
    | right; right; left; repeat split;
        first [assumption | reflexivity | intros [? ?]; Lqa.lra]
    | right; right; right; left; repeat split; (assumption || reflexivity)
    | right; right; right; right; repeat split; (assumption || reflexivity) ].
Qed.

End ClassificationFacts.

(** X20.  The classification never gets weaker when the prediction and
    the confidence grow: with the labels ranked from "Not an Exoplanet"
    (0) to "Strong Exoplanet Candidate" (4), the rank is monotone in both
    arguments. *)
Theorem classification_monotone (p c p' c' : Q) :
  (p <= p')%Q -> (c <= c')%Q ->
  (Endpoints.classification_rank (Endpoints._classify_candidate p c)
   <= Endpoints.classification_rank (Endpoints._classify_candidate p' c'))%nat.
Proof.
  intros Hp Hc.
  destruct (classification_rank_thresholds p c)
    as [(?&?&->)|[(?&?&?&->)|[(?&?&?&->)|[(?&?&->)|(?&->)]]]];
  destruct (classification_rank_thresholds p' c')
    as [(?&?&->)|[(N1&?&?&->)|[(N2&N1&?&->)|[(?&?&->)|(?&->)]]]];
  try lia; exfalso;
  try (apply N1; split; Lqa.lra);
  try (apply N2; split; Lqa.lra);
  try Lqa.lra.
Qed.

Lemma classification_monotone_witness :
  (Endpoints.classification_rank (Endpoints._classify_candidate 0.5 0.9)
   <= Endpoints.classification_rank (Endpoints._classify_candidate 0.7 0.9))%nat.
Proof.
  apply (classification_monotone 0.5 0.9 0.7 0.9); discriminate.
Defined.

(** The confidence matters above a prediction of 0.6 only: at or
    below 0.6 the classification is the same for every confidence, and a
    prediction above 0.8 with a confidence of at most 0.5 is only a
    "Possible Exoplanet". *)
Lemma classification_confidence_role (p c c' : Q) :
  ((p <= 0.6)%Q ->
     Endpoints._classify_candidate p c = Endpoints._classify_candidate p c')
  /\ ((0.8 < p)%Q -> (c <= 0.5)%Q ->
      Endpoints._classify_candidate p c
      = "Possible Exoplanet - Requires Validation"%string).
Proof.
  unfold Endpoints._classify_candidate. split.
  - intros Hp.
    destruct (ltb_cases 0.8 p) as [[E1 C1]|[E1 C1]]; [Lqa.lra|].
    destruct (ltb_cases 0.6 p) as [[E3 C3]|[E3 C3]]; [Lqa.lra|].
    rewrite E1, E3. reflexivity.
  - intros Hp Hc.
    destruct (ltb_cases 0.8 p) as [[E1 C1]|[E1 C1]]; [|Lqa.lra].
    destruct (ltb_cases 0.7 c) as [[E2 C2]|[E2 C2]]; [Lqa.lra|].
    destruct (ltb_cases 0.6 p) as [[E3 C3]|[E3 C3]]; [|Lqa.lra].
    destruct (ltb_cases 0.5 c) as [[E4 C4]|[E4 C4]]; [Lqa.lra|].
    destruct (ltb_cases 0.4 p) as [[E5 C5]|[E5 C5]]; [|Lqa.lra].
    rewrite E1, E2, E3, E4, E5. reflexivity.
Qed.

(** ** Reports over the analysis history *)

Section ReportFacts.

Import Api Endpoints.

Lemma slice_from_zero {A : Type} (xs : list A) : slice_from 0 xs = xs.
Proof.
  unfold slice_from. cbn [Z.ltb Z.compare].
  rewrite Z.min_l by lia. reflexivity.
Qed.

Lemma slice_from_last {A : Type} (k : Z) (xs : list A) :
  (0 < k)%Z ->
  slice_from (- k) xs = skipn (length xs - Z.to_nat k) xs.
Proof.
  intros Hk. unfold slice_from.
  destruct (Z.ltb_spec (- k) 0) as [_|Hge]; [|lia].
  f_equal. lia.
Qed.

Lemma slice_from_drop {A : Type} (k : Z) (xs : list A) :
  (0 <= k)%Z -> slice_from k xs = skipn (Z.to_nat k) xs.
Proof.
  intros Hk. unfold slice_from.
  destruct (Z.ltb_spec k 0) as [Hlt|_]; [lia|].
  destruct (Z.le_gt_cases k (Z.of_nat (length xs))) as [Hle|Hgt].
  - rewrite Z.min_l by lia. reflexivity.
  - rewrite Z.min_r by lia. rewrite Nat2Z.id.
    rewrite !skipn_all2 by lia. reflexivity.
Qed.

Lemma recent_ids (isoformat : Z -> string) (limit : Z) (items : history) :
  map ra_analysis_id (get_recent_analyses isoformat limit items)
  = map fst (slice_from (- limit) items).
Proof.
  unfold get_recent_analyses. rewrite map_map.
  apply map_ext. intros [analysis_id data]. reflexivity.
Qed.

Lemma classified_as_cons (label id : string) (a : HistoryItem)
    (items : history) :
  classified_as label ((id, a) :: items)
  = ((if String.eqb
           (_classify_candidate (prediction (result a)) (confidence (result a)))
           label
      then 1 else 0) + classified_as label items)%nat.
Proof.
  unfold classified_as. cbn [List.filter snd].
  destruct (String.eqb _ label); reflexivity.
Qed.

Lemma counting_loop (items : history) (m : gmap string nat) (label : string) :
  (forall l, m !! l <> Some 0%nat) ->
  default 0%nat (fold_left count_step (map snd items) m !! label)
    = (default 0%nat (m !! label) + classified_as label items)%nat
  /\ fold_left count_step (map snd items) m !! label <> Some 0%nat.
Proof.
  revert m. induction items as [|[id a] items IH]; intros m Hm.
  - cbn. split; [lia | apply Hm].
  - cbn [map fold_left snd].
    assert (Hm' : forall l, count_step m a !! l <> Some 0%nat).
    { intros l. unfold count_step.
      destruct (decide (_classify_candidate (prediction (result a))
                          (confidence (result a)) = l)) as [<-|Hne].
      - rewrite lookup_insert_eq. intros [= Hz]. lia.
      - rewrite lookup_insert_ne by exact Hne. apply Hm. }
    destruct (IH (count_step m a) Hm') as [IH1 IH2].
    split; [|exact IH2]. rewrite IH1, classified_as_cons.
    unfold count_step at 1.
    destruct (String.eqb_spec
                (_classify_candidate (prediction (result a))
                   (confidence (result a))) label) as [E|Hne].
    + rewrite E, lookup_insert_eq. cbn [default from_option Datatypes.id]. lia.
    + rewrite lookup_insert_ne by exact Hne. lia.
Qed.

End ReportFacts.

(** The counter a label has after the loop, and no zero entries. *)
Lemma classification_counts_lookup (items : Endpoints.history)
    (label : string) :
  default 0%nat (Endpoints._get_classification_counts items !! label)
    = classified_as label items
  /\ Endpoints._get_classification_counts items !! label <> Some 0%nat.
Proof.
  destruct (counting_loop items ∅ label) as [Hc Hz].
  { intros l. rewrite lookup_empty. discriminate. }
  rewrite lookup_empty in Hc.
  change (fold_left count_step (map snd items) ∅)
    with (Endpoints._get_classification_counts items) in Hc, Hz.
  split; [rewrite Hc; reflexivity | exact Hz].
Qed.

(** X21.  [_get_classification_counts] counts every stored analysis
    under its classification: a label maps to the number of analyses so
    classified, and a label that classifies no analysis is absent (no
    zero entries). *)
Theorem classification_counts_exact (items : Endpoints.history)
    (label : string) :
  Endpoints._get_classification_counts items !! label
  = if Nat.eqb (classified_as label items) 0 then None
    else Some (classified_as label items).
Proof.
  destruct (classification_counts_lookup items label) as [Hc Hz].
  destruct (Endpoints._get_classification_counts items !! label) as [n|];
    cbn [default from_option Datatypes.id] in Hc.
  - destruct (Nat.eqb_spec (classified_as label items) 0) as [E|E].
    + exfalso. apply Hz. f_equal. lia.
    + f_equal. lia.
  - destruct (Nat.eqb_spec (classified_as label items) 0) as [E|E];
      [reflexivity | lia].
Qed.

(** X22.  [get_recent_analyses(limit)] lists the last [limit] analyses
    (all of them when there are fewer) for a positive limit; with
    [limit = 0] it lists every analysis, not none; with a negative limit
    it skips the first [-limit] ones. *)
Theorem recent_analyses_limit (isoformat : Z -> string) (limit : Z)
    (items : Endpoints.history) :
  let ids := map fst items in
  let answer :=
    map Endpoints.ra_analysis_id
      (Endpoints.get_recent_analyses isoformat limit items) in
  (limit = 0%Z -> answer = ids)
  /\ ((0 < limit)%Z ->
      answer = skipn (length ids - Z.to_nat limit) ids /\
      length answer = Nat.min (Z.to_nat limit) (length ids))
  /\ ((limit < 0)%Z -> answer = skipn (Z.to_nat (- limit)) ids).
Proof.
  intros ids answer. unfold answer, ids. rewrite recent_ids.
  split; [|split].
  - intros ->. cbn [Z.opp]. now rewrite slice_from_zero.
  - intros Hl. rewrite slice_from_last by exact Hl.
    rewrite <- skipn_map, length_map. split; [reflexivity|].
    rewrite length_skipn, length_map. lia.
  - intros Hl. rewrite slice_from_drop by lia.
    now rewrite <- skipn_map.
Qed.

(** X23.  In the system overview the three distributions and the
    timestamps are those of the last 100 analyses only (of all of them
    when there are fewer), in stored order, while [total_analyses] and
    the classification counts cover the whole history. *)
Theorem overview_coverage {Parameters : Type} (isoformat : Z -> string)
    (parameters : Parameters) (items : Endpoints.history) (label : string) :
  let o := Endpoints._generate_system_overview isoformat parameters items in
  let last100 := skipn (length items - 100) (map snd items) in
  Endpoints.predictions_values o
    = map (fun a => Endpoints.prediction (Endpoints.result a)) last100
  /\ Endpoints.confidence_values o
    = map (fun a => Endpoints.confidence (Endpoints.result a)) last100
  /\ Endpoints.consensus_values o
    = map (fun a => Endpoints.consensus_strength (Endpoints.result a)) last100
  /\ Endpoints.consensus_timestamps o
    = map (fun a => isoformat (Api.timestamp (Endpoints.stored a))) last100
  /\ length last100 = Nat.min 100 (length items)
  /\ Endpoints.total_analyses o = length items
  /\ default 0%nat (Endpoints.classification_counts o !! label)
     = classified_as label items.
Proof.
  intros o last100. unfold o, Endpoints._generate_system_overview.
  cbn [Endpoints.predictions_values Endpoints.confidence_values
       Endpoints.consensus_values Endpoints.consensus_timestamps
       Endpoints.total_analyses Endpoints.classification_counts].
  change (-100)%Z with (- (100))%Z.
  rewrite (slice_from_last 100) by lia. rewrite length_map.
  change (Z.to_nat 100) with 100%nat. fold last100.
  repeat (split; [reflexivity|]).
  split; [|split; [reflexivity|]].
  - unfold last100. rewrite length_skipn, length_map. lia.
  - apply classification_counts_lookup.
Qed.

(** ** The connection manager *)

Section ConnectionFacts.

Import Endpoints.

Context {WebSocket : Type} `{EqDecision WebSocket}.

Lemma list_remove_app_new (x : WebSocket) (l r : list WebSocket) :
  x ∉ l -> list_remove x (l ++ x :: r) = l ++ r.
Proof.
  induction l as [|y l IH]; intros Hx; cbn [app list_remove].
  - now rewrite decide_True.
  - apply not_elem_of_cons in Hx as [Hxy Hx].
    rewrite decide_False by exact Hxy. now rewrite IH.
Qed.

Lemma disconnect_app_new (x : WebSocket) (l r : list WebSocket) :
  x ∉ l -> disconnect x (l ++ x :: r) = l ++ r.
Proof.
  intros Hx. unfold disconnect.
  rewrite decide_True by (apply elem_of_app; right; apply elem_of_cons; now left).
  now apply list_remove_app_new.
Qed.

Lemma nth_error_middle (l r : list WebSocket) (x : WebSocket) :
  nth_error (l ++ x :: r) (length l) = Some x.
Proof.
  rewrite nth_error_app2 by lia. now rewrite Nat.sub_diag.
Qed.

Lemma nth_error_end (l : list WebSocket) (i : nat) :
  (length l <= i)%nat -> nth_error l i = None.
Proof. apply nth_error_None. Qed.

(** The loop over distinct connections, from any position. *)
Lemma broadcast_loop_effect (alive : WebSocket -> bool) (fuel : nat)
    (kept rest sent : list WebSocket) :
  base.NoDup (kept ++ rest) -> (length rest < fuel)%nat ->
  broadcast_loop alive fuel (length kept) (kept ++ rest) sent
  = Some (kept ++ fst (broadcast_effect alive rest),
          sent ++ snd (broadcast_effect alive rest)).
Proof.
  revert kept rest sent.
  induction fuel as [|fuel IH]; intros kept rest sent Hnd Hfuel; [lia|].
  cbn [broadcast_loop]. destruct rest as [|x r].
  - rewrite nth_error_end by (rewrite length_app; cbn; lia).
    cbn. now rewrite !app_nil_r.
  - rewrite nth_error_middle. cbn [broadcast_effect].
    cbn [length] in Hfuel.
    destruct (alive x).
    + replace (S (length kept)) with (length (kept ++ [x]))
        by (rewrite length_app; cbn; lia).
      replace (kept ++ x :: r) with ((kept ++ [x]) ++ r)
        by now rewrite <- app_assoc.
      rewrite IH; [|now rewrite <- app_assoc | lia].
      cbn [fst snd]. now rewrite <- !app_assoc.
    + assert (Hx : x ∉ kept).
      { apply list.NoDup_app in Hnd as (_ & Hd & _). intros Hin.
        apply (Hd x Hin). apply elem_of_cons. now left. }
      rewrite disconnect_app_new by exact Hx.
      assert (Hnd' : base.NoDup (kept ++ r)).
      { apply list.NoDup_app in Hnd as (H1 & H2 & H3).
        apply list.NoDup_cons in H3 as [_ H3].
        apply list.NoDup_app. split; [exact H1|]. split; [|exact H3].
        intros y Hy Hyr. apply (H2 y Hy). apply elem_of_cons. now right. }
      destruct r as [|y r'].
      * destruct fuel as [|fuel']; [lia|]. cbn [broadcast_loop].
        rewrite nth_error_end by (rewrite app_nil_r; lia).
        cbn. now rewrite !app_nil_r.
      * replace (S (length kept)) with (length (kept ++ [y]))
          by (rewrite length_app; cbn; lia).
        replace (kept ++ y :: r') with ((kept ++ [y]) ++ r')
          by now rewrite <- app_assoc.
        cbn [length] in Hfuel.
        rewrite IH; [|now rewrite <- app_assoc | lia].
        cbn [fst snd]. now rewrite <- !app_assoc.
Qed.

Lemma broadcast_effect_spec (alive : WebSocket -> bool)
    (l : list WebSocket) :
  base.NoDup l -> broadcast alive l = Some (broadcast_effect alive l).
Proof.
  intros Hnd. unfold broadcast.
  pose proof (broadcast_loop_effect alive (S (length l)) [] l [] Hnd) as E.
  cbn [app length] in E. rewrite E by lia.
  now destruct (broadcast_effect alive l).
Qed.

Lemma broadcast_effect_alive_prefix (alive : WebSocket -> bool)
    (pre rest : list WebSocket) :
  Forall (fun x => alive x = true) pre ->
  broadcast_effect alive (pre ++ rest)
  = (pre ++ fst (broadcast_effect alive rest),
     pre ++ snd (broadcast_effect alive rest)).
Proof.
  induction 1 as [|x pre Hx _ IH]; cbn [app broadcast_effect].
  - now destruct (broadcast_effect alive rest).
  - rewrite Hx, IH. reflexivity.
Qed.

Lemma broadcast_effect_sent_bounded (alive : WebSocket -> bool) (n : nat) :
  forall l : list WebSocket, (length l <= n)%nat ->
  forall x, x ∈ snd (broadcast_effect alive l) -> x ∈ l /\ alive x = true.
Proof.
  induction n as [|n IH]; intros l Hl x.
  - destruct l; [|cbn in Hl; lia]. cbn. intros Hx.
    now apply elem_of_nil in Hx.
  - destruct l as [|a [|b r]]; cbn [broadcast_effect].
    + cbn. intros Hx. now apply elem_of_nil in Hx.
    + destruct (alive a) eqn:Ea; cbn [snd]; intros Hx.
      * apply elem_of_cons in Hx as [->|Hx];
          [split; [apply elem_of_cons; now left | exact Ea]|].
        now apply elem_of_nil in Hx.
      * now apply elem_of_nil in Hx.
    + cbn [length] in Hl.
      destruct (alive a) eqn:Ea; cbn [snd]; intros Hx.
      * apply elem_of_cons in Hx as [->|Hx];
          [split; [apply elem_of_cons; now left | exact Ea]|].
        destruct (IH (b :: r)) with (x := x) as [Hin Hal];
          [cbn; lia | exact Hx |].
        split; [apply elem_of_cons; now right | exact Hal].
      * destruct (IH r) with (x := x) as [Hin Hal]; [lia | exact Hx |].
        split; [|exact Hal].
        apply elem_of_cons; right. apply elem_of_cons; now right.
Qed.

Lemma broadcast_effect_sent (alive : WebSocket -> bool) (l : list WebSocket)
    (x : WebSocket) :
  x ∈ snd (broadcast_effect alive l) -> x ∈ l /\ alive x = true.
Proof. now apply (broadcast_effect_sent_bounded alive (length l)). Qed.

End ConnectionFacts.

Section BroadcastFacts.

Import Endpoints.

Context {WebSocket : Type} `{EqDecision WebSocket}.

Lemma list_remove_last (x : WebSocket) (l : list WebSocket) :
  x ∉ l -> list_remove x (l ++ [x]) = l.
Proof.
  intros Hx. rewrite list_remove_app_new by exact Hx. apply app_nil_r.
Qed.

Lemma broadcast_loop_all_alive (alive : WebSocket -> bool)
    (rest : list WebSocket) :
  Forall (fun x => alive x = true) rest ->
  forall (fuel : nat) (kept sent : list WebSocket),
    (length rest < fuel)%nat ->
    broadcast_loop alive fuel (length kept) (kept ++ rest) sent
    = Some (kept ++ rest, sent ++ rest).
Proof.
  induction 1 as [|x rest Hx _ IH]; intros fuel kept sent Hfuel;
    (destruct fuel as [|fuel]; [cbn in Hfuel; lia|]); cbn [broadcast_loop].
  - rewrite nth_error_end by (rewrite length_app; cbn; lia).
    now rewrite !app_nil_r.
  - rewrite nth_error_middle, Hx. cbn [length] in Hfuel.
    replace (S (length kept)) with (length (kept ++ [x]))
      by (rewrite length_app; cbn; lia).
    replace (kept ++ x :: rest) with ((kept ++ [x]) ++ rest)
      by now rewrite <- app_assoc.
    rewrite IH by lia. now rewrite <- !app_assoc.
Qed.

Lemma broadcast_effect_kept_bounded (alive : WebSocket -> bool) (n : nat) :
  forall l : list WebSocket, (length l <= n)%nat ->
  forall x, x ∈ fst (broadcast_effect alive l) -> x ∈ l.
Proof.
  induction n as [|n IH]; intros l Hl x.
  - destruct l; [|cbn in Hl; lia]. cbn. intros Hx.
    now apply elem_of_nil in Hx.
  - destruct l as [|a [|b r]]; cbn [broadcast_effect].
    + cbn. intros Hx. now apply elem_of_nil in Hx.
    + destruct (alive a); cbn [fst]; intros Hx; [exact Hx|].
      now apply elem_of_nil in Hx.
    + cbn [length] in Hl.
      destruct (alive a); cbn [fst]; intros Hx.
      * apply elem_of_cons in Hx as [->|Hx]; [apply elem_of_cons; now left|].
        apply elem_of_cons; right. apply (IH (b :: r)); [cbn; lia | exact Hx].
      * apply elem_of_cons in Hx as [->|Hx].
        -- apply elem_of_cons; right. apply elem_of_cons; now left.
        -- apply elem_of_cons; right. apply elem_of_cons; right.
           apply (IH r); [lia | exact Hx].
Qed.

Lemma broadcast_effect_all_dead_bounded (alive : WebSocket -> bool) (n : nat) :
  forall l : list WebSocket, (length l <= n)%nat ->
  Forall (fun x => alive x = false) l ->
  broadcast_effect alive l = (every_second l, []).
Proof.
  induction n as [|n IH]; intros l Hl Hdead.
  - destruct l; [reflexivity | cbn in Hl; lia].
  - destruct l as [|a [|b r]]; [reflexivity| |].
    + apply Forall_inv in Hdead as Ha. cbn. now rewrite Ha.
    + pose proof (Forall_inv Hdead) as Ha.
      apply Forall_inv_tail, Forall_inv_tail in Hdead.
      cbn [broadcast_effect every_second length] in *.
      rewrite Ha, (IH r) by (lia || assumption). reflexivity.
Qed.

End BroadcastFacts.

(** X24.  Registering a connection that is not yet registered and
    disconnecting it again gives back the list of connections, and
    disconnecting a connection that is not registered changes nothing. *)
Theorem connect_disconnect_round_trip {WebSocket : Type}
    `{EqDecision WebSocket} (websocket : WebSocket)
    (active_connections : list WebSocket) :
  websocket ∉ active_connections ->
  Endpoints.disconnect websocket
    (Endpoints.connect websocket active_connections) = active_connections
  /\ Endpoints.disconnect websocket active_connections = active_connections.
Proof.
  intros Hx. split.
  - unfold Endpoints.connect, Endpoints.disconnect.
    rewrite decide_True by (apply elem_of_app; right; apply elem_of_cons; now left).
    now apply list_remove_last.
  - unfold Endpoints.disconnect. now rewrite decide_False.
Qed.

Lemma connect_disconnect_round_trip_witness :
  Endpoints.disconnect 3%nat (Endpoints.connect 3%nat [1; 2]%nat) = [1; 2]%nat
  /\ Endpoints.disconnect 3%nat [1; 2]%nat = [1; 2]%nat.
Proof.
  apply (connect_disconnect_round_trip 3%nat [1; 2]%nat).
  intros Hin. repeat (apply elem_of_cons in Hin as [Hin|Hin]; [discriminate|]).
  now apply elem_of_nil in Hin.
Defined.

(** X25.  When every registered connection accepts the message, a
    broadcast sends it to each of them once, in order, and leaves the
    list of connections as it was. *)
Theorem broadcast_all_alive {WebSocket : Type} `{EqDecision WebSocket}
    (alive : WebSocket -> bool) (active_connections : list WebSocket) :
  Forall (fun x => alive x = true) active_connections ->
  Endpoints.broadcast alive active_connections
  = Some (active_connections, active_connections).
Proof.
  intros Hall. unfold Endpoints.broadcast.
  pose proof (broadcast_loop_all_alive alive active_connections Hall
                (S (length active_connections)) [] []) as E.
  cbn [app length] in E. apply E. lia.
Qed.

Lemma broadcast_all_alive_witness :
  Endpoints.broadcast (fun _ : nat => true) [1; 2; 2]%nat
  = Some ([1; 2; 2]%nat, [1; 2; 2]%nat).
Proof.
  apply (broadcast_all_alive (fun _ : nat => true) [1; 2; 2]%nat).
  repeat constructor.
Defined.

(** X26.  A failed send makes a broadcast pass over the next
    connection: among distinct connections, when the connections before
    [dead] accept the message and [dead] fails, [dead] is dropped, and
    the connection right after it stays registered but does not receive
    the message, whether it is alive or not. *)
Theorem broadcast_skips_after_failure {WebSocket : Type}
    `{EqDecision WebSocket} (alive : WebSocket -> bool)
    (pre post : list WebSocket) (dead next : WebSocket) :
  base.NoDup (pre ++ dead :: next :: post) ->
  Forall (fun x => alive x = true) pre -> alive dead = false ->
  exists kept sent,
    Endpoints.broadcast alive (pre ++ dead :: next :: post)
      = Some (kept, sent) /\
    (next ∈ kept) /\ (next ∉ sent) /\ (dead ∉ kept) /\ (dead ∉ sent).
Proof.
  intros Hnd Hpre Hdead.
  rewrite broadcast_effect_spec by exact Hnd.
  rewrite broadcast_effect_alive_prefix by exact Hpre.
  cbn [Endpoints.broadcast_effect]. rewrite Hdead. cbn [fst snd].
  do 2 eexists. split; [reflexivity|].
  apply list.NoDup_app in Hnd as (_ & Hsep & Hnd).
  apply list.NoDup_cons in Hnd as [Hd Hnd].
  apply list.NoDup_cons in Hnd as [Hn _].
  assert (Hdn : dead <> next).
  { intros ->. apply Hd. apply elem_of_cons. now left. }
  assert (Hdpost : dead ∉ post).
  { intros Hin. apply Hd. apply elem_of_cons. now right. }
  assert (Hdpre : dead ∉ pre).
  { intros Hin. apply (Hsep dead Hin). apply elem_of_cons. now left. }
  assert (Hnpre : next ∉ pre).
  { intros Hin. apply (Hsep next Hin).
    apply elem_of_cons. right. apply elem_of_cons. now left. }
  split; [apply elem_of_app; right; apply elem_of_cons; now left|].
  split; [|split].
  - intros Hin. apply elem_of_app in Hin as [Hin|Hin]; [now apply Hnpre|].
    apply broadcast_effect_sent in Hin as [Hin _]. now apply Hn.
  - intros Hin. apply elem_of_app in Hin as [Hin|Hin]; [now apply Hdpre|].
    apply elem_of_cons in Hin as [Hin|Hin]; [now apply Hdn|].
    apply Hdpost.
    now apply (broadcast_effect_kept_bounded alive (length post) post).
  - intros Hin. apply elem_of_app in Hin as [Hin|Hin]; [now apply Hdpre|].
    apply broadcast_effect_sent in Hin as [Hin _]. now apply Hdpost.
Qed.

Lemma broadcast_skips_after_failure_witness :
  exists kept sent,
    Endpoints.broadcast (fun x : nat => negb (Nat.eqb x 2))
      ([1] ++ 2 :: 3 :: [4])%nat = Some (kept, sent) /\
    (3%nat ∈ kept) /\ (3%nat ∉ sent) /\ (2%nat ∉ kept) /\ (2%nat ∉ sent).
Proof.
  apply (broadcast_skips_after_failure (fun x : nat => negb (Nat.eqb x 2))
           [1]%nat [4]%nat 2%nat 3%nat).
  - apply (bool_decide_unpack _). vm_compute. exact I.
  - repeat constructor.
  - reflexivity.
Defined.

(** X27.  When every send fails, a broadcast over distinct connections
    removes only every other connection: the second, fourth, ... stay
    registered, and nobody receives the message. *)
Theorem broadcast_all_dead {WebSocket : Type} `{EqDecision WebSocket}
    (alive : WebSocket -> bool) (active_connections : list WebSocket) :
  base.NoDup active_connections ->
  Forall (fun x => alive x = false) active_connections ->
  Endpoints.broadcast alive active_connections
  = Some (Endpoints.every_second active_connections, []).
Proof.
  intros Hnd Hdead. rewrite broadcast_effect_spec by exact Hnd.
  now rewrite (broadcast_effect_all_dead_bounded alive
                 (length active_connections)).
Qed.

Lemma broadcast_all_dead_witness :
  Endpoints.broadcast (fun _ : nat => false) [1; 2; 3; 4; 5]%nat
  = Some (Endpoints.every_second [1; 2; 3; 4; 5]%nat, []).
Proof.
  apply (broadcast_all_dead (fun _ : nat => false) [1; 2; 3; 4; 5]%nat).
  - apply (bool_decide_unpack _). vm_compute. exact I.
  - repeat constructor.
Defined.

(** ** The feedback endpoint: search, failures, other analyses *)

Section FeedbackSearchFacts.

Import Api.

Lemma find_analysis_index_from (stored : StoredAnalysis) (k : nat)
    (entries : list AggregationEntry) (i : nat) :
  find_analysis_index stored k entries = Some i <->
  (k <= i)%nat /\
  (exists a, nth_error entries (i - k) = Some a /\ entry_matches stored a = true)
  /\ (forall j b, (j < i - k)%nat -> nth_error entries j = Some b ->
        entry_matches stored b = false).
Proof.
  revert k. induction entries as [|a entries IH]; intros k;
    cbn [find_analysis_index].
  - split; [discriminate|]. intros (_ & (x & Hx & _) & _).
    destruct (i - k)%nat; discriminate.
  - fold (entry_matches stored a).
    destruct (entry_matches stored a) eqn:Ea.
    + split.
      * intros [= <-]. split; [lia|]. rewrite Nat.sub_diag. split.
        -- exists a. now split.
        -- intros j b Hj. lia.
      * intros (Hk & (x & Hx & Hm) & Hfirst).
        destruct (i - k)%nat as [|d] eqn:Ed; [f_equal; lia|].
        specialize (Hfirst 0%nat a ltac:(lia) eq_refl). congruence.
    + rewrite IH. split.
      * intros (Hk & (x & Hx & Hm) & Hfirst). split; [lia|].
        replace (i - k)%nat with (S (i - S k)) by lia. split.
        -- exists x. now split.
        -- intros [|j] b Hj Hb; cbn in Hb; [congruence|].
           apply (Hfirst j b); [lia | exact Hb].
      * intros (Hk & (x & Hx & Hm) & Hfirst).
        destruct (i - k)%nat as [|d] eqn:Ed.
        { cbn in Hx. congruence. }
        split; [lia|]. replace (i - S k)%nat with d by lia. split.
        -- exists x. now split.
        -- intros j b Hj Hb. apply (Hfirst (S j) b); [lia | exact Hb].
Qed.

End FeedbackSearchFacts.

(** X28.  The search of the feedback handler returns the position of the
    first history entry with the stored star id and a timestamp less
    than a minute away: no earlier entry matches; so a feedback goes to
    the earliest such entry, whichever analysis the id names. *)
Theorem find_analysis_index_first (stored : Api.StoredAnalysis)
    (entries : list Api.AggregationEntry) (i : nat) :
  Api.find_analysis_index stored 0 entries = Some i <->
  (exists a, nth_error entries i = Some a /\ entry_matches stored a = true)
  /\ (forall j b, (j < i)%nat -> nth_error entries j = Some b ->
        entry_matches stored b = false).
Proof.
  rewrite find_analysis_index_from, Nat.sub_0_r. split.
  - intros (_ & H1 & H2). now split.
  - intros (H1 & H2). split; [lia|]. now split.
Qed.

(** X29.  How the feedback handler fails, always as an HTTP 500: an
    unknown analysis and an analysis without a matching history entry
    leave the server unchanged; an exception of
    [provide_human_feedback] leaves the stored analyses and the
    broadcasts unchanged; but when [get_system_status] raises, the
    feedback has already been stored although the client is told the
    call failed. *)
Theorem feedback_failure_modes {F : Type} `{Api.FederatedAISystem F}
    (self : Api.Server F) (request : Api.FeedbackRequest) (now : Z) :
  (Api.analysis_history self !! Api.analysis_id request = None ->
     Api.provide_feedback self request now
     = (self, Raise (Api.Http500 (Api.HTTPException 404 "Analysis not found"))))
  /\ (forall stored,
        Api.analysis_history self !! Api.analysis_id request = Some stored ->
        Api.find_analysis_index stored 0
          (Api.aggregation_history (Api.federated_system self)) = None ->
        Api.provide_feedback self request now
        = (self,
           Raise (Api.Http500
                    (Api.HTTPException 404
                       "Analysis not found in federated system"))))
  /\ (forall stored i fed e,
        Api.analysis_history self !! Api.analysis_id request = Some stored ->
        Api.find_analysis_index stored 0
          (Api.aggregation_history (Api.federated_system self)) = Some i ->
        Api.provide_human_feedback (Api.federated_system self) i
          (Api.is_correct request) (Api.ground_truth request)
          = (fed, Some e) ->
        Api.provide_feedback self request now
        = ({| Api.federated_system := fed;
              Api.analysis_history := Api.analysis_history self;
              Api.broadcasts := Api.broadcasts self |},
           Raise (Api.Http500 e)))
  /\ (forall stored i fed e,
        Api.analysis_history self !! Api.analysis_id request = Some stored ->
        Api.find_analysis_index stored 0
          (Api.aggregation_history (Api.federated_system self)) = Some i ->
        Api.provide_human_feedback (Api.federated_system self) i
          (Api.is_correct request) (Api.ground_truth request)
          = (fed, None) ->
        Api.get_system_status fed = Raise e ->
        exists self' stored',
          Api.provide_feedback self request now
            = (self', Raise (Api.Http500 e)) /\
          Api.analysis_history self' !! Api.analysis_id request
            = Some stored' /\
          Api.feedback stored'
            = Some {| Api.fb_is_correct := Api.is_correct request;
                      Api.fb_ground_truth := Api.ground_truth request;
                      Api.fb_user_notes := Api.user_notes request;
                      Api.fb_timestamp := now |} /\
          Api.broadcasts self' = Api.broadcasts self).
Proof.
  split; [|split; [|split]].
  - intros Hnone. unfold Api.provide_feedback, Api.feedback_body.
    now rewrite Hnone.
  - intros stored Hs Hf. unfold Api.provide_feedback, Api.feedback_body.
    now rewrite Hs, Hf.
  - intros stored i fed e Hs Hf Hp.
    unfold Api.provide_feedback, Api.feedback_body.
    now rewrite Hs, Hf, Hp.
  - intros stored i fed e Hs Hf Hp Hst.
    unfold Api.provide_feedback, Api.feedback_body.
    rewrite Hs, Hf, Hp, Hst. do 2 eexists.
    split; [reflexivity|]. cbn [Api.analysis_history Api.broadcasts].
    split; [apply lookup_insert_eq|]. split; reflexivity.
Qed.

(** X30.  A feedback call, whatever its outcome, writes to no analysis
    but the one named in the request: the ['feedback'] entry and the
    timestamp stored under any other id are the same before and after,
    and the stored ids are the same. *)
Theorem feedback_leaves_other_analyses {F : Type} `{Api.FederatedAISystem F}
    (self : Api.Server F) (request : Api.FeedbackRequest) (now : Z)
    (other : string) :
  other <> Api.analysis_id request ->
  let self' := fst (Api.provide_feedback self request now) in
  Api.feedback <$> (Api.analysis_history self' !! other)
    = Api.feedback <$> (Api.analysis_history self !! other) /\
  Api.timestamp <$> (Api.analysis_history self' !! other)
    = Api.timestamp <$> (Api.analysis_history self !! other) /\
  (forall id : string,
     is_Some (Api.analysis_history self' !! id) <->
     is_Some (Api.analysis_history self !! id)).
Proof.
  intros Hne self'.
  assert (Hkeep :
    Api.analysis_history self' = Api.analysis_history self \/
    exists stored stored',
      Api.analysis_history self !! Api.analysis_id request = Some stored /\
      Api.analysis_history self'
      = <[Api.analysis_id request := stored']> (Api.analysis_history self)).
  { unfold self', Api.provide_feedback, Api.feedback_body.
    destruct (Api.analysis_history self !! Api.analysis_id request)
      as [stored|] eqn:Hs; [|now left].
    destruct (Api.find_analysis_index _ _ _) as [i|]; [|now left].
    destruct (Api.provide_human_feedback _ _ _ _) as [fed [e|]]; [now left|].
    destruct (Api.get_system_status fed) as [status|e];
      right; do 2 eexists; (split; [reflexivity|]); reflexivity. }
  destruct Hkeep as [-> | (stored & stored' & Hs & ->)].
  - repeat split; auto.
  - rewrite lookup_insert_ne by congruence.
    split; [reflexivity|]. split; [reflexivity|]. intros id.
    destruct (decide (id = Api.analysis_id request)) as [->|Hid].
    + rewrite lookup_insert_eq, Hs. split; intros _; eauto.
    + now rewrite lookup_insert_ne by congruence.
Qed.

Lemma feedback_leaves_other_analyses_witness :
  let self' :=
    fst (Api.provide_feedback Federated.two_analyses Federated.confirm_a1
           9000000%Z) in
  Api.feedback <$> (Api.analysis_history self' !! "a-2"%string)
    = Api.feedback <$>
        (Api.analysis_history Federated.two_analyses !! "a-2"%string) /\
  Api.timestamp <$> (Api.analysis_history self' !! "a-2"%string)
    = Api.timestamp <$>
        (Api.analysis_history Federated.two_analyses !! "a-2"%string) /\
  (forall id : string,
     is_Some (Api.analysis_history self' !! id) <->
     is_Some (Api.analysis_history Federated.two_analyses !! id)).
Proof.
  apply (feedback_leaves_other_analyses Federated.two_analyses
           Federated.confirm_a1 9000000%Z "a-2"%string).
  discriminate.
Defined.
